(** * Task/project manager: the service layer over the document store

    A shallow embedding of the task service ([getTasks], [searchTasks],
    [createTask], [updateTask], [deleteTask], [updateTaskStatus],
    [assignTaskToProject]) and of the project service
    ([services/projectService.ts]: [getProjects], [createProject],
    [updateProject], [deleteProject]), over the shapes of
    [models/Task.ts] and [models/Project.ts], together with the part of
    the MongoDB driver these functions call. The sorted listings and
    [filterTasksByProject] only read and are left out.

    - JavaScript objects and stored documents are finite maps from field
      names to values ([gmap string Value]): the services build documents
      with object spread, filter them with [Object.entries] and hand them
      to [$set] / [$unset], all of which are generic in the field names.
    - The database is explicit state: two collections kept in insertion
      order, the ObjectId generator of the driver, and the system clock.
      Every evaluation of [new Date()] is one reading of the clock.
    - A service call is a computation in a state-and-exception monad: a
      thrown [Error] leaves the state as it was when it was thrown. *)

From Stdlib Require Import ZArith NArith Ascii String.
From stdpp Require Import base option list gmap strings.

(** ** Values and documents *)

(** The values the models of the repository use ([string], [Date],
    [ObjectId]), plus the two empty values of JavaScript. A [Date] is its
    number of milliseconds since the epoch, an [ObjectId] the number its
    twelve bytes denote. *)
Inductive Value :=
| VUndefined
| VNull
| VString (s : string)
| VDate (ms : Z)
| VObjectId (oid : N).

#[global] Instance Value_eq_dec : EqDecision Value.
Proof. solve_decision. Defined.

(** A JavaScript object or a stored document. *)
Abbreviation Doc := (gmap string Value).

(** Property access [o.k]: a missing property reads as [undefined]. *)
Definition field (k : string) (o : Doc) : Value := default VUndefined (o !! k).

(** The driver serialises [undefined] as BSON null (its [ignoreUndefined]
    option is off unless the client sets it, and the repository's client
    is built with the connection string alone). *)
Definition to_bson (v : Value) : Value :=
  match v with
  | VUndefined => VNull
  | _ => v
  end.

Definition serialize (o : Doc) : Doc := to_bson <$> o.

(** ** ObjectId *)

Definition hex_digit (c : ascii) : option N :=
  let n := N_of_ascii c in
  if ((48 <=? n) && (n <=? 57))%N then Some (n - 48)%N
  else if ((97 <=? n) && (n <=? 102))%N then Some (n - 87)%N
  else if ((65 <=? n) && (n <=? 70))%N then Some (n - 55)%N
  else None.

Fixpoint hex_value (acc : N) (s : string) : option N :=
  match s with
  | EmptyString => Some acc
  | String c s' =>
      match hex_digit c with
      | Some d => hex_value (16 * acc + d)%N s'
      | None => None
      end
  end.

Module ObjectId.

(** The canonical textual form of an identifier: 24 hexadecimal digits. *)
Definition parse (id : string) : option N :=
  if Nat.eqb (String.length id) 24 then hex_value 0 id else None.

(** [ObjectId.isValid(id)] *)
Definition isValid (id : string) : bool :=
  match parse id with
  | Some _ => true
  | None => false
  end.

End ObjectId.

(** ** Regular expressions

    [searchTasks] and [filterTasksByProject] pass their argument to the
    store as a [$regex] with the option [i]; the server matches it with
    the PCRE library, on UTF-8 text, anywhere in the field. The fragment
    modelled here: a character other than a metacharacter stands for
    itself; a backslash before a character that is no ASCII letter or
    digit makes that character stand for itself; [.] stands for any
    character except a line feed; [^] holds at the start of the text,
    and [$] at its end or before a line feed that ends it. A pattern
    with anything else in it is outside the fragment ([regex_compile]
    gives [None]): the store leaves it to the server's library, [pcre]
    of the database below. *)

Inductive Atom :=
| Lit (c : ascii)
| AnyChar
| Bol
| Eol.

(** The metacharacters of PCRE outside a character class. *)
Definition metacharacters : list ascii :=
  ["\"; "^"; "$"; "."; "["; "|"; "("; ")"; "?"; "*"; "+"; "{"]%char.

Definition is_meta (c : ascii) : bool := existsb (Ascii.eqb c) metacharacters.

(** An ASCII letter or digit: after a backslash it has a meaning of its
    own. *)
Definition is_alnum (c : ascii) : bool :=
  let n := N_of_ascii c in
  ((48 <=? n) && (n <=? 57) || (65 <=? n) && (n <=? 90)
   || (97 <=? n) && (n <=? 122))%N.

Fixpoint regex_compile (p : string) : option (list Atom) :=
  match p with
  | EmptyString => Some []
  | String c p' =>
      if Ascii.eqb c "\"%char then
        match p' with
        | String e p'' =>
            if is_alnum e then None else cons (Lit e) <$> regex_compile p''
        | EmptyString => None
        end
      else if Ascii.eqb c "."%char then cons AnyChar <$> regex_compile p'
      else if Ascii.eqb c "^"%char then cons Bol <$> regex_compile p'
      else if Ascii.eqb c "$"%char then cons Eol <$> regex_compile p'
      else if is_meta c then None
      else cons (Lit c) <$> regex_compile p'
  end.

(** Case folding of the option [i], on the letters A to Z. *)
Definition fold_case (c : ascii) : ascii :=
  let n := N_of_ascii c in
  if ((65 <=? n) && (n <=? 90))%N then ascii_of_N (n + 32) else c.

(** A byte that continues a UTF-8 character. *)
Definition is_continuation (c : ascii) : bool :=
  let n := N_of_ascii c in ((128 <=? n) && (n <=? 191))%N.

Fixpoint skip_continuation (s : string) : string :=
  match s with
  | String c s' => if is_continuation c then skip_continuation s' else s
  | EmptyString => EmptyString
  end.

(** [$]: the end of the text, or a line feed that ends it. *)
Definition at_end (s : string) : bool :=
  match s with
  | EmptyString => true
  | String c EmptyString => Ascii.eqb c "010"%char
  | _ => false
  end.

(** [match_here r start s]: [r] matches a prefix of [s]; [start] tells
    whether [s] is the whole text. [.] takes one character, that is a
    byte that starts one and the bytes that continue it. *)
Fixpoint match_here (r : list Atom) (start : bool) (s : string) : bool :=
  match r with
  | [] => true
  | Lit x :: r' =>
      match s with
      | String c s' => Ascii.eqb (fold_case x) (fold_case c) && match_here r' false s'
      | EmptyString => false
      end
  | AnyChar :: r' =>
      match s with
      | String c s' =>
          negb (Ascii.eqb c "010"%char) && negb (is_continuation c)
          && match_here r' false (skip_continuation s')
      | EmptyString => false
      end
  | Bol :: r' => start && match_here r' start s
  | Eol :: r' => at_end s && match_here r' start s
  end.

Fixpoint search_from (r : list Atom) (start : bool) (s : string) : bool :=
  match_here r start s ||
  match s with
  | EmptyString => false
  | String _ s' => search_from r false s'
  end.

Definition regex_search (r : list Atom) (s : string) : bool := search_from r true s.

(** ** The database *)

Inductive Collection := Tasks | Projects.

Record World := mkWorld {
  tasks : list Doc;        (* db.collection('tasks'), in insertion order *)
  projects : list Doc;     (* db.collection('projects') *)
  next_oid : N;            (* the next ObjectId the driver generates *)
  pcre : string → option (string → bool);
                           (* the server's regular-expression library on a
                              pattern outside the modelled fragment, with the
                              option i: None when it rejects the pattern,
                              otherwise the search anywhere in a text *)
  clock : nat → Z;         (* the n-th reading of the system clock *)
  reads : nat              (* how many readings have been taken *)
}.

Definition collection (c : Collection) (w : World) : list Doc :=
  match c with
  | Tasks => tasks w
  | Projects => projects w
  end.

Definition set_collection (c : Collection) (l : list Doc) (w : World) : World :=
  match c with
  | Tasks => mkWorld l (projects w) (next_oid w) (pcre w) (clock w) (reads w)
  | Projects => mkWorld (tasks w) l (next_oid w) (pcre w) (clock w) (reads w)
  end.

(** ** Errors

    The services throw [Error] objects told apart by their message; the
    store raises its own errors. [kind] is the taxonomy of the
    specification. *)
Inductive Error :=
| InvalidTaskID                        (* 'Invalid Task ID' *)
| InvalidProjectID                     (* 'Invalid Project ID' *)
| TaskAlreadyExists (name : Value)     (* `A task with the name "${name}" already exists.` *)
| ProjectAlreadyExists (name : Value)  (* `A project with the name "${name}" already exists.` *)
| ProjectNotFound                      (* 'Project not found' *)
| BSONError                            (* new ObjectId of a malformed string *)
| MongoDuplicateKey                    (* E11000, the unique index on _id *)
| MongoImmutableField                  (* an update that would change _id *)
| MongoInvalidRegex.                   (* a $regex the server's library rejects *)

Inductive ErrorKind := InvalidArgument | Conflict | NotFound | Unclassified.

Definition kind (e : Error) : ErrorKind :=
  match e with
  | InvalidTaskID | InvalidProjectID => InvalidArgument
  | TaskAlreadyExists _ | ProjectAlreadyExists _ => Conflict
  | ProjectNotFound => NotFound
  | BSONError | MongoDuplicateKey | MongoImmutableField | MongoInvalidRegex =>
      Unclassified
  end.

(** ** The monad of service calls *)

Definition M (A : Type) : Type := World → (Error + A) * World.

#[global] Instance M_ret : MRet M := λ A a w, (inr a, w).

#[global] Instance M_bind : MBind M := λ A B f m w,
  match m w with
  | (inr a, w') => f a w'
  | (inl e, w') => (inl e, w')
  end.

Definition throw {A} (e : Error) : M A := λ w, (inl e, w).

(** [new Date()]: one reading of the clock. *)
Definition newDate : M Value := λ w,
  (inr (VDate (clock w (reads w))),
   mkWorld (tasks w) (projects w) (next_oid w) (pcre w) (clock w) (S (reads w))).

(** The driver's [pkFactory.createPk()]. *)
Definition createPk : M Value := λ w,
  (inr (VObjectId (next_oid w)),
   mkWorld (tasks w) (projects w) (N.succ (next_oid w)) (pcre w) (clock w) (reads w)).

(** [new ObjectId(id)] *)
Definition ObjectId_new (id : string) : M Value :=
  match ObjectId.parse id with
  | Some n => mret (VObjectId n)
  | None => throw BSONError
  end.

(** ** The storage gateway

    The operations of a MongoDB collection the services use. A query
    [{ k: q }] selects the documents whose field [k] equals [q]; a query
    for null also selects the documents without the field. [findOne],
    [updateOne] and [deleteOne] act on the first selected document in
    insertion order. *)

Inductive Filter :=
| FAll                               (* {} *)
| FEq (k : string) (q : Value)       (* { k: q } *)
| FRegexI (k : string) (p : string)  (* { k: { $regex: p, $options: 'i' } } *)
| FCompiled (k : string) (m : string → bool).
                                     (* a $regex as the server's library
                                        compiled it *)

Definition matches (f : Filter) (d : Doc) : bool :=
  match f with
  | FAll => true
  | FEq k q =>
      match d !! k with
      | Some v => bool_decide (v = to_bson q)
      | None => bool_decide (to_bson q = VNull)
      end
  | FRegexI k p =>
      match regex_compile p, d !! k with
      | Some r, Some (VString s) => regex_search r s
      | _, _ => false
      end
  | FCompiled k m =>
      match d !! k with
      | Some (VString s) => m s
      | _ => false
      end
  end.

(** The server compiles the pattern of a [$regex] before it runs the
    query: a pattern of the fragment is matched as [regex_compile] reads
    it, any other pattern as the server's library reads it, unless the
    library rejects it. *)
Definition compile (w : World) (f : Filter) : option Filter :=
  match f with
  | FRegexI k p =>
      if bool_decide (is_Some (regex_compile p)) then Some f
      else FCompiled k <$> pcre w p
  | _ => Some f
  end.

(** The first document a query selects, with its position. *)
Definition first_match (f : Filter) (l : list Doc) : option (nat * Doc) :=
  list_find (λ d : Doc, matches f d) l.

#[global] Arguments first_match : simpl never.

Inductive Update :=
| USet (fields : Doc)     (* { $set: fields } *)
| UUnset (fields : Doc).  (* { $unset: fields } *)

(** [$set] writes the given fields over the document, [$unset] removes
    the named ones. A [$set] of no field at all changes nothing (the
    server accepts it from version 5.0 on). *)
Definition update_doc (u : Update) (d : Doc) : Doc :=
  match u with
  | USet s => serialize s ∪ d
  | UUnset s => d ∖ s
  end.

Record UpdateResult := mkUpdateResult { matchedCount : N; modifiedCount : N }.

(** [find(f).toArray()] *)
Definition find (c : Collection) (f : Filter) : M (list Doc) := λ w,
  match compile w f with
  | Some f => (inr (filter (λ d, matches f d) (collection c w)), w)
  | None => (inl MongoInvalidRegex, w)
  end.

(** [findOne(f)]: [None] is the driver's [null]. *)
Definition findOne (c : Collection) (f : Filter) : M (option Doc) := λ w,
  match compile w f with
  | Some f => (inr (snd <$> first_match f (collection c w)), w)
  | None => (inl MongoInvalidRegex, w)
  end.

(** The unique index on [_id] rejects an identifier that is taken. *)
Definition insertWithId (c : Collection) (doc : Doc) (id : Value) : M Value := λ w,
  if bool_decide (Exists (λ d, d !! "_id" = Some id) (collection c w))
  then (inl MongoDuplicateKey, w)
  else (inr id,
        set_collection c (collection c w ++ [serialize (<["_id" := id]> doc)]) w).

(** [insertOne(doc)]: the driver gives the document an [_id] when it has
    none. The result is [insertedId]. *)
Definition insertOne (c : Collection) (doc : Doc) : M Value :=
  id ← match to_bson (field "_id" doc) with
       | VNull => createPk
       | v => mret v
       end;
  insertWithId c doc id.

(** [updateOne(f, u)] *)
Definition updateOne (c : Collection) (f : Filter) (u : Update) : M UpdateResult := λ w,
  match compile w f with
  | Some f =>
      match first_match f (collection c w) with
      | None => (inr (mkUpdateResult 0 0), w)
      | Some (i, d) =>
          let d' := update_doc u d in
          if bool_decide (d' !! "_id" = d !! "_id")
          then (inr (mkUpdateResult 1 (if bool_decide (d' = d) then 0 else 1)),
                set_collection c (<[i := d']> (collection c w)) w)
          else (inl MongoImmutableField, w)
      end
  | None => (inl MongoInvalidRegex, w)
  end.

(** [updateMany(f, u)] *)
Definition updateMany (c : Collection) (f : Filter) (u : Update) : M UpdateResult := λ w,
  match compile w f with
  | Some f =>
      let sel := filter (λ d, matches f d) (collection c w) in
      if bool_decide (Forall (λ d, update_doc u d !! "_id" = d !! "_id") sel)
      then (inr (mkUpdateResult
                   (N.of_nat (length sel))
                   (N.of_nat (length (filter (λ d, update_doc u d ≠ d) sel)))),
            set_collection c
              ((λ d, if matches f d then update_doc u d else d) <$> collection c w) w)
      else (inl MongoImmutableField, w)
  | None => (inl MongoInvalidRegex, w)
  end.

(** [deleteOne(f)]: the result is [deletedCount]. *)
Definition deleteOne (c : Collection) (f : Filter) : M N := λ w,
  match compile w f with
  | Some f =>
      match first_match f (collection c w) with
      | None => (inr 0%N, w)
      | Some (i, _) => (inr 1%N, set_collection c (delete i (collection c w)) w)
      end
  | None => (inl MongoInvalidRegex, w)
  end.

(** ** The task service *)

(** [getTasks(status?)]: an absent or empty status selects every task. *)
Definition getTasks (status : option string) : M (list Doc) :=
  match status with
  | Some (String c s) => find Tasks (FEq "status" (VString (String c s)))
  | _ => find Tasks FAll
  end.

Definition searchTasks (name : string) : M (list Doc) :=
  find Tasks (FRegexI "name" name).

Definition createTask (taskData : Doc) : M Value :=
  existingTask ← findOne Tasks (FEq "name" (field "name" taskData));
  match existingTask with
  | Some _ => throw (TaskAlreadyExists (field "name" taskData))
  | None =>
      createdAt ← newDate;
      updatedAt ← newDate;
      let taskToInsert :=
        <["updatedAt" := updatedAt]>
          (<["createdAt" := createdAt]>
             (<["status" := VString "TODO"]> taskData)) in
      insertOne Tasks taskToInsert
  end.

(** [Object.fromEntries(Object.entries(o).filter(([_, v]) => v !== undefined))] *)
Definition cleaned (o : Doc) : Doc := filter (λ kv, kv.2 ≠ VUndefined) o.

Definition updateTask (id : string) (updateData : Doc) : M N :=
  if negb (ObjectId.isValid id) then throw InvalidTaskID else
  existingTask ← findOne Tasks (FEq "name" (field "name" updateData));
  match existingTask with
  | Some _ => throw (TaskAlreadyExists (field "name" updateData))
  | None =>
      taskId ← ObjectId_new id;
      let cleanedData := cleaned updateData in
      result ← updateOne Tasks (FEq "_id" taskId) (USet cleanedData);
      mret (modifiedCount result)
  end.

Definition deleteTask (id : string) : M N :=
  if negb (ObjectId.isValid id) then throw InvalidTaskID else
  taskId ← ObjectId_new id;
  deleteOne Tasks (FEq "_id" taskId).

Definition updateTaskStatus (id : string) (status : Value) : M N :=
  if negb (ObjectId.isValid id) then throw InvalidTaskID else
  taskId ← ObjectId_new id;
  updatedAt ← newDate;
  let updateData := <["updatedAt" := updatedAt]> {["status" := status]} in
  updateData ← (if bool_decide (status = VString "DONE")
                then doneDate ← newDate; mret (<["doneDate" := doneDate]> updateData)
                else mret updateData);
  updateData ← (if bool_decide (status = VString "TODO")
                then startDate ← newDate; mret (<["startDate" := startDate]> updateData)
                else mret updateData);
  result ← updateOne Tasks (FEq "_id" taskId) (USet updateData);
  mret (modifiedCount result).

Definition assignTaskToProject (taskId projectId : string) : M N :=
  if negb (ObjectId.isValid projectId) then throw InvalidProjectID else
  if negb (ObjectId.isValid taskId) then throw InvalidTaskID else
  taskObjectId ← ObjectId_new taskId;
  projectObjectId ← ObjectId_new projectId;
  projectExists ← findOne Projects (FEq "_id" projectObjectId);
  match projectExists with
  | None => throw ProjectNotFound
  | Some _ =>
      result ← updateOne Tasks (FEq "_id" taskObjectId)
                 (USet {["projectId" := projectObjectId]});
      mret (matchedCount result)
  end.

(** ** The project service *)

Definition getProjects : M (list Doc) := find Projects FAll.

Definition createProject (projectData : Doc) : M Value :=
  existingProject ← findOne Projects (FEq "name" (field "name" projectData));
  match existingProject with
  | Some _ => throw (ProjectAlreadyExists (field "name" projectData))
  | None =>
      createdAt ← newDate;
      updatedAt ← newDate;
      let projectToInsert :=
        <["updatedAt" := updatedAt]> (<["createdAt" := createdAt]> projectData) in
      insertOne Projects projectToInsert
  end.

Definition updateProject (id : string) (updateData : Doc) : M N :=
  if negb (ObjectId.isValid id) then throw InvalidProjectID else
  existingProject ← findOne Projects (FEq "name" (field "name" updateData));
  match existingProject with
  | Some _ => throw (ProjectAlreadyExists (field "name" updateData))
  | None =>
      projectId ← ObjectId_new id;
      let cleanedUpdateData := cleaned updateData in
      result ← updateOne Projects (FEq "_id" projectId) (USet cleanedUpdateData);
      mret (modifiedCount result)
  end.

Definition deleteProject (id : string) : M N :=
  if negb (ObjectId.isValid id) then throw InvalidProjectID else
  projectId ← ObjectId_new id;
  deletedCount ← deleteOne Projects (FEq "_id" projectId);
  _ ← (if bool_decide (deletedCount ≠ 0%N)
       then _ ← updateMany Tasks (FEq "projectId" projectId)
                  (UUnset {["projectId" := VString ""]});
            mret tt
       else mret tt);
  mret deletedCount.

(** ** The shapes of the models

    The object types of [models/Task.ts] and [models/Project.ts], as
    decidable predicates on objects. A required property holds a value of
    its type; an optional one may also be missing or [undefined]; the
    properties an [Omit] removes are missing. *)

Definition is_string (v : Value) : bool :=
  match v with VString _ => true | _ => false end.

Definition is_date (v : Value) : bool :=
  match v with VDate _ => true | _ => false end.

Definition is_objectId (v : Value) : bool :=
  match v with VObjectId _ => true | _ => false end.

(** [enum TaskStatus { TODO = 'TODO', DONE = 'DONE' }] *)
Definition is_taskStatus (v : Value) : bool :=
  bool_decide (v = VString "TODO") || bool_decide (v = VString "DONE").

Definition required (p : Value → bool) (k : string) (o : Doc) : bool :=
  match o !! k with
  | Some v => p v
  | None => false
  end.

Definition optional (p : Value → bool) (k : string) (o : Doc) : bool :=
  match o !! k with
  | Some v => p v || bool_decide (v = VUndefined)
  | None => true
  end.

Definition omitted (k : string) (o : Doc) : bool := bool_decide (o !! k = None).

(** [Omit<Task, '_id' | 'createdAt' | 'updatedAt' | 'doneDate'>] *)
Definition isCreateTaskDto (o : Doc) : bool :=
  required is_string "name" o && required is_taskStatus "status" o &&
  required is_date "startDate" o && required is_date "dueDate" o &&
  optional is_objectId "projectId" o &&
  omitted "_id" o && omitted "createdAt" o && omitted "updatedAt" o &&
  omitted "doneDate" o.

(** [Partial<Omit<Task, '_id' | 'createdAt'>> & { updatedAt: Date }] *)
Definition isUpdateTaskDto (o : Doc) : bool :=
  optional is_string "name" o && optional is_taskStatus "status" o &&
  optional is_date "startDate" o && optional is_date "dueDate" o &&
  required is_date "updatedAt" o && optional is_date "doneDate" o &&
  optional is_objectId "projectId" o &&
  omitted "_id" o && omitted "createdAt" o.

(** [Omit<Project, '_id' | 'createdAt' | 'updatedAt'>] *)
Definition isCreateProjectDto (o : Doc) : bool :=
  required is_string "name" o && optional is_string "description" o &&
  required is_date "startDate" o && required is_date "endDate" o &&
  omitted "_id" o && omitted "createdAt" o && omitted "updatedAt" o.

(** [Partial<Omit<Project, '_id' | 'createdAt'>> & { updatedAt: Date }] *)
Definition isUpdateProjectDto (o : Doc) : bool :=
  optional is_string "name" o && optional is_string "description" o &&
  optional is_date "startDate" o && optional is_date "endDate" o &&
  required is_date "updatedAt" o &&
  omitted "_id" o && omitted "createdAt" o.

(** The identifier the driver generates next is not in use in [c]. *)
Definition oid_fresh (c : Collection) (w : World) : Prop :=
  Forall (λ d : Doc, d !! "_id" ≠ Some (VObjectId (next_oid w))) (collection c w).

(** The stored document with identifier [oid], with its position. *)
Definition lookup_id (c : Collection) (oid : N) (w : World) : option (nat * Doc) :=
  first_match (FEq "_id" (VObjectId oid)) (collection c w).

(** What the cascade of [deleteProject] does to one task: the bulk
    [$unset] of [projectId] on the tasks that hold [pid]. *)
Definition unlink (pid : N) (d : Doc) : Doc :=
  if decide (d !! "projectId" = Some (VObjectId pid))
  then delete "projectId" d else d.

(** ** Sequential use of the repositories *)

(** The calls that write to the database. *)
Inductive Op :=
| CreateTask (taskData : Doc)
| UpdateTask (id : string) (updateData : Doc)
| DeleteTask (id : string)
| UpdateTaskStatus (id : string) (status : Value)
| AssignTaskToProject (taskId projectId : string)
| CreateProject (projectData : Doc)
| UpdateProject (id : string) (updateData : Doc)
| DeleteProject (id : string).

(** The database a call leaves, whether it returns or throws. *)
Definition exec (op : Op) (w : World) : World :=
  match op with
  | CreateTask taskData => (createTask taskData w).2
  | UpdateTask id updateData => (updateTask id updateData w).2
  | DeleteTask id => (deleteTask id w).2
  | UpdateTaskStatus id status => (updateTaskStatus id status w).2
  | AssignTaskToProject taskId projectId =>
      (assignTaskToProject taskId projectId w).2
  | CreateProject projectData => (createProject projectData w).2
  | UpdateProject id updateData => (updateProject id updateData w).2
  | DeleteProject id => (deleteProject id w).2
  end.

(** The names held by the documents of a collection, in store order. *)
Definition names (l : list Doc) : list Value := omap (λ d : Doc, d !! "name") l.

(** Names are pairwise distinct, by exact comparison. *)
Definition unique_names (w : World) : Prop :=
  NoDup (names (tasks w)) ∧ NoDup (names (projects w)).

(** ** The identifier generator *)

(** Every ObjectId in use was generated earlier. In such a database the
    generator is fresh for both collections. *)
Definition oids_below (w : World) : Prop :=
  ∀ c d n, d ∈ collection c w → d !! "_id" = Some (VObjectId n) →
           (n < next_oid w)%N.

(** A call that generates no identifier and brings none in. *)
Definition keeps_ids (w w' : World) : Prop :=
  next_oid w' = next_oid w
  ∧ ∀ c d', d' ∈ collection c w' →
            ∃ d, d ∈ collection c w ∧ d !! "_id" = d' !! "_id".

(** Collections that differ by one document rewritten in place with its
    [_id] kept, by one document removed, or by a rewriting of every
    document that keeps its [_id]. *)
Inductive rewritten : list Doc → list Doc → Prop :=
| rewritten_same l : rewritten l l
| rewritten_insert l i d x :
    l !! i = Some d → x !! "_id" = d !! "_id" → rewritten l (<[i := x]> l)
| rewritten_delete l i : rewritten l (delete i l)
| rewritten_fmap l f :
    (∀ d, f d !! "_id" = d !! "_id") → rewritten l (f <$> l).

(** The creating calls receive drafts without an [_id], as the create
    shapes have it. *)
Definition creates_without_id (op : Op) : Prop :=
  match op with
  | CreateTask draft | CreateProject draft => draft !! "_id" = None
  | _ => True
  end.

(** ** Substring search, as the specification words it

    [contains_ci q name]: [name] contains [q] as a substring, letter case
    ignored. [contains_cib] decides it. *)

Fixpoint lower (s : string) : string :=
  match s with
  | EmptyString => EmptyString
  | String c s' => String (fold_case c) (lower s')
  end.

Definition contains_ci (q name : string) : Prop :=
  ∃ pre post, lower name = pre +:+ lower q +:+ post.

Fixpoint is_prefix (p s : string) : bool :=
  match p, s with
  | EmptyString, _ => true
  | String _ _, EmptyString => false
  | String a p', String b s' => Ascii.eqb a b && is_prefix p' s'
  end.

Fixpoint is_substring (p s : string) : bool :=
  is_prefix p s ||
  match s with
  | EmptyString => false
  | String _ s' => is_substring p s'
  end.

Definition contains_cib (q name : string) : bool :=
  is_substring (lower q) (lower name).

(** The task's name is a string that contains [q], letter case ignored. *)
Definition name_contains (q : string) (d : Doc) : Prop :=
  ∃ n, d !! "name" = Some (VString n) ∧ contains_ci q n.

(** A query string without regular-expression metacharacters. *)
Fixpoint literal (s : string) : bool :=
  match s with
  | EmptyString => true
  | String c s' => negb (is_meta c) && literal s'
  end.

(** [name] starts with [q], letter case ignored. *)
Definition starts_with_ci (q name : string) : Prop :=
  ∃ post, lower name = lower q +:+ post.

(** The task's name is a string that starts with [q], letter case
    ignored. *)
Definition name_starts_with (q : string) (d : Doc) : Prop :=
  ∃ n, d !! "name" = Some (VString n) ∧ starts_with_ci q n.

(** The text has a character other than a line feed. *)
Fixpoint has_char_but_lf (s : string) : bool :=
  match s with
  | EmptyString => false
  | String c s' =>
      negb (Ascii.eqb c "010"%char) && negb (is_continuation c)
      || has_char_but_lf s'
  end.

(** The task's name is a string with a character other than a line
    feed. *)
Definition name_has_char (d : Doc) : bool :=
  match d !! "name" with
  | Some (VString n) => has_char_but_lf n
  | _ => false
  end.

(** ** A sample database

    The scenario of the specification: project "Alpha" and task "Design",
    the task assigned to the project. The clock advances by one
    millisecond at every reading. *)

(** A server whose library accepts no pattern outside the fragment. *)
Definition sample_pcre (p : string) : option (string → bool) := None.

Definition sample_clock (n : nat) : Z := (Z.of_nat n + 1704067200000)%Z.

Definition P1 : string := "000000000000000000000001".
Definition T1 : string := "000000000000000000000002".

Definition alpha : Doc :=
  {[ "_id" := VObjectId 1; "name" := VString "Alpha";
     "startDate" := VDate 1704067200000; "endDate" := VDate 1717200000000;
     "createdAt" := VDate 1704060000000; "updatedAt" := VDate 1704060000000 ]}.

Definition design : Doc :=
  {[ "_id" := VObjectId 2; "name" := VString "Design";
     "status" := VString "TODO";
     "startDate" := VDate 1704153600000; "dueDate" := VDate 1704844800000;
     "createdAt" := VDate 1704060000001; "updatedAt" := VDate 1704060000002;
     "projectId" := VObjectId 1 ]}.

Definition sample_world : World := mkWorld [design] [alpha] 3 sample_pcre sample_clock 0.

(** Request bodies. *)
Definition implement_draft : Doc :=
  {[ "name" := VString "Implement"; "status" := VString "DONE";
     "startDate" := VDate 1704240000000; "dueDate" := VDate 1704931200000 ]}.

Definition design_draft : Doc :=
  {[ "name" := VString "Design"; "status" := VString "TODO";
     "startDate" := VDate 1704240000000; "dueDate" := VDate 1704931200000 ]}.

Definition beta_draft : Doc :=
  {[ "name" := VString "Beta";
     "startDate" := VDate 1704240000000; "endDate" := VDate 1704931200000 ]}.

Definition alpha_draft : Doc :=
  {[ "name" := VString "Alpha";
     "startDate" := VDate 1704067200000; "endDate" := VDate 1717200000000 ]}.

(** The scenario, from an empty database whose first generated
    identifier is [P1]: create the project, create the task, assign it,
    mark it done, delete the project. *)
Definition empty_world : World := mkWorld [] [] 1 sample_pcre sample_clock 0.

Definition scenario : M (Value * Value * N * N * N) :=
  p ← createProject alpha_draft;
  t ← createTask design_draft;
  matched ← assignTaskToProject T1 P1;
  modified ← updateTaskStatus T1 (VString "DONE");
  deleted ← deleteProject P1;
  mret (p, t, matched, modified, deleted).

(** Update patches: both conform to the update shapes, and stamp
    [updatedAt] with 2000-01-01. *)
Definition rename_task_patch : Doc :=
  {[ "name" := VString "Design v2"; "updatedAt" := VDate 946684800000 ]}.

Definition rename_project_patch : Doc :=
  {[ "name" := VString "Alpha v2"; "updatedAt" := VDate 946684800000 ]}.

(** A patch that repeats the current name of project "Alpha". *)
Definition keep_name_patch : Doc :=
  {[ "name" := VString "Alpha"; "description" := VString "first release";
     "updatedAt" := VDate 1704070000000 ]}.

(** * The rest of the code

    What the verified calls leave out of the two services, and the
    callers of the services. *)

(** ** The rest of the task service *)

(** [filterTasksByProject(projectName)]: the project is looked up with
    the name as a case-insensitive [$regex], the tasks by the identifier
    of the project found. *)
Definition filterTasksByProject (projectName : string) : M (list Doc) :=
  project ← findOne Projects (FRegexI "name" projectName);
  match project with
  | None => throw ProjectNotFound
  | Some project => find Tasks (FEq "projectId" (field "_id" project))
  end.

(** ** Identifiers and references *)

(** The identifiers held by the documents of a collection, in store
    order. *)
Definition ids (l : list Doc) : list Value := omap (λ d : Doc, d !! "_id") l.

(** No two documents of a collection share an identifier. *)
Definition unique_ids (w : World) : Prop :=
  NoDup (ids (tasks w)) ∧ NoDup (ids (projects w)).

(** Every task that holds a projectId holds the identifier of a stored
    project. *)
Definition refs_ok (w : World) : Prop :=
  ∀ t pid, t ∈ tasks w → t !! "projectId" = Some (VObjectId pid) →
           ∃ p, p ∈ projects w ∧ p !! "_id" = Some (VObjectId pid).

(** The projectId a task draft or a task patch carries, if any, is the
    identifier of a stored project. The two calls store it unchecked. *)
Definition brings_no_dangling (op : Op) (w : World) : Prop :=
  match op with
  | CreateTask o | UpdateTask _ o =>
      ∀ pid, o !! "projectId" = Some (VObjectId pid) →
             ∃ p, p ∈ projects w ∧ p !! "_id" = Some (VObjectId pid)
  | _ => True
  end.

(** ** The controllers *)

(** A controller is an Express handler: it awaits one service call and
    answers through [res].  [res.status] only records the code;
    [res.json] sends the body with the recorded code, once: on a response
    already sent it throws (ERR_HTTP_HEADERS_SENT) and what was sent
    stays.  A response starts with code 200. *)

Inductive Thrown :=
| Raised (e : Error)   (* an error of the service or of the driver *)
| HeadersSent.         (* 'Cannot set headers after they are sent to the client' *)

Inductive Json :=
| JString (s : string)
| JCount (n : N)
| JValue (v : Value)
| JMessage (error : Thrown).   (* error.message *)

Inductive Body :=
| Documents (l : list Doc)
| Object (fields : list (string * Json)).

Record Response := mkResponse {
  statusCode : nat;
  sent : option (nat * Body)
}.

Definition new_response : Response := mkResponse 200 None.

Definition Handler (A : Type) : Type :=
  Response → World → (Thrown + A) * Response * World.

#[global] Instance Handler_ret : MRet Handler := λ A a res w, (inr a, res, w).

#[global] Instance Handler_bind : MBind Handler := λ A B f m res w,
  match m res w with
  | (inr a, res', w') => f a res' w'
  | (inl t, res', w') => (inl t, res', w')
  end.

Definition await {A} (m : M A) : Handler A := λ res w,
  match m w with
  | (inr a, w') => (inr a, res, w')
  | (inl e, w') => (inl (Raised e), res, w')
  end.

Definition res_status (code : nat) : Handler unit := λ res w,
  (inr (), mkResponse code (sent res), w).

Definition res_json (body : Body) : Handler unit := λ res w,
  match sent res with
  | None => (inr (), mkResponse (statusCode res) (Some (statusCode res, body)), w)
  | Some _ => (inl HeadersSent, res, w)
  end.

Definition try_catch {A} (block : Handler A) (handler : Thrown → Handler A) : Handler A :=
  λ res w,
    match block res w with
    | (inl error, res', w') => handler error res' w'
    | returned => returned
    end.

(** [error instanceof Error]: whatever the services, the driver and
    Express throw is an [Error]. *)
Definition instanceof_Error (error : Thrown) : bool :=
  match error with
  | Raised _ | HeadersSent => true
  end.

(** [error.message.includes('already exists')], by the messages listed
    with [Error]: only the two duplicate-name messages hold the words. *)
Definition includes_already_exists (error : Thrown) : bool :=
  match error with
  | Raised (TaskAlreadyExists _) | Raised (ProjectAlreadyExists _) => true
  | _ => false
  end.

(** The [catch] block that every controller but [createTaskController]
    has. *)
Definition internal_error (error : Thrown) : Handler unit :=
  if instanceof_Error error
  then res_status 500;; res_json (Object [("error", JMessage error)])
  else res_status 500;; res_json (Object [("error", JString "An unknown error occurred")]).

(** [!count] *)
Definition falsy (n : N) : bool := bool_decide (n = 0%N).

Definition getTasksController (status : option string) : Handler unit :=
  try_catch
    (tasks ← await (getTasks status);
     res_json (Documents tasks))
    internal_error.

Definition searchTasksController (name : string) : Handler unit :=
  try_catch
    (tasks ← await (searchTasks name);
     res_json (Documents tasks))
    internal_error.

Definition filterTasksByProjectController (projectName : string) : Handler unit :=
  try_catch
    (tasks ← await (filterTasksByProject projectName);
     res_json (Documents tasks))
    internal_error.

Definition createTaskController (body : Doc) : Handler unit :=
  try_catch
    (taskId ← await (createTask body);
     res_status 201;;
     res_json (Object [("message", JString "Task created successfully");
                   ("taskId", JValue taskId)]))
    (λ error,
       if instanceof_Error error
       then
         (if includes_already_exists error
          then res_status 409;; res_json (Object [("error", JMessage error)])
          else mret ());;
         res_status 500;; res_json (Object [("error", JMessage error)])
       else res_status 500;; res_json (Object [("error", JString "An unknown error occurred")])).

Definition updateTaskController (id : string) (body : Doc) : Handler unit :=
  try_catch
    (modifiedCount ← await (updateTask id body);
     res_json (Object [("message", JString "Task updated successfully");
                   ("modifiedCount", JCount modifiedCount)]))
    internal_error.

Definition deleteTaskController (id : string) : Handler unit :=
  try_catch
    (deletedCount ← await (deleteTask id);
     res_json (Object [("message", JString "Task deleted successfully");
                   ("deletedCount", JCount deletedCount)]))
    internal_error.

Definition updateTaskStatusController (id : string) (body : Doc) : Handler unit :=
  try_catch
    (modifiedCount ← await (updateTaskStatus id (field "status" body));
     res_json (Object [("message", JString "Task status updated successfully");
                   ("modifiedCount", JCount modifiedCount)]))
    internal_error.

Definition assignTaskToProjectController (taskId projectId : string) : Handler unit :=
  try_catch
    (matchedCount ← await (assignTaskToProject taskId projectId);
     if falsy matchedCount
     then res_status 404;; res_json (Object [("message", JString "Task not found")])
     else res_json (Object [("message", JString "Task assigned to project successfully")]))
    internal_error.

Definition getProjectsController : Handler unit :=
  try_catch
    (projects ← await getProjects;
     res_json (Documents projects))
    internal_error.

Definition createProjectController (body : Doc) : Handler unit :=
  try_catch
    (projectId ← await (createProject body);
     res_status 201;;
     res_json (Object [("message", JString "Project created successfully");
                   ("projectId", JValue projectId)]))
    internal_error.

Definition updateProjectController (id : string) (body : Doc) : Handler unit :=
  try_catch
    (modifiedCount ← await (updateProject id body);
     if falsy modifiedCount
     then res_status 404;; res_json (Object [("message", JString "Project not found")])
     else res_json (Object [("message", JString "Project updated successfully")]))
    internal_error.

Definition deleteProjectController (id : string) : Handler unit :=
  try_catch
    (deletedCount ← await (deleteProject id);
     if falsy deletedCount
     then res_status 404;; res_json (Object [("message", JString "Project not found")])
     else res_json (Object
                 [("message",
                   JString "Project deleted successfully and associated tasks unlinked")]))
    internal_error.

(** The requests the controllers serve, with what each controller reads
    of the request. *)
Inductive Request :=
| GetTasks (status : option string)
| SearchTasks (name : string)
| FilterTasksByProject (projectName : string)
| PostTask (body : Doc)
| PutTask (id : string) (body : Doc)
| DeleteTaskById (id : string)
| PatchTaskStatus (id : string) (body : Doc)
| AssignTask (taskId projectId : string)
| GetProjects
| PostProject (body : Doc)
| PutProject (id : string) (body : Doc)
| DeleteProjectById (id : string).

Definition controller (r : Request) : Handler unit :=
  match r with
  | GetTasks status => getTasksController status
  | SearchTasks name => searchTasksController name
  | FilterTasksByProject projectName => filterTasksByProjectController projectName
  | PostTask body => createTaskController body
  | PutTask id body => updateTaskController id body
  | DeleteTaskById id => deleteTaskController id
  | PatchTaskStatus id body => updateTaskStatusController id body
  | AssignTask taskId projectId => assignTaskToProjectController taskId projectId
  | GetProjects => getProjectsController
  | PostProject body => createProjectController body
  | PutProject id body => updateProjectController id body
  | DeleteProjectById id => deleteProjectController id
  end.

(** ** The aggregations

    [runAggregations] runs two pipelines.  A joined document is kept as
    the pair of the input document and what [$lookup] adds to it.
    [setHours] is [Date.prototype.setHours] of the host, which depends on
    its time zone: it maps a time to the given time of day on the same
    local day. *)

(** The value [$lookup] compares: a missing field counts as null. *)
Definition lookup_value (k : string) (d : Doc) : Value :=
  from_option to_bson VNull (d !! k).

(** [{ $lookup: { from, localField, foreignField, as } }]: the documents
    of [from] whose [foreignField] equals the [localField] of [d], in the
    order of the collection. *)
Definition lookup_stage (from : list Doc) (localField foreignField : string) (d : Doc) : list Doc :=
  filter (λ x, lookup_value foreignField x = lookup_value localField d) from.

(** [{ $unwind: '$as' }]: one document for each joined one, none when
    there is none. *)
Definition unwind (l : list (Doc * list Doc)) : list (Doc * Doc) :=
  mjoin ((λ dxs : Doc * list Doc, (λ x, (dxs.1, x)) <$> dxs.2) <$> l).

(** [{ $gte: date }] and [{ $lt: date }] select dates only. *)
Definition date_gte (bound : Z) (v : option Value) : bool :=
  match v with
  | Some (VDate t) => bool_decide (bound ≤ t)%Z
  | _ => false
  end.

Definition date_lt (bound : Z) (v : option Value) : bool :=
  match v with
  | Some (VDate t) => bool_decide (t < bound)%Z
  | _ => false
  end.

(** [new Date(new Date().setHours(h, m, s, ms))] *)
Definition newDate_setHours (setHours : nat → nat → nat → nat → Z → Z) (h m s ms : nat) : M Z :=
  λ w, (inr (setHours h m s ms (clock w (reads w))),
        mkWorld (tasks w) (projects w) (next_oid w) (pcre w) (clock w) (S (reads w))).

(** [{ $match: { 'tasks.dueDate': { $gte, $lt } } }] on the array [tasks]:
    each condition holds when some element meets it. *)
Definition aggregate_projects (gte lt : Z) : M (list (Doc * list Doc)) := λ w,
  (inr (filter
          (λ pts : Doc * list Doc,
             existsb (λ t : Doc, date_gte gte (t !! "dueDate")) pts.2
             && existsb (λ t : Doc, date_lt lt (t !! "dueDate")) pts.2)
          ((λ p, (p, lookup_stage (tasks w) "_id" "projectId" p)) <$> projects w)),
   w).

(** [{ $match: { 'project.dueDate': { $gte, $lt } } }] on the one
    [project] that [$unwind] leaves. *)
Definition aggregate_tasks (gte lt : Z) : M (list (Doc * Doc)) := λ w,
  (inr (filter
          (λ tp : Doc * Doc,
             date_gte gte (tp.2 !! "dueDate") && date_lt lt (tp.2 !! "dueDate"))
          (unwind ((λ t, (t, lookup_stage (projects w) "projectId" "_id" t))
                     <$> tasks w))),
   w).

Definition projectsWithTasksDueToday (setHours : nat → nat → nat → nat → Z → Z) : M (list (Doc * list Doc)) :=
  gte ← newDate_setHours setHours 0 0 0 0;
  lt ← newDate_setHours setHours 23 59 59 999;
  aggregate_projects gte lt.

Definition tasksWithProjectsDueToday (setHours : nat → nat → nat → nat → Z → Z) : M (list (Doc * Doc)) :=
  gte ← newDate_setHours setHours 0 0 0 0;
  lt ← newDate_setHours setHours 23 59 59 999;
  aggregate_tasks gte lt.

(** What [runAggregations] prints. *)
Definition runAggregations (setHours : nat → nat → nat → nat → Z → Z) : M (list (Doc * list Doc) * list (Doc * Doc)) :=
  a ← projectsWithTasksDueToday setHours;
  b ← tasksWithProjectsDueToday setHours;
  mret (a, b).

(** [setHours] of a host on UTC. *)
Definition utc_setHours (h m s ms : nat) (t : Z) : Z :=
  (t - t `mod` 86400000
   + ((Z.of_nat h * 60 + Z.of_nat m) * 60 + Z.of_nat s) * 1000 + Z.of_nat ms)%Z.

(** A task of project "Alpha" due before 1 January 2024, and one due
    after it. *)
Definition overdue : Doc :=
  {[ "_id" := VObjectId 4; "name" := VString "Overdue";
     "status" := VString "TODO"; "dueDate" := VDate 1700000000000;
     "projectId" := VObjectId 1 ]}.

Definition later : Doc :=
  {[ "_id" := VObjectId 5; "name" := VString "Later";
     "status" := VString "TODO"; "dueDate" := VDate 1710000000000;
     "projectId" := VObjectId 1 ]}.

Definition busy_world : World := mkWorld [overdue; later] [alpha] 6 sample_pcre sample_clock 0.

(** * Verification *)

(** ** Running a service call *)

Lemma bind_eq {A B} (m : M A) (f : A → M B) (w : World) :
  (m ≫= f) w =
  match m w with
  | (inr a, w') => f a w'
  | (inl e, w') => (inl e, w')
  end.
Proof. reflexivity. Qed.

(** Unfolds the monad, the clock and the read-only part of the gateway,
    and reads the fields of the state. *)
Ltac mreduce :=
  cbn [collection set_collection tasks projects next_oid pcre clock reads
       fst snd fmap option_fmap option_map to_bson default from_option id
       negb andb orb matchedCount modifiedCount].

Ltac msimpl :=
  cbv [mbind M_bind mret M_ret throw newDate createPk ObjectId_new
       find findOne compile];
  mreduce.

(** The same, with the operations that write. *)
Ltac msimpl_all :=
  cbv [mbind M_bind mret M_ret throw newDate createPk ObjectId_new
       find findOne insertOne insertWithId updateOne updateMany deleteOne
       compile];
  mreduce.

(** ** Queries *)

Lemma matches_FEq (k : string) (q : Value) (d : Doc) :
  matches (FEq k q) d ↔
  d !! k = Some (to_bson q) ∨ (d !! k = None ∧ to_bson q = VNull).
Proof.
  unfold matches. destruct (d !! k) as [v|]; rewrite bool_decide_spec; split;
    [intros ->; by left | intros [[= ->]|[? _]]; done
    | by right | intros [?|[_ ?]]; done].
Qed.

Lemma first_match_None (f : Filter) (l : list Doc) :
  first_match f l = None ↔ ∀ d, d ∈ l → ¬ matches f d.
Proof. unfold first_match. rewrite list_find_None, Forall_forall. done. Qed.

Lemma first_match_Some (f : Filter) (l : list Doc) (i : nat) (d : Doc) :
  first_match f l = Some (i, d) ↔
  l !! i = Some d ∧ matches f d ∧
  ∀ j y, l !! j = Some y → j < i → ¬ matches f y.
Proof. apply (list_find_Some (λ d : Doc, matches f d)). Qed.

Lemma first_match_elem_of (f : Filter) (l : list Doc) (d : Doc) :
  d ∈ l → matches f d → is_Some (first_match f l).
Proof. intros. by apply (list_find_elem_of (λ d : Doc, matches f d) l d). Qed.

Lemma first_match_lookup (f : Filter) (l : list Doc) (i : nat) (d : Doc) :
  first_match f l = Some (i, d) → l !! i = Some d.
Proof. intros H. by apply first_match_Some in H as (? & _). Qed.

(** The name an equality query on a string value selects. *)
Lemma matches_name_string (k s : string) (d : Doc) :
  matches (FEq k (VString s)) d ↔ d !! k = Some (VString s).
Proof.
  rewrite matches_FEq. simpl. split; [intros [?|[_ ?]]; done | by left].
Qed.

Lemma matches_oid (k : string) (n : N) (d : Doc) :
  matches (FEq k (VObjectId n)) d ↔ d !! k = Some (VObjectId n).
Proof.
  rewrite matches_FEq. simpl. split; [intros [?|[_ ?]]; done | by left].
Qed.

(** ** Shapes *)

Lemma required_Some (p : Value → bool) (k : string) (o : Doc) :
  required p k o = true → ∃ v, o !! k = Some v ∧ p v = true.
Proof. unfold required. destruct (o !! k); naive_solver. Qed.

Lemma is_string_inv (v : Value) : is_string v = true → ∃ s, v = VString s.
Proof. destruct v; naive_solver. Qed.

Lemma isCreateTaskDto_inv (o : Doc) :
  isCreateTaskDto o = true →
  (∃ s, o !! "name" = Some (VString s)) ∧ o !! "_id" = None ∧
  o !! "doneDate" = None.
Proof.
  unfold isCreateTaskDto, omitted. rewrite !andb_true_iff, !bool_decide_eq_true.
  intros H. destruct_and!.
  match goal with
  | H : required is_string _ _ = true |- _ =>
      apply required_Some in H as (v & Hv & [s ->]%is_string_inv)
  end.
  eauto.
Qed.

(** ** Inserting *)

(** A document without an [_id] receives the generated identifier and is
    appended, as long as the generator is fresh. *)
Lemma insertOne_generated (c : Collection) (doc : Doc) (w : World) :
  doc !! "_id" = None →
  oid_fresh c w →
  insertOne c doc w =
    (inr (VObjectId (next_oid w)),
     set_collection c
       (collection c w ++ [serialize (<["_id" := VObjectId (next_oid w)]> doc)])
       (mkWorld (tasks w) (projects w) (N.succ (next_oid w)) (pcre w) (clock w) (reads w))).
Proof.
  intros Hid Hfresh. unfold insertOne, field. rewrite Hid. msimpl_all.
  assert (collection c (mkWorld (tasks w) (projects w) (N.succ (next_oid w))
                          (pcre w) (clock w) (reads w)) = collection c w) as -> by (by destruct c).
  rewrite bool_decide_eq_false_2; [done|].
  rewrite Exists_exists. intros (d & Hd & Hdid).
  unfold oid_fresh in Hfresh. rewrite Forall_forall in Hfresh. by apply (Hfresh d).
Qed.

(** A successful insert appends one document carrying the returned
    identifier, which no document of the collection had. *)
Lemma insertOne_success (c : Collection) (doc : Doc) (w w' : World) (id : Value) :
  insertOne c doc w = (inr id, w') →
  collection c w' = collection c w ++ [serialize (<["_id" := id]> doc)]
  ∧ to_bson id = id
  ∧ (∀ d, d ∈ collection c w → d !! "_id" ≠ Some id)
  ∧ (∀ c', c' ≠ c → collection c' w' = collection c' w)
  ∧ reads w' = reads w ∧ clock w' = clock w.
Proof.
  unfold insertOne. rewrite bind_eq.
  set (g := match to_bson (field "_id" doc) with VNull => createPk | v => mret v end).
  assert (∃ id0 w0, g w = (inr id0, w0) ∧ to_bson id0 = id0
                    ∧ reads w0 = reads w ∧ clock w0 = clock w
                    ∧ tasks w0 = tasks w ∧ projects w0 = projects w)
    as (id0 & w0 & -> & Hb & Hr & Hk & Ht & Hp).
  { unfold g. destruct (field "_id" doc); msimpl_all; eauto 10. }
  assert (∀ c', collection c' w0 = collection c' w) as Hc by (by intros []).
  unfold insertWithId. rewrite Hc. case_bool_decide as Hex; [done|].
  intros [= <- <-]. split; [by destruct c|]. split; [done|]. split.
  - intros d Hd Hdid. apply Hex, Exists_exists. eauto.
  - split; [|by destruct c]. intros c' Hc'. rewrite <- Hc. by destruct c, c'.
Qed.

(** The insert fails only on a duplicate key, and then writes nothing to
    either collection. *)
Lemma insertOne_failure (c : Collection) (doc : Doc) (w w' : World) (e : Error) :
  insertOne c doc w = (inl e, w') →
  tasks w' = tasks w ∧ projects w' = projects w.
Proof.
  unfold insertOne. rewrite bind_eq.
  destruct (to_bson (field "_id" doc)); msimpl_all;
    case_bool_decide; intros [= _ <-]; done.
Qed.

(** ** Creating a task *)

(** C1. For every create-task draft: [createTask] fails with Conflict when
    some stored task already has exactly the draft's name; otherwise it
    appends a new task whose status is TODO whatever the draft says, whose
    createdAt and updatedAt are the readings of the clock taken by the
    call, whose doneDate is absent and whose other fields are the draft's,
    and it returns the identifier given to the task. *)
Theorem createTask_conflict_or_insert (taskData : Doc) (w : World) :
  isCreateTaskDto taskData = true →
  oid_fresh Tasks w →
  ((∃ d, d ∈ tasks w ∧ d !! "name" = taskData !! "name") →
     ∃ e, createTask taskData w = (inl e, w) ∧ kind e = Conflict)
  ∧
  ((¬ ∃ d, d ∈ tasks w ∧ d !! "name" = taskData !! "name") →
     ∃ task,
       createTask taskData w =
         (inr (VObjectId (next_oid w)),
          mkWorld (tasks w ++ [task]) (projects w) (N.succ (next_oid w))
                  (pcre w) (clock w) (S (S (reads w))))
       ∧ task !! "_id" = Some (VObjectId (next_oid w))
       ∧ task !! "status" = Some (VString "TODO")
       ∧ task !! "createdAt" = Some (VDate (clock w (reads w)))
       ∧ task !! "updatedAt" = Some (VDate (clock w (S (reads w))))
       ∧ task !! "doneDate" = None
       ∧ ∀ k, k ∉ ["_id"; "status"; "createdAt"; "updatedAt"] →
              task !! k = to_bson <$> taskData !! k).
Proof.
  intros Hdto Hfresh.
  apply isCreateTaskDto_inv in Hdto as ([s Hname] & Hid & Hdone).
  assert (field "name" taskData = VString s) as Hfield
    by (unfold field; by rewrite Hname).
  unfold createTask. rewrite !Hfield, Hname, bind_eq. msimpl.
  split.
  - intros (d & Hd & Hdn).
    assert (is_Some (first_match (FEq "name" (VString s)) (tasks w)))
      as [[i d'] Hf].
    { apply (first_match_elem_of _ _ d); [done|]. by apply matches_name_string. }
    exists (TaskAlreadyExists (VString s)).
    rewrite Hf. msimpl. done.
  - intros Hno.
    assert (first_match (FEq "name" (VString s)) (tasks w) = None) as Hf.
    { apply first_match_None. intros d Hd Hm%matches_name_string. eauto. }
    exists (serialize (<["_id" := VObjectId (next_oid w)]>
      (<["updatedAt" := VDate (clock w (S (reads w)))]>
        (<["createdAt" := VDate (clock w (reads w))]>
          (<["status" := VString "TODO"]> taskData))))).
    rewrite Hf. msimpl. split.
    + rewrite insertOne_generated; [done| |done].
      by rewrite !lookup_insert_ne.
    + unfold serialize. rewrite !lookup_fmap, lookup_insert_eq.
      rewrite !(lookup_insert_ne _ "_id") by done.
      rewrite !(lookup_insert_ne _ _ "status") by done.
      rewrite (lookup_insert_ne _ "updatedAt" "createdAt") by done.
      rewrite !lookup_insert_eq.
      rewrite !(lookup_insert_ne _ _ "doneDate") by done. rewrite Hdone.
      repeat split; try done.
      intros k Hk. rewrite lookup_fmap.
      rewrite !lookup_insert_ne; [done|..]; intros <-; apply Hk; set_solver.
Qed.

Lemma createTask_conflict_or_insert_witness :
  isCreateTaskDto design_draft = true ∧ oid_fresh Tasks sample_world ∧
  ∃ e, createTask design_draft sample_world = (inl e, sample_world)
       ∧ kind e = Conflict.
Proof.
  assert (oid_fresh Tasks sample_world) as Hfresh
    by (repeat constructor; vm_compute; discriminate).
  split; [reflexivity|]. split; [exact Hfresh|].
  apply (createTask_conflict_or_insert design_draft sample_world);
    [reflexivity | exact Hfresh |].
  exists design. split; [by left | reflexivity].
Defined.

(** ** Updating one document *)

Lemma set_lookup (s d : Doc) (k : string) :
  (serialize s ∪ d) !! k =
  match s !! k with
  | Some v => Some (to_bson v)
  | None => d !! k
  end.
Proof.
  unfold serialize. rewrite lookup_union, lookup_fmap.
  destruct (s !! k), (d !! k); done.
Qed.

(** A [$set] that does not mention [_id] always goes through. *)
Lemma updateOne_set (c : Collection) (oid : N) (s : Doc) (w : World) :
  s !! "_id" = None →
  updateOne c (FEq "_id" (VObjectId oid)) (USet s) w =
  match lookup_id c oid w with
  | None => (inr (mkUpdateResult 0 0), w)
  | Some (i, d) =>
      (inr (mkUpdateResult 1 (if bool_decide (serialize s ∪ d = d) then 0 else 1)),
       set_collection c (<[i := serialize s ∪ d]> (collection c w)) w)
  end.
Proof.
  intros Hs. unfold updateOne, lookup_id. cbn [compile].
  destruct (first_match _ _) as [[i d]|]; [|done].
  cbn [update_doc]. rewrite bool_decide_eq_true_2; [done|].
  by rewrite set_lookup, Hs.
Qed.

Lemma isValid_parse (id : string) (oid : N) :
  ObjectId.parse id = Some oid → ObjectId.isValid id = true.
Proof. unfold ObjectId.isValid. by intros ->. Qed.

(** ** Status transitions *)

(** C4. For every well-formed task id, [updateTaskStatus] never fails,
    whatever the stored status. With 'DONE' it sets status, sets updatedAt
    and doneDate to the readings of the clock taken by the call and keeps
    every other field, startDate included; with 'TODO' it sets status,
    updatedAt and startDate and keeps every other field, doneDate
    included. *)
Theorem updateTaskStatus_transitions (id : string) (oid : N) (w : World) :
  ObjectId.parse id = Some oid →
  (∀ status, ∃ n w', updateTaskStatus id status w = (inr n, w'))
  ∧
  (∀ i d, lookup_id Tasks oid w = Some (i, d) →
     ∃ n d',
       updateTaskStatus id (VString "DONE") w =
         (inr n, mkWorld (<[i := d']> (tasks w)) (projects w) (next_oid w)
                         (pcre w) (clock w) (S (S (reads w))))
       ∧ d' !! "status" = Some (VString "DONE")
       ∧ d' !! "updatedAt" = Some (VDate (clock w (reads w)))
       ∧ d' !! "doneDate" = Some (VDate (clock w (S (reads w))))
       ∧ d' !! "startDate" = d !! "startDate"
       ∧ ∀ k, k ∉ ["status"; "updatedAt"; "doneDate"] → d' !! k = d !! k)
  ∧
  (∀ i d, lookup_id Tasks oid w = Some (i, d) →
     ∃ n d',
       updateTaskStatus id (VString "TODO") w =
         (inr n, mkWorld (<[i := d']> (tasks w)) (projects w) (next_oid w)
                         (pcre w) (clock w) (S (S (reads w))))
       ∧ d' !! "status" = Some (VString "TODO")
       ∧ d' !! "updatedAt" = Some (VDate (clock w (reads w)))
       ∧ d' !! "startDate" = Some (VDate (clock w (S (reads w))))
       ∧ d' !! "doneDate" = d !! "doneDate"
       ∧ ∀ k, k ∉ ["status"; "updatedAt"; "startDate"] → d' !! k = d !! k).
Proof.
  intros Hid. pose proof (isValid_parse _ _ Hid) as Hv.
  unfold updateTaskStatus. rewrite Hv. cbn [negb]. rewrite !bind_eq.
  split; [|split].
  - intros status. msimpl. rewrite Hid. msimpl.
    do 2 case_bool_decide; msimpl;
      (rewrite updateOne_set; [|by rewrite !lookup_insert_ne, ?lookup_singleton_ne]);
      unfold lookup_id; destruct (first_match _ _) as [[i d]|]; msimpl; eauto.
  - intros i d Hl. msimpl. rewrite Hid. msimpl.
    rewrite bool_decide_eq_true_2 by done. rewrite bool_decide_eq_false_2 by done.
    msimpl. rewrite updateOne_set by done.
    unfold lookup_id in *. cbn [collection tasks] in *. rewrite Hl. mreduce.
    eexists _, _. split; [reflexivity|].
    rewrite !set_lookup. repeat split; try done.
    intros k Hk. rewrite set_lookup.
    rewrite !lookup_insert_ne, ?lookup_singleton_ne; [done|..]; intros <-;
      apply Hk; set_solver.
  - intros i d Hl. msimpl. rewrite Hid. msimpl.
    rewrite bool_decide_eq_false_2 by done. rewrite bool_decide_eq_true_2 by done.
    msimpl. rewrite updateOne_set by done.
    unfold lookup_id in *. cbn [collection tasks] in *. rewrite Hl. mreduce.
    eexists _, _. split; [reflexivity|].
    rewrite !set_lookup. repeat split; try done.
    intros k Hk. rewrite set_lookup.
    rewrite !lookup_insert_ne, ?lookup_singleton_ne; [done|..]; intros <-;
      apply Hk; set_solver.
Qed.

Lemma updateTaskStatus_transitions_witness :
  ObjectId.parse T1 = Some 2%N ∧
  ∃ n w', updateTaskStatus T1 (VString "DONE") sample_world = (inr n, w').
Proof.
  split; [reflexivity|].
  apply (updateTaskStatus_transitions T1 2 sample_world). reflexivity.
Defined.

(** ** Assigning a task to a project *)

Lemma set_singleton (k : string) (v : Value) (d : Doc) :
  serialize {[ k := v ]} ∪ d = <[k := to_bson v]> d.
Proof.
  unfold serialize. by rewrite map_fmap_singleton, <- insert_union_singleton_l.
Qed.

(** C6. For well-formed ids, [assignTaskToProject] fails with NotFound
    when no project has the given id, and then the database is as it was;
    when the project exists it sets the task's projectId and returns the
    match count: 0 when no task has the id (nothing changes), 1 when one
    has, also when the task already held that projectId. *)
Theorem assignTaskToProject_spec (taskId projectId : string) (tid pid : N) (w : World) :
  ObjectId.parse taskId = Some tid →
  ObjectId.parse projectId = Some pid →
  (lookup_id Projects pid w = None →
     assignTaskToProject taskId projectId w = (inl ProjectNotFound, w)
     ∧ kind ProjectNotFound = NotFound)
  ∧
  (is_Some (lookup_id Projects pid w) →
     (lookup_id Tasks tid w = None →
        assignTaskToProject taskId projectId w = (inr 0%N, w))
     ∧
     (∀ i d, lookup_id Tasks tid w = Some (i, d) →
        assignTaskToProject taskId projectId w =
          (inr 1%N,
           mkWorld (<[i := <["projectId" := VObjectId pid]> d]> (tasks w))
                   (projects w) (next_oid w) (pcre w) (clock w) (reads w))
        ∧ (d !! "projectId" = Some (VObjectId pid) →
           assignTaskToProject taskId projectId w = (inr 1%N, w)))).
Proof.
  intros Ht Hp.
  unfold assignTaskToProject.
  rewrite (isValid_parse _ _ Ht), (isValid_parse _ _ Hp). cbn [negb].
  rewrite !bind_eq. msimpl. rewrite Ht. msimpl. rewrite Hp. msimpl.
  unfold lookup_id. cbn [collection].
  split.
  - intros ->. done.
  - intros [[j p] ->]. msimpl.
    rewrite updateOne_set by done. unfold lookup_id. cbn [collection].
    split.
    + intros ->. done.
    + intros i d Hl. rewrite Hl. mreduce. rewrite set_singleton. cbn [to_bson].
      split; [done|].
      intros Hd. rewrite insert_id by done.
      rewrite list_insert_id by (by eapply first_match_lookup).
      by destruct w.
Qed.

Lemma assignTaskToProject_spec_witness :
  ObjectId.parse T1 = Some 2%N ∧ ObjectId.parse P1 = Some 1%N ∧
  assignTaskToProject T1 P1 sample_world = (inr 1%N, sample_world).
Proof.
  split; [reflexivity|]. split; [reflexivity|].
  destruct (assignTaskToProject_spec T1 P1 2 1 sample_world eq_refl eq_refl)
    as [_ Hfound].
  destruct Hfound as [_ Hassign]; [exists (0, alpha); reflexivity|].
  apply (Hassign 0 design); reflexivity.
Defined.

(** ** Deleting a project *)

Lemma unset_singleton (k : string) (v : Value) (d : Doc) :
  d ∖ {[ k := v ]} = delete k d.
Proof.
  apply map_eq. intros j. rewrite lookup_difference.
  destruct (decide (k = j)) as [->|Hne].
  - by rewrite lookup_singleton_eq, lookup_delete_eq.
  - by rewrite lookup_singleton_ne, lookup_delete_ne.
Qed.

Lemma updateMany_unlink (pid : N) (w : World) :
  ∃ r, updateMany Tasks (FEq "projectId" (VObjectId pid))
         (UUnset {[ "projectId" := VString "" ]}) w =
       (inr r, mkWorld (unlink pid <$> tasks w) (projects w) (next_oid w)
                       (pcre w) (clock w) (reads w)).
Proof.
  unfold updateMany. cbn [compile update_doc collection set_collection].
  rewrite bool_decide_eq_true_2.
  - eexists. f_equal. f_equal. apply list_fmap_ext. intros i d _.
    unfold unlink. rewrite unset_singleton.
    destruct (matches _ d) eqn:Hm; case_decide as Hd; try done.
    + exfalso. apply Hd, matches_oid. by rewrite Hm.
    + apply matches_oid in Hd. by rewrite Hm in Hd.
  - apply Forall_forall. intros d _. rewrite unset_singleton.
    by rewrite lookup_delete_ne.
Qed.

Lemma unlink_projectId (pid : N) (d : Doc) :
  unlink pid d !! "projectId" ≠ Some (VObjectId pid).
Proof.
  unfold unlink. case_decide; [by rewrite lookup_delete_eq | done].
Qed.

(** The outcome of [deleteProject] for a well-formed id, by cases. *)
Lemma deleteProject_outcome (id : string) (pid : N) (w : World) :
  ObjectId.parse id = Some pid →
  match lookup_id Projects pid w with
  | None => deleteProject id w = (inr 0%N, w)
  | Some (i, _) =>
      deleteProject id w =
        (inr 1%N, mkWorld (unlink pid <$> tasks w) (delete i (projects w))
                          (next_oid w) (pcre w) (clock w) (reads w))
  end.
Proof.
  intros Hid. unfold deleteProject. rewrite (isValid_parse _ _ Hid). cbn [negb].
  rewrite !bind_eq. msimpl. rewrite Hid. msimpl.
  unfold deleteOne, lookup_id. cbn [compile collection].
  destruct (first_match _ _) as [[i p]|].
  - rewrite bool_decide_eq_true_2 by done.
    destruct (updateMany_unlink pid
                (set_collection Projects (delete i (projects w)) w)) as [r Hr].
    by rewrite Hr.
  - by rewrite bool_decide_eq_false_2 by (intros H; by apply H).
Qed.

(** C5. For every well-formed project id: when no project has the id,
    [deleteProject] returns 0 and leaves the database as it was, tasks
    included; when one has, it removes that project, returns 1 and clears
    projectId on every task that referenced it, so that afterwards no task
    holds the deleted identifier, a task that referenced it is the same
    document without projectId, and a task that did not is unchanged. *)
Theorem deleteProject_cascade (id : string) (pid : N) (w : World) :
  ObjectId.parse id = Some pid →
  (lookup_id Projects pid w = None → deleteProject id w = (inr 0%N, w))
  ∧
  (∀ i p, lookup_id Projects pid w = Some (i, p) →
     ∃ w',
       deleteProject id w = (inr 1%N, w')
       ∧ projects w' = delete i (projects w)
       ∧ tasks w' = unlink pid <$> tasks w
       ∧ (∀ d, d ∈ tasks w' → d !! "projectId" ≠ Some (VObjectId pid))
       ∧ (∀ j d, tasks w !! j = Some d →
            d !! "projectId" = Some (VObjectId pid) →
            tasks w' !! j = Some (delete "projectId" d))
       ∧ (∀ j d, tasks w !! j = Some d →
            d !! "projectId" ≠ Some (VObjectId pid) →
            tasks w' !! j = Some d)).
Proof.
  intros Hid. pose proof (deleteProject_outcome id pid w Hid) as Ho.
  split.
  - intros Hl. by rewrite Hl in Ho.
  - intros i p Hl. rewrite Hl in Ho. eexists. split; [exact Ho|]. cbn.
    split; [done|]. split; [done|]. split; [|split].
    + intros d (d0 & -> & _)%list_elem_of_fmap. apply unlink_projectId.
    + intros j d Hj Hd. rewrite list_lookup_fmap, Hj. cbn.
      unfold unlink. by rewrite decide_True.
    + intros j d Hj Hd. rewrite list_lookup_fmap, Hj. cbn.
      unfold unlink. by rewrite decide_False.
Qed.

Lemma deleteProject_cascade_witness :
  ObjectId.parse P1 = Some 1%N ∧
  ∃ w', deleteProject P1 sample_world = (inr 1%N, w')
        ∧ projects w' = [] ∧ tasks w' = [delete "projectId" design].
Proof.
  split; [reflexivity|].
  destruct (deleteProject_cascade P1 1 sample_world eq_refl) as [_ Hdel].
  destruct (Hdel 0 alpha eq_refl) as (w' & Hrun & Hp & Ht & _).
  exists w'. split; [exact Hrun|]. split; [exact Hp | exact Ht].
Defined.

(** ** Partial updates *)

Lemma cleaned_lookup (o : Doc) (k : string) :
  cleaned o !! k =
  match o !! k with
  | Some VUndefined => None
  | other => other
  end.
Proof.
  unfold cleaned. destruct (o !! k) as [v|] eqn:Hk.
  - destruct (decide (v = VUndefined)) as [->|Hv].
    + apply map_lookup_filter_None. right. intros x Hx. cbn. congruence.
    + transitivity (Some v); [|by destruct v].
      apply map_lookup_filter_Some. done.
  - apply map_lookup_filter_None. by left.
Qed.

(** The document a [$set] of the cleaned patch leaves: the fields the
    patch defines are written, every other field keeps its value. *)
Lemma set_cleaned_lookup (patch d : Doc) (k : string) :
  (serialize (cleaned patch) ∪ d) !! k =
  match patch !! k with
  | Some VUndefined | None => d !! k
  | Some v => Some v
  end.
Proof.
  rewrite set_lookup, cleaned_lookup. by destruct (patch !! k) as [[]|].
Qed.

Lemma updateOne_outcome (c : Collection) (oid : N) (s : Doc) (w : World) :
  match lookup_id c oid w with
  | None => updateOne c (FEq "_id" (VObjectId oid)) (USet s) w =
              (inr (mkUpdateResult 0 0), w)
  | Some (i, d) =>
      updateOne c (FEq "_id" (VObjectId oid)) (USet s) w =
        (inl MongoImmutableField, w)
      ∨ (serialize s ∪ d) !! "_id" = d !! "_id"
        ∧ ∃ r, updateOne c (FEq "_id" (VObjectId oid)) (USet s) w =
                 (inr r, set_collection c (<[i := serialize s ∪ d]> (collection c w)) w)
  end.
Proof.
  unfold updateOne, lookup_id. cbn [compile update_doc].
  destruct (first_match _ _) as [[i d]|]; [|done].
  case_bool_decide; eauto.
Qed.

(** The outcome of [updateTask] for a well-formed id, by cases. *)
Lemma updateTask_outcome (id : string) (oid : N) (patch : Doc) (w : World) :
  ObjectId.parse id = Some oid →
  match first_match (FEq "name" (field "name" patch)) (tasks w) with
  | Some _ =>
      updateTask id patch w = (inl (TaskAlreadyExists (field "name" patch)), w)
  | None =>
      match lookup_id Tasks oid w with
      | None => updateTask id patch w = (inr 0%N, w)
      | Some (i, d) =>
          updateTask id patch w = (inl MongoImmutableField, w)
          ∨ (serialize (cleaned patch) ∪ d) !! "_id" = d !! "_id"
            ∧ ∃ n, updateTask id patch w =
                   (inr n, mkWorld (<[i := serialize (cleaned patch) ∪ d]> (tasks w))
                                   (projects w) (next_oid w) (pcre w) (clock w) (reads w))
      end
  end.
Proof.
  intros Hid. unfold updateTask. rewrite (isValid_parse _ _ Hid). cbn [negb].
  rewrite !bind_eq. msimpl.
  destruct (first_match _ (tasks w)) as [[j e]|]; [done|]. msimpl.
  rewrite Hid. msimpl.
  pose proof (updateOne_outcome Tasks oid (cleaned patch) w) as Hu.
  destruct (lookup_id Tasks oid w) as [[i d]|].
  - destruct Hu as [->|[Hsame [r ->]]]; [by left|right]. split; [done | by eexists].
  - by rewrite Hu.
Qed.

Lemma updateProject_outcome (id : string) (oid : N) (patch : Doc) (w : World) :
  ObjectId.parse id = Some oid →
  match first_match (FEq "name" (field "name" patch)) (projects w) with
  | Some _ =>
      updateProject id patch w =
        (inl (ProjectAlreadyExists (field "name" patch)), w)
  | None =>
      match lookup_id Projects oid w with
      | None => updateProject id patch w = (inr 0%N, w)
      | Some (i, d) =>
          updateProject id patch w = (inl MongoImmutableField, w)
          ∨ (serialize (cleaned patch) ∪ d) !! "_id" = d !! "_id"
            ∧ ∃ n, updateProject id patch w =
                   (inr n, mkWorld (tasks w)
                                   (<[i := serialize (cleaned patch) ∪ d]> (projects w))
                                   (next_oid w) (pcre w) (clock w) (reads w))
      end
  end.
Proof.
  intros Hid. unfold updateProject. rewrite (isValid_parse _ _ Hid). cbn [negb].
  rewrite !bind_eq. msimpl.
  destruct (first_match _ (projects w)) as [[j e]|]; [done|]. msimpl.
  rewrite Hid. msimpl.
  pose proof (updateOne_outcome Projects oid (cleaned patch) w) as Hu.
  destruct (lookup_id Projects oid w) as [[i d]|].
  - destruct Hu as [->|[Hsame [r ->]]]; [by left|right]. split; [done | by eexists].
  - by rewrite Hu.
Qed.

(** C2 as stated fails: [updateTask] and [updateProject] read no clock.
    With a patch of the declared update shape, the stored updatedAt becomes
    the patch's own updatedAt (here 2000-01-01), which is no reading of the
    server clock. *)
Lemma update_stores_patch_updatedAt :
  isUpdateTaskDto rename_task_patch = true
  ∧ isUpdateProjectDto rename_project_patch = true
  ∧ (∃ w' d',
       updateTask T1 rename_task_patch sample_world = (inr 1%N, w')
       ∧ tasks w' = [d'] ∧ reads w' = reads sample_world
       ∧ d' !! "updatedAt" = Some (VDate 946684800000)
       ∧ ∀ n, d' !! "updatedAt" ≠ Some (VDate (clock sample_world n)))
  ∧ (∃ w' d',
       updateProject P1 rename_project_patch sample_world = (inr 1%N, w')
       ∧ projects w' = [d'] ∧ reads w' = reads sample_world
       ∧ d' !! "updatedAt" = Some (VDate 946684800000)
       ∧ ∀ n, d' !! "updatedAt" ≠ Some (VDate (clock sample_world n))).
Proof.
  split; [reflexivity|]. split; [reflexivity|]. split.
  - eexists _, _. split; [vm_compute; reflexivity|]. split; [reflexivity|].
    split; [reflexivity|].
    match goal with
    | |- ?x = ?v ∧ _ => assert (x = v) as -> by reflexivity
    end.
    split; [done|]. intros n [= H]. cbv [sample_world clock sample_clock] in H. lia.
  - eexists _, _. split; [vm_compute; reflexivity|]. split; [reflexivity|].
    split; [reflexivity|].
    match goal with
    | |- ?x = ?v ∧ _ => assert (x = v) as -> by reflexivity
    end.
    split; [done|]. intros n [= H]. cbv [sample_world clock sample_clock] in H. lia.
Qed.

(** The result of [updateTask] on a stored task when no task bears the
    patch's name and the patch leaves [_id] alone. *)
Lemma updateTask_modified (id : string) (oid : N) (patch : Doc) (w : World) (i : nat) (d : Doc) :
  ObjectId.parse id = Some oid →
  first_match (FEq "name" (field "name" patch)) (tasks w) = None →
  lookup_id Tasks oid w = Some (i, d) →
  (serialize (cleaned patch) ∪ d) !! "_id" = d !! "_id" →
  updateTask id patch w =
    (inr (if bool_decide (serialize (cleaned patch) ∪ d = d) then 0%N else 1%N),
     mkWorld (<[i := serialize (cleaned patch) ∪ d]> (tasks w)) (projects w)
             (next_oid w) (pcre w) (clock w) (reads w)).
Proof.
  intros Hid Hf Hl Hsame. unfold updateTask.
  rewrite (isValid_parse _ _ Hid). cbn [negb]. rewrite !bind_eq. msimpl.
  rewrite Hf. msimpl. rewrite Hid. msimpl.
  unfold updateOne, lookup_id in *. cbn [compile collection] in *.
  rewrite Hl. cbn [update_doc]. by rewrite bool_decide_eq_true_2.
Qed.

Lemma updateProject_modified (id : string) (oid : N) (patch : Doc) (w : World) (i : nat) (d : Doc) :
  ObjectId.parse id = Some oid →
  first_match (FEq "name" (field "name" patch)) (projects w) = None →
  lookup_id Projects oid w = Some (i, d) →
  (serialize (cleaned patch) ∪ d) !! "_id" = d !! "_id" →
  updateProject id patch w =
    (inr (if bool_decide (serialize (cleaned patch) ∪ d = d) then 0%N else 1%N),
     mkWorld (tasks w) (<[i := serialize (cleaned patch) ∪ d]> (projects w))
             (next_oid w) (pcre w) (clock w) (reads w)).
Proof.
  intros Hid Hf Hl Hsame. unfold updateProject.
  rewrite (isValid_parse _ _ Hid). cbn [negb]. rewrite !bind_eq. msimpl.
  rewrite Hf. msimpl. rewrite Hid. msimpl.
  unfold updateOne, lookup_id in *. cbn [compile collection] in *.
  rewrite Hl. cbn [update_doc]. by rewrite bool_decide_eq_true_2.
Qed.

(** What the update shapes demand of a patch: an [updatedAt] that is a
    date, and no [_id]. *)
Lemma isUpdateTaskDto_inv (o : Doc) :
  isUpdateTaskDto o = true →
  (∃ t, o !! "updatedAt" = Some (VDate t)) ∧ o !! "_id" = None.
Proof.
  unfold isUpdateTaskDto, omitted. rewrite !andb_true_iff, !bool_decide_eq_true.
  intros H. destruct_and!. split; [|done].
  match goal with
  | H : required is_date "updatedAt" _ = true |- _ =>
      apply required_Some in H as ([] & Hv & Hd); try done; eauto
  end.
Qed.

Lemma isUpdateProjectDto_inv (o : Doc) :
  isUpdateProjectDto o = true →
  (∃ t, o !! "updatedAt" = Some (VDate t)) ∧ o !! "_id" = None.
Proof.
  unfold isUpdateProjectDto, omitted. rewrite !andb_true_iff, !bool_decide_eq_true.
  intros H. destruct_and!. split; [|done].
  match goal with
  | H : required is_date "updatedAt" _ = true |- _ =>
      apply required_Some in H as ([] & Hv & Hd); try done; eauto
  end.
Qed.

(** A patch without [_id] leaves the identifier alone. *)
Lemma set_cleaned_id (patch d : Doc) :
  patch !! "_id" = None →
  (serialize (cleaned patch) ∪ d) !! "_id" = d !! "_id".
Proof. intros H. by rewrite set_cleaned_lookup, H. Qed.

(** C2, amended. For every [updateTask] / [updateProject] call with a
    well-formed id and a patch of the declared update shape, which
    demands an [updatedAt]: a call that fails writes nothing; when no
    stored document is selected by the patch's name the call succeeds; a
    call that succeeds reads no clock, leaves the other collection alone
    and, on the document with that id, writes exactly the fields the
    patch defines and keeps the stored value of every field the patch
    leaves out or leaves undefined. The stored updatedAt becomes the
    patch's updatedAt, the date the caller supplies. *)
Theorem update_writes_defined_fields (id : string) (oid : N) (patch : Doc) (w : World) :
  ObjectId.parse id = Some oid →
  (isUpdateTaskDto patch = true →
   (∀ e w', updateTask id patch w = (inl e, w') → w' = w)
   ∧ ((∀ x, x ∈ tasks w → ¬ matches (FEq "name" (field "name" patch)) x) →
      ∃ n w', updateTask id patch w = (inr n, w'))
   ∧ ∀ n w', updateTask id patch w = (inr n, w') →
       projects w' = projects w ∧ reads w' = reads w
       ∧ (lookup_id Tasks oid w = None → tasks w' = tasks w)
       ∧ ∀ i d, lookup_id Tasks oid w = Some (i, d) →
           ∃ d' t, tasks w' = <[i := d']> (tasks w)
                   ∧ (∀ k, d' !! k = match patch !! k with
                                     | Some VUndefined | None => d !! k
                                     | Some v => Some v
                                     end)
                   ∧ patch !! "updatedAt" = Some (VDate t)
                   ∧ d' !! "updatedAt" = Some (VDate t))
  ∧
  (isUpdateProjectDto patch = true →
   (∀ e w', updateProject id patch w = (inl e, w') → w' = w)
   ∧ ((∀ x, x ∈ projects w → ¬ matches (FEq "name" (field "name" patch)) x) →
      ∃ n w', updateProject id patch w = (inr n, w'))
   ∧ ∀ n w', updateProject id patch w = (inr n, w') →
       tasks w' = tasks w ∧ reads w' = reads w
       ∧ (lookup_id Projects oid w = None → projects w' = projects w)
       ∧ ∀ i d, lookup_id Projects oid w = Some (i, d) →
           ∃ d' t, projects w' = <[i := d']> (projects w)
                   ∧ (∀ k, d' !! k = match patch !! k with
                                     | Some VUndefined | None => d !! k
                                     | Some v => Some v
                                     end)
                   ∧ patch !! "updatedAt" = Some (VDate t)
                   ∧ d' !! "updatedAt" = Some (VDate t)).
Proof.
  intros Hid. split.
  - intros ([t Ht] & Hnoid)%isUpdateTaskDto_inv.
    pose proof (updateTask_outcome id oid patch w Hid) as Ho.
    destruct (first_match _ (tasks w)) as [[j x]|] eqn:Hf.
    { rewrite Ho. split; [by intros ?? [= _ <-]|]. split; [|by intros ??].
      intros Hno. apply first_match_Some in Hf as (Hj & Hm & _).
      destruct (Hno x); [by eapply list_elem_of_lookup_2 | done]. }
    destruct (lookup_id Tasks oid w) as [[i d]|] eqn:Hl.
    + rewrite (updateTask_modified id oid patch w i d Hid Hf Hl)
        by (by apply set_cleaned_id).
      split; [by intros ?? [=]|]. split; [eauto|].
      intros ?? [= _ <-]. cbn. split; [done|]. split; [done|]. split; [done|].
      intros i' d0 [= <- <-]. exists (serialize (cleaned patch) ∪ d), t.
      split; [done|]. split; [apply set_cleaned_lookup|]. split; [done|].
      by rewrite set_cleaned_lookup, Ht.
    + rewrite Ho. split; [by intros ?? [=]|]. split; [eauto|].
      by intros ?? [= _ <-].
  - intros ([t Ht] & Hnoid)%isUpdateProjectDto_inv.
    pose proof (updateProject_outcome id oid patch w Hid) as Ho.
    destruct (first_match _ (projects w)) as [[j x]|] eqn:Hf.
    { rewrite Ho. split; [by intros ?? [= _ <-]|]. split; [|by intros ??].
      intros Hno. apply first_match_Some in Hf as (Hj & Hm & _).
      destruct (Hno x); [by eapply list_elem_of_lookup_2 | done]. }
    destruct (lookup_id Projects oid w) as [[i d]|] eqn:Hl.
    + rewrite (updateProject_modified id oid patch w i d Hid Hf Hl)
        by (by apply set_cleaned_id).
      split; [by intros ?? [=]|]. split; [eauto|].
      intros ?? [= _ <-]. cbn. split; [done|]. split; [done|]. split; [done|].
      intros i' d0 [= <- <-]. exists (serialize (cleaned patch) ∪ d), t.
      split; [done|]. split; [apply set_cleaned_lookup|]. split; [done|].
      by rewrite set_cleaned_lookup, Ht.
    + rewrite Ho. split; [by intros ?? [=]|]. split; [eauto|].
      by intros ?? [= _ <-].
Qed.

Lemma update_writes_defined_fields_witness :
  ObjectId.parse T1 = Some 2%N
  ∧ isUpdateTaskDto rename_task_patch = true
  ∧ (∃ n w' d',
       updateTask T1 rename_task_patch sample_world = (inr n, w')
       ∧ tasks w' = [d']
       ∧ d' !! "name" = Some (VString "Design v2")
       ∧ d' !! "status" = Some (VString "TODO")
       ∧ d' !! "dueDate" = Some (VDate 1704844800000)
       ∧ d' !! "updatedAt" = Some (VDate 946684800000))
  ∧ ObjectId.parse P1 = Some 1%N
  ∧ isUpdateProjectDto rename_project_patch = true
  ∧ (∃ n w' d',
       updateProject P1 rename_project_patch sample_world = (inr n, w')
       ∧ projects w' = [d']
       ∧ d' !! "name" = Some (VString "Alpha v2")
       ∧ d' !! "endDate" = Some (VDate 1717200000000)
       ∧ d' !! "updatedAt" = Some (VDate 946684800000)).
Proof.
  split; [reflexivity|]. split; [reflexivity|]. split; [|split; [reflexivity|]].
  - destruct (update_writes_defined_fields T1 2 rename_task_patch sample_world
                eq_refl) as [Htask _].
    destruct (Htask eq_refl) as (_ & Hruns & Hwrites).
    destruct Hruns as (n & w' & Hrun).
    { intros x ->%list_elem_of_singleton Hm. by vm_compute in Hm. }
    destruct (Hwrites n w' Hrun) as (_ & _ & _ & Hdoc).
    destruct (Hdoc 0 design eq_refl) as (d' & t & Ht & Hk & Hpt & Hdt).
    exists n, w', d'. split; [exact Hrun|]. split; [exact Ht|].
    split; [exact (Hk "name")|]. split; [exact (Hk "status")|].
    split; [exact (Hk "dueDate")|].
    rewrite Hdt. rewrite <- Hpt. reflexivity.
  - split; [reflexivity|].
    destruct (update_writes_defined_fields P1 1 rename_project_patch sample_world
                eq_refl) as [_ Hproject].
    destruct (Hproject eq_refl) as (_ & Hruns & Hwrites).
    destruct Hruns as (n & w' & Hrun).
    { intros x ->%list_elem_of_singleton Hm. by vm_compute in Hm. }
    destruct (Hwrites n w' Hrun) as (_ & _ & _ & Hdoc).
    destruct (Hdoc 0 alpha eq_refl) as (d' & t & Ht & Hk & Hpt & Hdt).
    exists n, w', d'. split; [exact Hrun|]. split; [exact Ht|].
    split; [exact (Hk "name")|]. split; [exact (Hk "endDate")|].
    rewrite Hdt. rewrite <- Hpt. reflexivity.
Defined.

(** ** The duplicate-name check on update *)

Lemma first_match_exists (f : Filter) (l : list Doc) :
  (∃ d, d ∈ l ∧ matches f d) → ∃ i d, first_match f l = Some (i, d).
Proof.
  intros (d & Hd & Hm).
  destruct (first_match_elem_of f l d Hd Hm) as [[i x] H]. eauto.
Qed.

(** A query for an undefined name selects the documents that have no
    name, or a null one. *)
Lemma matches_undefined (k : string) (d : Doc) :
  matches (FEq k VUndefined) d ↔ d !! k = None ∨ d !! k = Some VNull.
Proof.
  rewrite matches_FEq. cbn. split.
  - intros [?|[? _]]; [by right | by left].
  - intros [?|?]; [by right | by left].
Qed.

(** C3. The duplicate-name check of [updateTask] and [updateProject] is
    unconditional. For every patch and every well-formed id, the
    operation looks for a stored document whose name equals [patch.name]
    and fails with Conflict, writing nothing, whenever there is one; no
    condition relates the patch to the document being updated. When the
    patch has no name field, [patch.name] is undefined, the lookup selects
    the documents without a name, and there is no Conflict when every
    stored document has a string name. *)
Theorem update_name_check_unconditional (id : string) (oid : N) (patch : Doc) (w : World) :
  ObjectId.parse id = Some oid →
  ((∃ d, d ∈ tasks w ∧ matches (FEq "name" (field "name" patch)) d) →
     updateTask id patch w = (inl (TaskAlreadyExists (field "name" patch)), w)
     ∧ kind (TaskAlreadyExists (field "name" patch)) = Conflict)
  ∧
  ((∃ d, d ∈ projects w ∧ matches (FEq "name" (field "name" patch)) d) →
     updateProject id patch w =
       (inl (ProjectAlreadyExists (field "name" patch)), w)
     ∧ kind (ProjectAlreadyExists (field "name" patch)) = Conflict)
  ∧
  (patch !! "name" = None →
     field "name" patch = VUndefined
     ∧ (∀ d, matches (FEq "name" (field "name" patch)) d ↔
             d !! "name" = None ∨ d !! "name" = Some VNull)
     ∧ ((∀ d, d ∈ tasks w → ∃ s, d !! "name" = Some (VString s)) →
        ∀ e w', updateTask id patch w = (inl e, w') → kind e ≠ Conflict)
     ∧ ((∀ d, d ∈ projects w → ∃ s, d !! "name" = Some (VString s)) →
        ∀ e w', updateProject id patch w = (inl e, w') → kind e ≠ Conflict)).
Proof.
  intros Hid. split; [|split].
  - intros Hex. apply first_match_exists in Hex as (i & d & Hf).
    pose proof (updateTask_outcome id oid patch w Hid) as Ho.
    rewrite Hf in Ho. done.
  - intros Hex. apply first_match_exists in Hex as (i & d & Hf).
    pose proof (updateProject_outcome id oid patch w Hid) as Ho.
    rewrite Hf in Ho. done.
  - intros Hn.
    assert (field "name" patch = VUndefined) as Hfield
      by (unfold field; by rewrite Hn).
    rewrite Hfield. split; [done|]. split; [apply matches_undefined|].
    split.
    + intros Hnames e w' Hrun.
      pose proof (updateTask_outcome id oid patch w Hid) as Ho.
      rewrite Hfield in Ho.
      assert (first_match (FEq "name" VUndefined) (tasks w) = None) as Hf.
      { apply first_match_None. intros d Hd Hm%matches_undefined.
        destruct (Hnames d Hd) as [s Hs]. rewrite Hs in Hm.
        by destruct Hm. }
      rewrite Hf in Ho. destruct (lookup_id Tasks oid w) as [[i d]|].
      * destruct Ho as [Ho|[_ [n Ho]]]; rewrite Ho in Hrun; by simplify_eq.
      * rewrite Ho in Hrun. by simplify_eq.
    + intros Hnames e w' Hrun.
      pose proof (updateProject_outcome id oid patch w Hid) as Ho.
      rewrite Hfield in Ho.
      assert (first_match (FEq "name" VUndefined) (projects w) = None) as Hf.
      { apply first_match_None. intros d Hd Hm%matches_undefined.
        destruct (Hnames d Hd) as [s Hs]. rewrite Hs in Hm.
        by destruct Hm. }
      rewrite Hf in Ho. destruct (lookup_id Projects oid w) as [[i d]|].
      * destruct Ho as [Ho|[_ [n Ho]]]; rewrite Ho in Hrun; by simplify_eq.
      * rewrite Ho in Hrun. by simplify_eq.
Qed.

Lemma update_name_check_unconditional_witness :
  ObjectId.parse P1 = Some 1%N ∧
  updateTask P1 design_draft sample_world =
    (inl (TaskAlreadyExists (VString "Design")), sample_world).
Proof.
  split; [reflexivity|].
  apply (update_name_check_unconditional P1 1 design_draft sample_world eq_refl).
  exists design. split; [by left | reflexivity].
Defined.

(** C10. The duplicate-name check does not leave out the document being
    updated: for every stored project and every patch whose name is the
    project's own current name, [updateProject] on that project's id fails
    with Conflict and the database, the project included, is as it was;
    the same holds for [updateTask] on a stored task. *)
Theorem update_own_name_conflicts (id : string) (oid : N) (patch : Doc) (w : World) (P : Doc) (s : string) :
  ObjectId.parse id = Some oid →
  P !! "_id" = Some (VObjectId oid) →
  P !! "name" = Some (VString s) →
  patch !! "name" = Some (VString s) →
  (P ∈ projects w →
     updateProject id patch w = (inl (ProjectAlreadyExists (VString s)), w)
     ∧ kind (ProjectAlreadyExists (VString s)) = Conflict)
  ∧
  (P ∈ tasks w →
     updateTask id patch w = (inl (TaskAlreadyExists (VString s)), w)
     ∧ kind (TaskAlreadyExists (VString s)) = Conflict).
Proof.
  intros Hid _ Hname Hpatch.
  assert (field "name" patch = VString s) as Hfield
    by (unfold field; by rewrite Hpatch).
  split; intros HP.
  - pose proof (updateProject_outcome id oid patch w Hid) as Ho.
    rewrite Hfield in Ho.
    destruct (first_match_exists (FEq "name" (VString s)) (projects w))
      as (i & d & Hf); [|by rewrite Hf in Ho].
    exists P. split; [done|]. by apply matches_name_string.
  - pose proof (updateTask_outcome id oid patch w Hid) as Ho.
    rewrite Hfield in Ho.
    destruct (first_match_exists (FEq "name" (VString s)) (tasks w))
      as (i & d & Hf); [|by rewrite Hf in Ho].
    exists P. split; [done|]. by apply matches_name_string.
Qed.

Lemma update_own_name_conflicts_witness :
  alpha ∈ projects sample_world ∧
  updateProject P1 keep_name_patch sample_world =
    (inl (ProjectAlreadyExists (VString "Alpha")), sample_world).
Proof.
  split; [by left|].
  apply (update_own_name_conflicts P1 1 keep_name_patch sample_world alpha
           "Alpha" eq_refl eq_refl eq_refl eq_refl).
  by left.
Defined.

(** ** Timestamps and identifiers at creation *)

Lemma createTask_outcome (taskData : Doc) (w : World) :
  match first_match (FEq "name" (field "name" taskData)) (tasks w) with
  | Some _ =>
      createTask taskData w = (inl (TaskAlreadyExists (field "name" taskData)), w)
  | None =>
      createTask taskData w =
        insertOne Tasks
          (<["updatedAt" := VDate (clock w (S (reads w)))]>
             (<["createdAt" := VDate (clock w (reads w))]>
                (<["status" := VString "TODO"]> taskData)))
          (mkWorld (tasks w) (projects w) (next_oid w) (pcre w) (clock w) (S (S (reads w))))
  end.
Proof.
  unfold createTask. rewrite bind_eq. msimpl.
  by destruct (first_match _ _) as [[i d]|].
Qed.

Lemma createProject_outcome (projectData : Doc) (w : World) :
  match first_match (FEq "name" (field "name" projectData)) (projects w) with
  | Some _ =>
      createProject projectData w =
        (inl (ProjectAlreadyExists (field "name" projectData)), w)
  | None =>
      createProject projectData w =
        insertOne Projects
          (<["updatedAt" := VDate (clock w (S (reads w)))]>
             (<["createdAt" := VDate (clock w (reads w))]> projectData))
          (mkWorld (tasks w) (projects w) (next_oid w) (pcre w) (clock w) (S (S (reads w))))
  end.
Proof.
  unfold createProject. rewrite bind_eq. msimpl.
  by destruct (first_match _ _) as [[i d]|].
Qed.

(** C8 as stated fails: the service evaluates [new Date()] once for
    createdAt and once more for updatedAt, and the clock may advance in
    between. Here it advances by a millisecond at each reading. *)
Lemma create_timestamps_differ :
  isCreateTaskDto implement_draft = true
  ∧ isCreateProjectDto beta_draft = true
  ∧
  (∃ id w' d,
     createTask implement_draft sample_world = (inr id, w')
     ∧ tasks w' = tasks sample_world ++ [d]
     ∧ d !! "createdAt" = Some (VDate 1704067200000)
     ∧ d !! "updatedAt" = Some (VDate 1704067200001)
     ∧ d !! "createdAt" ≠ d !! "updatedAt")
  ∧
  (∃ id w' d,
     createProject beta_draft sample_world = (inr id, w')
     ∧ projects w' = projects sample_world ++ [d]
     ∧ d !! "createdAt" = Some (VDate 1704067200000)
     ∧ d !! "updatedAt" = Some (VDate 1704067200001)
     ∧ d !! "createdAt" ≠ d !! "updatedAt").
Proof.
  split; [reflexivity|]. split; [reflexivity|].
  split; eexists _, _, _; (split; [vm_compute; reflexivity|]);
    (split; [reflexivity|]); (split; [reflexivity|]); (split; [reflexivity|]);
    vm_compute; discriminate.
Qed.

(** C8, amended. For every successful [createTask] and [createProject]
    call, the document inserted carries as createdAt and as updatedAt the
    two successive readings of the clock the call takes, createdAt first
    (so the two are equal when the clock gives the same reading twice),
    and its identifier is the one returned and differs from the identifier
    of every document already in the collection. *)
Theorem create_timestamps_and_identifier (draft : Doc) (w w' : World) (id : Value) :
  (createTask draft w = (inr id, w') →
     ∃ d, tasks w' = tasks w ++ [d]
          ∧ d !! "createdAt" = Some (VDate (clock w (reads w)))
          ∧ d !! "updatedAt" = Some (VDate (clock w (S (reads w))))
          ∧ (clock w (reads w) = clock w (S (reads w)) →
             d !! "createdAt" = d !! "updatedAt")
          ∧ d !! "_id" = Some id
          ∧ ∀ d0, d0 ∈ tasks w → d0 !! "_id" ≠ Some id)
  ∧
  (createProject draft w = (inr id, w') →
     ∃ d, projects w' = projects w ++ [d]
          ∧ d !! "createdAt" = Some (VDate (clock w (reads w)))
          ∧ d !! "updatedAt" = Some (VDate (clock w (S (reads w))))
          ∧ (clock w (reads w) = clock w (S (reads w)) →
             d !! "createdAt" = d !! "updatedAt")
          ∧ d !! "_id" = Some id
          ∧ ∀ d0, d0 ∈ projects w → d0 !! "_id" ≠ Some id).
Proof.
  split.
  - pose proof (createTask_outcome draft w) as Ho.
    destruct (first_match _ _) as [[i x]|]; rewrite Ho; [done|].
    intros (Hc & Hb & Hfresh & _)%insertOne_success.
    cbn [collection tasks] in Hc, Hfresh.
    eexists. split; [exact Hc|].
    unfold serialize. rewrite !lookup_fmap, lookup_insert_eq.
    rewrite !(lookup_insert_ne _ "_id") by done.
    rewrite (lookup_insert_ne _ "updatedAt" "createdAt") by done.
    rewrite !lookup_insert_eq. cbn. rewrite Hb.
    repeat split; try done. by intros ->.
  - pose proof (createProject_outcome draft w) as Ho.
    destruct (first_match _ _) as [[i x]|]; rewrite Ho; [done|].
    intros (Hc & Hb & Hfresh & _)%insertOne_success.
    cbn [collection projects] in Hc, Hfresh.
    eexists. split; [exact Hc|].
    unfold serialize. rewrite !lookup_fmap, lookup_insert_eq.
    rewrite !(lookup_insert_ne _ "_id") by done.
    rewrite (lookup_insert_ne _ "updatedAt" "createdAt") by done.
    rewrite !lookup_insert_eq. cbn. rewrite Hb.
    repeat split; try done. by intros ->.
Qed.

Lemma create_timestamps_and_identifier_witness :
  ∃ w' d,
    createTask implement_draft sample_world = (inr (VObjectId 3), w')
    ∧ tasks w' = tasks sample_world ++ [d]
    ∧ d !! "_id" = Some (VObjectId 3)
    ∧ ∀ d0, d0 ∈ tasks sample_world → d0 !! "_id" ≠ Some (VObjectId 3).
Proof.
  assert (∃ w', createTask implement_draft sample_world = (inr (VObjectId 3), w'))
    as [w' Hrun] by (eexists; vm_compute; reflexivity).
  destruct (create_timestamps_and_identifier implement_draft sample_world w'
              (VObjectId 3)) as [Htask _].
  destruct (Htask Hrun) as (d & Ht & _ & _ & _ & Hid & Hfresh).
  exists w', d. split; [exact Hrun|]. split; [exact Ht|].
  split; [exact Hid | exact Hfresh].
Defined.

(** ** Searching tasks by name *)

Lemma is_prefix_spec (p s : string) :
  is_prefix p s = true ↔ ∃ post, s = p +:+ post.
Proof.
  revert s. induction p as [|a p IH]; intros s; cbn.
  - split; [eauto|done].
  - destruct s as [|b s]; cbn.
    + split; [done | by intros [? ?]].
    + rewrite andb_true_iff, Ascii.eqb_eq, IH. split.
      * intros [-> [post ->]]. eauto.
      * intros [post [= -> ->]]. eauto.
Qed.

Lemma is_substring_spec (p s : string) :
  is_substring p s = true ↔ ∃ pre post, s = pre +:+ p +:+ post.
Proof.
  induction s as [|b s IH]; cbn; rewrite orb_true_iff, is_prefix_spec.
  - split.
    + intros [[post ->]|?]; [|done]. by exists EmptyString, post.
    + intros ([|??] & post & H); [left; by exists post | done].
  - rewrite IH. split.
    + intros [[post ->]|(pre & post & ->)].
      * by exists EmptyString, post.
      * by exists (String b pre), post.
    + intros ([|a pre] & post & H).
      * left. by exists post.
      * right. injection H as -> ->. eauto.
Qed.

(** The decision procedure computes the relation of the specification. *)
Lemma contains_cib_spec (q name : string) :
  contains_cib q name = true ↔ contains_ci q name.
Proof. apply is_substring_spec. Qed.

#[global] Instance contains_ci_dec (q name : string) : Decision (contains_ci q name).
Proof.
  destruct (contains_cib q name) eqn:Hb.
  - left. by apply contains_cib_spec.
  - right. rewrite <- contains_cib_spec. by rewrite Hb.
Defined.

#[global] Instance name_contains_dec (q : string) (d : Doc) : Decision (name_contains q d).
Proof.
  unfold name_contains. destruct (d !! "name") as [[| |n| |]|];
    try (right; by intros (? & ? & _)).
  destruct (decide (contains_ci q n)) as [H|H].
  - left. eauto.
  - right. intros (? & [= <-] & ?). done.
Defined.

(** A character that is no metacharacter is none of those the fragment
    reads in a way of its own. *)
Lemma is_meta_false (c : ascii) :
  is_meta c = false →
  Ascii.eqb c "\" = false ∧ Ascii.eqb c "." = false
  ∧ Ascii.eqb c "^" = false ∧ Ascii.eqb c "$" = false.
Proof.
  unfold is_meta, metacharacters. cbn [existsb].
  rewrite !orb_false_iff. tauto.
Qed.

(** The atoms of a pattern without metacharacters: its characters. *)
Lemma regex_compile_literal (p : string) :
  literal p = true → ∃ r, regex_compile p = Some r ∧
    ∀ b s, match_here r b s = is_prefix (lower p) (lower s).
Proof.
  induction p as [|c p IH]; cbn [literal].
  - intros _. exists []. split; [done|]. by intros b [].
  - rewrite andb_true_iff, negb_true_iff. intros [Hc Hp].
    destruct (IH Hp) as (r & Hr & Hm).
    destruct (is_meta_false c Hc) as (H1 & H2 & H3 & H4).
    cbn [regex_compile]. rewrite H1, H2, H3, H4, Hc, Hr. cbn.
    exists (Lit c :: r). split; [done|].
    intros b [|x s]; cbn; [done|]. by rewrite Hm.
Qed.

Lemma search_from_literal (r : list Atom) (p : string) (b : bool) (s : string) :
  (∀ b s, match_here r b s = is_prefix p (lower s)) →
  search_from r b s = is_substring p (lower s).
Proof.
  intros Hr. revert b. induction s as [|x s IH]; intros b; cbn; rewrite Hr; [done|].
  by rewrite IH.
Qed.

Lemma regex_search_literal (r : list Atom) (p s : string) :
  (∀ b s, match_here r b s = is_prefix p (lower s)) →
  regex_search r s = is_substring p (lower s).
Proof. apply search_from_literal. Qed.

(** C9 as stated fails: the query string is handed to the store as a
    regular expression. The query "." selects task "Design", whose name
    has no dot in it. *)
Lemma searchTasks_dot_selects_undotted_name :
  searchTasks "." sample_world = (inr [design], sample_world)
  ∧ design !! "name" = Some (VString "Design")
  ∧ ¬ contains_ci "." "Design".
Proof.
  split; [vm_compute; reflexivity|]. split; [reflexivity|].
  rewrite <- contains_cib_spec. vm_compute. discriminate.
Qed.

#[global] Instance name_starts_with_dec (q : string) (d : Doc) : Decision (name_starts_with q d).
Proof.
  unfold name_starts_with. destruct (d !! "name") as [[| |n| |]|];
    try (right; by intros (? & ? & _)).
  destruct (is_prefix (lower q) (lower n)) eqn:Hb.
  - left. exists n. split; [done|]. by apply is_prefix_spec.
  - right. intros (? & [= <-] & H). apply is_prefix_spec in H. congruence.
Defined.

(** [find] with a pattern of the fragment does not ask the server's
    library. *)
Lemma find_regex (c : Collection) (k p : string) (r : list Atom) (w : World) :
  regex_compile p = Some r →
  find c (FRegexI k p) w =
    (inr (filter (λ d : Doc, matches (FRegexI k p) d) (collection c w)), w).
Proof.
  intros Hc. unfold find. cbn [compile]. rewrite Hc.
  by rewrite bool_decide_eq_true_2 by eauto.
Qed.

(** A pattern that starts with [^] matches at the start of the text
    only. *)
Lemma search_from_bol (r : list Atom) (s : string) :
  search_from (Bol :: r) false s = false.
Proof. induction s as [|x s IH]; cbn; [done|]. exact IH. Qed.

Lemma regex_search_bol (r : list Atom) (s : string) :
  regex_search (Bol :: r) s = match_here r true s.
Proof.
  unfold regex_search. destruct s as [|x s]; cbn.
  - by rewrite orb_false_r.
  - by rewrite search_from_bol, orb_false_r.
Qed.

(** The pattern [.] matches where a character other than a line feed
    starts. *)
Lemma search_from_dot (b : bool) (s : string) :
  search_from [AnyChar] b s = has_char_but_lf s.
Proof.
  revert b. induction s as [|x s IH]; intros b; cbn; [done|].
  by rewrite IH, andb_true_r.
Qed.

(** C9, amended. For every query string without regular-expression
    metacharacters, [searchTasks] returns exactly the tasks whose name
    contains the query as a substring, letter case ignored, all of them,
    in store order. A query with metacharacters is read as a pattern:
    the query [^] followed by such a string returns exactly the tasks
    whose name starts with the string, letter case ignored, and the query
    [.] returns exactly the tasks whose name has a character other than a
    line feed. The database is not changed. *)
Theorem searchTasks_reads_pattern (name : string) (w : World) :
  literal name = true →
  searchTasks name w = (inr (filter (name_contains name) (tasks w)), w)
  ∧ searchTasks (String "^" name) w =
      (inr (filter (name_starts_with name) (tasks w)), w)
  ∧ searchTasks "." w = (inr (filter (λ d : Doc, name_has_char d) (tasks w)), w).
Proof.
  intros Hlit. destruct (regex_compile_literal name Hlit) as (r & Hc & Hr).
  unfold searchTasks. split; [|split].
  - rewrite (find_regex Tasks "name" name r w Hc). cbn [collection].
    f_equal. f_equal. apply list_filter_iff. intros d.
    unfold matches, name_contains. rewrite Hc.
    destruct (d !! "name") as [[| |n| |]|];
      try (split; [done | by intros (? & ? & _)]).
    rewrite (regex_search_literal r (lower name) n Hr).
    change (is_substring (lower name) (lower n)) with (contains_cib name n).
    rewrite Is_true_true, contains_cib_spec. split.
    + eauto.
    + by intros (? & [= <-] & ?).
  - assert (regex_compile (String "^" name) = Some (Bol :: r)) as Hc'
      by (cbn; by rewrite Hc).
    rewrite (find_regex Tasks "name" _ _ w Hc'). cbn [collection].
    f_equal. f_equal. apply list_filter_iff. intros d.
    unfold matches, name_starts_with, starts_with_ci. rewrite Hc'.
    destruct (d !! "name") as [[| |n| |]|];
      try (split; [done | by intros (? & ? & _)]).
    rewrite regex_search_bol, Hr, Is_true_true, is_prefix_spec. split.
    + eauto.
    + by intros (? & [= <-] & ?).
  - rewrite (find_regex Tasks "name" "." [AnyChar] w eq_refl). cbn [collection].
    f_equal. f_equal. apply list_filter_iff. intros d.
    unfold matches, name_has_char, regex_search.
    change (regex_compile ".") with (Some [AnyChar]). cbn match.
    destruct (d !! "name") as [[| |n| |]|]; try done.
    by rewrite search_from_dot.
Qed.

Lemma searchTasks_reads_pattern_witness :
  literal "SIG" = true
  ∧ searchTasks "SIG" sample_world = (inr [design], sample_world)
  ∧ searchTasks "^SIG" sample_world = (inr [], sample_world)
  ∧ searchTasks "." sample_world = (inr [design], sample_world).
Proof.
  split; [reflexivity|].
  exact (searchTasks_reads_pattern "SIG" sample_world eq_refl).
Defined.

(** ** Uniqueness of names *)

Lemma elem_of_names (v : Value) (l : list Doc) :
  v ∈ names l ↔ ∃ d, d ∈ l ∧ d !! "name" = Some v.
Proof. apply list_elem_of_omap. Qed.

Lemma names_app (l1 l2 : list Doc) : names (l1 ++ l2) = names l1 ++ names l2.
Proof. apply omap_app. Qed.

Lemma names_cons (d : Doc) (l : list Doc) :
  names (d :: l) = option_list (d !! "name") ++ names l.
Proof. unfold names. cbn. by destruct (d !! "name"). Qed.

Lemma names_fmap (f : Doc → Doc) (l : list Doc) :
  (∀ d, f d !! "name" = d !! "name") → names (f <$> l) = names l.
Proof.
  intros Hf. induction l as [|d l IH]; [done|].
  rewrite fmap_cons, !names_cons, Hf. by f_equal.
Qed.

(** Replacing a document by one with the same name. *)
Lemma names_insert_same (l : list Doc) (i : nat) (d d' : Doc) :
  l !! i = Some d → d' !! "name" = d !! "name" →
  names (<[i := d']> l) = names l.
Proof.
  intros Hi Hn. rewrite insert_take_drop by (by eapply lookup_lt_Some).
  transitivity (names (take i l ++ d :: drop (S i) l));
    [|by rewrite take_drop_middle].
  by rewrite !names_app, !names_cons, Hn.
Qed.

(** Replacing a document by one with a name nobody holds. *)
Lemma NoDup_names_insert_new (l : list Doc) (i : nat) (d d' : Doc) (v : Value) :
  l !! i = Some d → d' !! "name" = Some v →
  (∀ x, x ∈ l → x !! "name" ≠ Some v) →
  NoDup (names l) → NoDup (names (<[i := d']> l)).
Proof.
  intros Hi Hn Hv Hl. rewrite insert_take_drop by (by eapply lookup_lt_Some).
  rewrite <- (take_drop_middle l i d Hi) in Hl. revert Hl.
  rewrite !names_app, !names_cons, Hn. cbn.
  assert (∀ k, k ⊆ l → v ∉ names k) as Hnot.
  { intros k Hk (x & Hx & Hxn)%elem_of_names. by apply (Hv x); [apply Hk|]. }
  assert (take i l ⊆ l) as Ht by apply subseteq_take.
  assert (drop (S i) l ⊆ l) as Hd by apply subseteq_drop.
  rewrite !NoDup_app. intros (H1 & H2 & _ & _ & H3). split; [done|]. split.
  - intros y Hy [->|Hy2]%elem_of_cons.
    + by apply (Hnot _ Ht).
    + apply (H2 y Hy). apply elem_of_app. by right.
  - apply NoDup_cons. split; [by apply Hnot | done].
Qed.

Lemma NoDup_names_delete (l : list Doc) (i : nat) :
  NoDup (names l) → NoDup (names (delete i l)).
Proof.
  destruct (l !! i) as [d|] eqn:Hi.
  - intros Hl. rewrite delete_take_drop.
    rewrite <- (take_drop_middle l i d Hi) in Hl. revert Hl.
    rewrite !names_app, !names_cons, !NoDup_app.
    intros (H1 & H2 & _ & _ & H3). split; [done|]. split; [|done].
    intros y Hy Hy2. apply (H2 y Hy). rewrite elem_of_app. by right.
  - rewrite delete_take_drop, (take_ge l i), (drop_ge l (S i)).
    + by rewrite app_nil_r.
    + apply lookup_ge_None in Hi. lia.
    + by apply lookup_ge_None.
Qed.

Lemma NoDup_names_snoc (l : list Doc) (d : Doc) :
  (∀ v, d !! "name" = Some v → ∀ x, x ∈ l → x !! "name" ≠ Some v) →
  NoDup (names l) → NoDup (names (l ++ [d])).
Proof.
  intros Hd Hl. rewrite names_app, names_cons. cbn. rewrite app_nil_r.
  destruct (d !! "name") as [v|] eqn:Hn; cbn; [|by rewrite app_nil_r].
  apply NoDup_app. split; [done|]. split; [|apply NoDup_singleton].
  intros y (x & Hx & Hxn)%elem_of_names ->%list_elem_of_singleton.
  by apply (Hd v eq_refl x).
Qed.

Lemma isValid_parse_None (id : string) :
  ObjectId.parse id = None → ObjectId.isValid id = false.
Proof. unfold ObjectId.isValid. by intros ->. Qed.

(** A [$set] on the document with a given id that mentions neither
    [_id] nor [name] goes through, keeps the names of both collections
    and rewrites at most one document, in place. *)
Lemma updateOne_set_keeps (c : Collection) (oid : N) (s : Doc) (w : World) :
  s !! "_id" = None → s !! "name" = None →
  ∃ r w', updateOne c (FEq "_id" (VObjectId oid)) (USet s) w = (inr r, w')
          ∧ names (tasks w') = names (tasks w)
          ∧ names (projects w') = names (projects w)
          ∧ next_oid w' = next_oid w
          ∧ rewritten (tasks w) (tasks w')
          ∧ rewritten (projects w) (projects w').
Proof.
  intros Hid Hname. rewrite updateOne_set by done. unfold lookup_id.
  destruct (first_match _ _) as [[i d]|] eqn:Hf.
  - eexists _, _. split; [done|].
    apply first_match_lookup in Hf.
    assert ((serialize s ∪ d) !! "name" = d !! "name") as Hn
      by (by rewrite set_lookup, Hname).
    assert ((serialize s ∪ d) !! "_id" = d !! "_id") as Hi
      by (by rewrite set_lookup, Hid).
    destruct c; cbn [set_collection collection tasks projects next_oid] in *.
    + rewrite (names_insert_same _ i d) by done.
      repeat split; try done;
        first [by apply (rewritten_insert _ i d) | apply rewritten_same].
    + rewrite (names_insert_same _ i d) by done.
      repeat split; try done;
        first [by apply (rewritten_insert _ i d) | apply rewritten_same].
  - eexists _, _. split; [done|].
    repeat split; try done; apply rewritten_same.
Qed.

Lemma updateTaskStatus_keeps (id : string) (status : Value) (w : World) :
  names (tasks (updateTaskStatus id status w).2) = names (tasks w)
  ∧ names (projects (updateTaskStatus id status w).2) = names (projects w)
  ∧ next_oid (updateTaskStatus id status w).2 = next_oid w
  ∧ rewritten (tasks w) (tasks (updateTaskStatus id status w).2)
  ∧ rewritten (projects w) (projects (updateTaskStatus id status w).2).
Proof.
  unfold updateTaskStatus.
  destruct (ObjectId.parse id) as [oid|] eqn:Hid.
  - rewrite (isValid_parse _ _ Hid). cbn [negb]. rewrite !bind_eq. msimpl.
    rewrite Hid. msimpl.
    do 2 case_bool_decide; msimpl;
      match goal with
      | |- context [updateOne ?c (FEq "_id" (VObjectId ?o)) (USet ?s) ?w0] =>
          destruct (updateOne_set_keeps c o s w0) as (r & w' & -> & Hrest);
          [by rewrite !lookup_insert_ne, ?lookup_singleton_ne
          |by rewrite !lookup_insert_ne, ?lookup_singleton_ne
          |exact Hrest]
      end.
  - rewrite (isValid_parse_None _ Hid). cbn.
    repeat split; try done; apply rewritten_same.
Qed.

Lemma assignTaskToProject_keeps (taskId projectId : string) (w : World) :
  names (tasks (assignTaskToProject taskId projectId w).2) = names (tasks w)
  ∧ names (projects (assignTaskToProject taskId projectId w).2) =
    names (projects w)
  ∧ next_oid (assignTaskToProject taskId projectId w).2 = next_oid w
  ∧ rewritten (tasks w) (tasks (assignTaskToProject taskId projectId w).2)
  ∧ rewritten (projects w) (projects (assignTaskToProject taskId projectId w).2).
Proof.
  assert (∀ w', w' = w →
            names (tasks w') = names (tasks w)
            ∧ names (projects w') = names (projects w)
            ∧ next_oid w' = next_oid w
            ∧ rewritten (tasks w) (tasks w')
            ∧ rewritten (projects w) (projects w')) as Hsame.
  { intros ? ->. repeat split; try done; apply rewritten_same. }
  unfold assignTaskToProject.
  destruct (ObjectId.parse projectId) as [pid|] eqn:Hp;
    [rewrite (isValid_parse _ _ Hp)
    |rewrite (isValid_parse_None _ Hp); by apply Hsame].
  destruct (ObjectId.parse taskId) as [tid|] eqn:Ht;
    [rewrite (isValid_parse _ _ Ht)
    |rewrite (isValid_parse_None _ Ht); by apply Hsame].
  cbn [negb]. rewrite !bind_eq. msimpl. rewrite Ht. msimpl. rewrite Hp. msimpl.
  destruct (first_match _ (projects w)) as [[j p]|]; [|by apply Hsame]. msimpl.
  destruct (updateOne_set_keeps Tasks tid {[ "projectId" := VObjectId pid ]} w)
    as (r & w' & -> & Hrest); done.
Qed.

Lemma deleteTask_names (id : string) (w : World) :
  (NoDup (names (tasks w)) → NoDup (names (tasks (deleteTask id w).2)))
  ∧ projects (deleteTask id w).2 = projects w.
Proof.
  unfold deleteTask.
  destruct (ObjectId.parse id) as [oid|] eqn:Hid;
    [rewrite (isValid_parse _ _ Hid) | by rewrite (isValid_parse_None _ Hid)].
  cbn [negb]. rewrite !bind_eq. msimpl. rewrite Hid. msimpl.
  unfold deleteOne. cbn [compile collection].
  destruct (first_match _ _) as [[i d]|]; [|done]. cbn.
  split; [apply NoDup_names_delete | done].
Qed.

Lemma unlink_name (pid : N) (d : Doc) : unlink pid d !! "name" = d !! "name".
Proof. unfold unlink. case_decide; [by rewrite lookup_delete_ne | done]. Qed.

Lemma deleteProject_names (id : string) (w : World) :
  names (tasks (deleteProject id w).2) = names (tasks w)
  ∧ (NoDup (names (projects w)) →
     NoDup (names (projects (deleteProject id w).2))).
Proof.
  destruct (ObjectId.parse id) as [pid|] eqn:Hid.
  - pose proof (deleteProject_outcome id pid w Hid) as Ho.
    destruct (lookup_id Projects pid w) as [[i p]|]; rewrite Ho; cbn; [|done].
    split; [apply names_fmap, unlink_name | apply NoDup_names_delete].
  - unfold deleteProject. by rewrite (isValid_parse_None _ Hid).
Qed.

(** What an insert does to the names of the two collections. *)
Lemma insertOne_names (c : Collection) (doc : Doc) (w : World) :
  (∀ v, doc !! "name" = Some v →
        ∀ x, x ∈ collection c w → x !! "name" ≠ Some (to_bson v)) →
  NoDup (names (collection c w)) →
  NoDup (names (collection c (insertOne c doc w).2))
  ∧ ∀ c', c' ≠ c → collection c' (insertOne c doc w).2 = collection c' w.
Proof.
  intros Hnew Hl. destruct (insertOne c doc w) as [[e|id] w'] eqn:Hrun; cbn.
  - apply insertOne_failure in Hrun as [Ht Hp].
    assert (∀ c0, collection c0 w' = collection c0 w) as Hsame
      by (by intros []).
    split; [by rewrite Hsame | by intros ??].
  - apply insertOne_success in Hrun as (Hc & _ & _ & Hother & _).
    split; [|done]. rewrite Hc. apply NoDup_names_snoc; [|done].
    intros v. unfold serialize.
    rewrite lookup_fmap, lookup_insert_ne by done.
    destruct (doc !! "name") as [v0|] eqn:Hn; [|done].
    intros [= <-]. by apply Hnew.
Qed.

(** No stored document bears the name a failed lookup asked for. *)
Lemma first_match_name_None (v : Value) (l : list Doc) :
  first_match (FEq "name" v) l = None →
  ∀ x, x ∈ l → x !! "name" ≠ Some (to_bson v).
Proof.
  intros Hf x Hx Hn. eapply first_match_None; [done..|].
  apply matches_FEq. by left.
Qed.

Lemma createTask_names (taskData : Doc) (w : World) :
  unique_names w → unique_names (createTask taskData w).2.
Proof.
  intros [Ht Hp]. pose proof (createTask_outcome taskData w) as Ho.
  destruct (first_match _ _) as [[i x]|] eqn:Hf; rewrite Ho; [done|].
  match goal with
  | |- context [insertOne Tasks ?doc ?w0] =>
      destruct (insertOne_names Tasks doc w0) as [Hn Hother]
  end.
  - rewrite !lookup_insert_ne by done. intros v Hv.
    apply first_match_name_None. unfold field in Hf. by rewrite Hv in Hf.
  - done.
  - split; [exact Hn|]. specialize (Hother Projects).
    cbn [collection] in Hother. by rewrite Hother.
Qed.

Lemma createProject_names (projectData : Doc) (w : World) :
  unique_names w → unique_names (createProject projectData w).2.
Proof.
  intros [Ht Hp]. pose proof (createProject_outcome projectData w) as Ho.
  destruct (first_match _ _) as [[i x]|] eqn:Hf; rewrite Ho; [done|].
  match goal with
  | |- context [insertOne Projects ?doc ?w0] =>
      destruct (insertOne_names Projects doc w0) as [Hn Hother]
  end.
  - rewrite !lookup_insert_ne by done. intros v Hv.
    apply first_match_name_None. unfold field in Hf. by rewrite Hv in Hf.
  - done.
  - split; [|exact Hn]. specialize (Hother Tasks).
    cbn [collection] in Hother. by rewrite Hother.
Qed.

(** Writing the cleaned patch on one document of a collection in which
    nobody bears the patch's name. *)
Lemma NoDup_names_patch (patch : Doc) (l : list Doc) (i : nat) (d : Doc) :
  first_match (FEq "name" (field "name" patch)) l = None →
  l !! i = Some d →
  NoDup (names l) →
  NoDup (names (<[i := serialize (cleaned patch) ∪ d]> l)).
Proof.
  intros Hf Hi Hl.
  pose proof (set_cleaned_lookup patch d "name") as Hn.
  destruct (patch !! "name") as [v|] eqn:Hp.
  - destruct (decide (v = VUndefined)) as [->|Hv].
    + by rewrite (names_insert_same l i d).
    + assert ((serialize (cleaned patch) ∪ d) !! "name" = Some v) as Hn'
        by (by destruct v).
      apply (NoDup_names_insert_new l i d _ v); [done..| |done].
      unfold field in Hf. rewrite Hp in Hf. cbn in Hf.
      replace v with (to_bson v) by (by destruct v).
      by apply first_match_name_None.
  - by rewrite (names_insert_same l i d).
Qed.

Lemma updateTask_names (id : string) (patch : Doc) (w : World) :
  unique_names w → unique_names (updateTask id patch w).2.
Proof.
  intros [Ht Hp].
  destruct (ObjectId.parse id) as [oid|] eqn:Hid.
  - pose proof (updateTask_outcome id oid patch w Hid) as Ho.
    destruct (first_match _ (tasks w)) as [[j x]|] eqn:Hf; [by rewrite Ho|].
    destruct (lookup_id Tasks oid w) as [[i d]|] eqn:Hl; [|by rewrite Ho].
    destruct Ho as [->|[_ [n ->]]]; [done|].
    split; [|done]. cbn. apply NoDup_names_patch; [done| |done].
    by eapply first_match_lookup.
  - unfold updateTask. by rewrite (isValid_parse_None _ Hid).
Qed.

Lemma updateProject_names (id : string) (patch : Doc) (w : World) :
  unique_names w → unique_names (updateProject id patch w).2.
Proof.
  intros [Ht Hp].
  destruct (ObjectId.parse id) as [oid|] eqn:Hid.
  - pose proof (updateProject_outcome id oid patch w Hid) as Ho.
    destruct (first_match _ (projects w)) as [[j x]|] eqn:Hf; [by rewrite Ho|].
    destruct (lookup_id Projects oid w) as [[i d]|] eqn:Hl; [|by rewrite Ho].
    destruct Ho as [->|[_ [n ->]]]; [done|].
    split; [done|]. cbn. apply NoDup_names_patch; [done| |done].
    by eapply first_match_lookup.
  - unfold updateProject. by rewrite (isValid_parse_None _ Hid).
Qed.

Lemma filter_none {A} (P : A → Prop) `{∀ x, Decision (P x)} (l : list A) :
  (∀ x, x ∈ l → ¬ P x) → filter P l = [].
Proof.
  induction l as [|a l IH]; [done|]. intros Hl.
  rewrite filter_cons_False by (apply Hl; by left).
  apply IH. intros x Hx. apply Hl. by right.
Qed.

(** A second create with the name of a first, successful one. *)
Lemma second_create_conflicts (c : Collection) (s : string) (doc : Doc)
    (w w' : World) (id : Value) :
  first_match (FEq "name" (VString s)) (collection c w) = None →
  doc !! "name" = Some (VString s) →
  insertOne c doc w = (inr id, w') →
  is_Some (first_match (FEq "name" (VString s)) (collection c w'))
  ∧ length (filter (λ x : Doc, x !! "name" = Some (VString s)) (collection c w')) = 1.
Proof.
  intros Hf Hn (Hc & _ & _ & _)%insertOne_success. rewrite Hc.
  assert (serialize (<["_id" := id]> doc) !! "name" = Some (VString s)) as Hs.
  { unfold serialize. by rewrite lookup_fmap, lookup_insert_ne, Hn. }
  split.
  - apply (first_match_elem_of _ _ (serialize (<["_id" := id]> doc))).
    + apply elem_of_app. right. by left.
    + by apply matches_name_string.
  - rewrite filter_app, filter_cons_True, filter_nil by done.
    rewrite filter_none; [done|]. intros x Hx Hxn.
    eapply first_match_None; [done..|]. by apply matches_name_string.
Qed.

(** With distinct names, one stored document bears a name that a stored
    document bears. *)
Lemma one_of_a_name (l : list Doc) (v : Value) (x : Doc) :
  NoDup (names l) → x ∈ l → x !! "name" = Some v →
  length (filter (λ y : Doc, y !! "name" = Some v) l) = 1.
Proof.
  induction l as [|a l IH]; intros Hnd Hx Hn; [by apply elem_of_nil in Hx|].
  rewrite names_cons in Hnd.
  destruct (decide (a !! "name" = Some v)) as [Ha|Ha].
  - rewrite filter_cons_True by done. rewrite Ha in Hnd.
    apply NoDup_cons in Hnd as [Hnot _].
    rewrite filter_none; [done|]. intros y Hy Hyn.
    apply Hnot, elem_of_names. eauto.
  - rewrite filter_cons_False by done.
    apply elem_of_cons in Hx as [->|Hx]; [done|]. apply IH; [|done..].
    destruct (a !! "name"); [by apply NoDup_cons in Hnd as [_ ?] | done].
Qed.

(** C7. Uniqueness of names is kept by every repository call made in
    sequence: from a database whose task names are pairwise distinct and
    whose project names are pairwise distinct, each of [createTask],
    [createProject], [updateTask], [updateProject], [updateTaskStatus],
    [assignTaskToProject], [deleteTask] and [deleteProject] leaves such a
    database, whether it returns or fails. In particular, of two creates
    with the same name made in a row, the first returns when no stored
    entity bears the name (and fails with Conflict otherwise), the second
    fails with Conflict and writes nothing, and after either exactly one
    stored entity bears the name. *)
Theorem unique_names_preserved (op : Op) (w : World) (draft draft' : Doc) (s : string) :
  unique_names w →
  unique_names (exec op w)
  ∧
  (draft !! "name" = Some (VString s) →
   draft' !! "name" = Some (VString s) →
   (∀ id w', createTask draft w = (inr id, w') →
      createTask draft' w' = (inl (TaskAlreadyExists (VString s)), w')
      ∧ kind (TaskAlreadyExists (VString s)) = Conflict
      ∧ length (filter (λ x : Doc, x !! "name" = Some (VString s)) (tasks w')) = 1)
   ∧
   (∀ id w', createProject draft w = (inr id, w') →
      createProject draft' w' = (inl (ProjectAlreadyExists (VString s)), w')
      ∧ kind (ProjectAlreadyExists (VString s)) = Conflict
      ∧ length (filter (λ x : Doc, x !! "name" = Some (VString s)) (projects w')) = 1)
   ∧
   (draft !! "_id" = None →
    (oid_fresh Tasks w →
       ((∀ x, x ∈ tasks w → x !! "name" ≠ Some (VString s)) →
        ∃ id w', createTask draft w = (inr id, w'))
       ∧ createTask draft' (exec (CreateTask draft) w) =
           (inl (TaskAlreadyExists (VString s)), exec (CreateTask draft) w)
       ∧ length (filter (λ x : Doc, x !! "name" = Some (VString s))
                   (tasks (exec (CreateTask draft) w))) = 1)
    ∧
    (oid_fresh Projects w →
       ((∀ x, x ∈ projects w → x !! "name" ≠ Some (VString s)) →
        ∃ id w', createProject draft w = (inr id, w'))
       ∧ createProject draft' (exec (CreateProject draft) w) =
           (inl (ProjectAlreadyExists (VString s)), exec (CreateProject draft) w)
       ∧ length (filter (λ x : Doc, x !! "name" = Some (VString s))
                   (projects (exec (CreateProject draft) w))) = 1))).
Proof.
  intros Hw. split.
  - destruct op; cbn [exec].
    + by apply createTask_names.
    + by apply updateTask_names.
    + destruct Hw as [Ht Hp]. destruct (deleteTask_names id w) as [Hd Hq].
      split; [by apply Hd | by rewrite Hq].
    + destruct Hw as [Ht Hp].
      destruct (updateTaskStatus_keeps id status w) as (Hd & Hq & _).
      split; [by rewrite Hd | by rewrite Hq].
    + destruct Hw as [Ht Hp].
      destruct (assignTaskToProject_keeps taskId projectId w) as (Hd & Hq & _).
      split; [by rewrite Hd | by rewrite Hq].
    + by apply createProject_names.
    + by apply updateProject_names.
    + destruct Hw as [Ht Hp]. destruct (deleteProject_names id w) as [Hd Hq].
      split; [by rewrite Hd | by apply Hq].
  - intros Hn Hn'.
    assert (field "name" draft = VString s) as Hf
      by (unfold field; by rewrite Hn).
    assert (field "name" draft' = VString s) as Hf'
      by (unfold field; by rewrite Hn').
    assert (∀ id w', createTask draft w = (inr id, w') →
      createTask draft' w' = (inl (TaskAlreadyExists (VString s)), w')
      ∧ kind (TaskAlreadyExists (VString s)) = Conflict
      ∧ length (filter (λ x : Doc, x !! "name" = Some (VString s)) (tasks w')) = 1)
      as Htask.
    { intros id w' Hrun.
      pose proof (createTask_outcome draft w) as Ho. rewrite Hf in Ho.
      destruct (first_match _ (tasks w)) as [[i x]|] eqn:Hfirst;
        rewrite Ho in Hrun; [done|].
      apply (second_create_conflicts Tasks s) in Hrun;
        [|done|by rewrite !lookup_insert_ne].
      destruct Hrun as [[[j y] Hsome] Hone]. cbn [collection] in Hsome, Hone.
      pose proof (createTask_outcome draft' w') as Ho'. rewrite Hf' in Ho'.
      rewrite Hsome in Ho'. done. }
    assert (∀ id w', createProject draft w = (inr id, w') →
      createProject draft' w' = (inl (ProjectAlreadyExists (VString s)), w')
      ∧ kind (ProjectAlreadyExists (VString s)) = Conflict
      ∧ length (filter (λ x : Doc, x !! "name" = Some (VString s)) (projects w')) = 1)
      as Hproject.
    { intros id w' Hrun.
      pose proof (createProject_outcome draft w) as Ho. rewrite Hf in Ho.
      destruct (first_match _ (projects w)) as [[i x]|] eqn:Hfirst;
        rewrite Ho in Hrun; [done|].
      apply (second_create_conflicts Projects s) in Hrun;
        [|done|by rewrite !lookup_insert_ne].
      destruct Hrun as [[[j y] Hsome] Hone]. cbn [collection] in Hsome, Hone.
      pose proof (createProject_outcome draft' w') as Ho'. rewrite Hf' in Ho'.
      rewrite Hsome in Ho'. done. }
    split; [exact Htask|]. split; [exact Hproject|].
    intros Hnoid. split; intros Hfresh.
    + pose proof (createTask_outcome draft w) as Ho. rewrite Hf in Ho.
      cbn [exec].
      destruct (first_match _ (tasks w)) as [[i x]|] eqn:Hfirst.
      * apply first_match_Some in Hfirst as (Hi & Hm%matches_name_string & _).
        apply list_elem_of_lookup_2 in Hi.
        split; [intros Hno; by destruct (Hno x Hi)|].
        rewrite Ho. cbn [snd].
        pose proof (createTask_outcome draft' w) as Ho'. rewrite Hf' in Ho'.
        destruct (first_match_exists (FEq "name" (VString s)) (tasks w))
          as (j & y & Hy).
        { exists x. split; [done|]. by apply matches_name_string. }
        rewrite Hy in Ho'. split; [exact Ho'|].
        destruct Hw as [Hnd _]. by apply (one_of_a_name _ _ x).
      * rewrite insertOne_generated in Ho;
          [|by rewrite !lookup_insert_ne|exact Hfresh].
        split; [eauto|]. destruct (Htask _ _ Ho) as (Hsecond & _ & Hone).
        rewrite Ho. cbn [snd]. done.
    + pose proof (createProject_outcome draft w) as Ho. rewrite Hf in Ho.
      cbn [exec].
      destruct (first_match _ (projects w)) as [[i x]|] eqn:Hfirst.
      * apply first_match_Some in Hfirst as (Hi & Hm%matches_name_string & _).
        apply list_elem_of_lookup_2 in Hi.
        split; [intros Hno; by destruct (Hno x Hi)|].
        rewrite Ho. cbn [snd].
        pose proof (createProject_outcome draft' w) as Ho'. rewrite Hf' in Ho'.
        destruct (first_match_exists (FEq "name" (VString s)) (projects w))
          as (j & y & Hy).
        { exists x. split; [done|]. by apply matches_name_string. }
        rewrite Hy in Ho'. split; [exact Ho'|].
        destruct Hw as [_ Hnd]. by apply (one_of_a_name _ _ x).
      * rewrite insertOne_generated in Ho;
          [|by rewrite !lookup_insert_ne|exact Hfresh].
        split; [eauto|]. destruct (Hproject _ _ Ho) as (Hsecond & _ & Hone).
        rewrite Ho. cbn [snd]. done.
Qed.

Lemma unique_names_preserved_witness :
  unique_names sample_world
  ∧ unique_names (exec (CreateTask implement_draft) sample_world)
  ∧ ∃ id w',
      createTask implement_draft sample_world = (inr id, w')
      ∧ createTask implement_draft w' =
          (inl (TaskAlreadyExists (VString "Implement")), w')
      ∧ length (filter (λ x : Doc, x !! "name" = Some (VString "Implement"))
                  (tasks w')) = 1.
Proof.
  assert (unique_names sample_world) as Hw
    by (split; apply NoDup_singleton).
  split; [exact Hw|].
  destruct (unique_names_preserved (CreateTask implement_draft) sample_world
              implement_draft implement_draft "Implement" Hw) as [Hkeeps Htwo].
  split; [exact Hkeeps|].
  destruct (Htwo eq_refl eq_refl) as (Hsecond & _ & Hfirst).
  destruct (Hfirst eq_refl) as [Htask _].
  destruct Htask as (Hruns & _).
  { apply Forall_singleton. discriminate. }
  destruct Hruns as (id & w' & Hrun).
  { intros x ->%list_elem_of_singleton. discriminate. }
  destruct (Hsecond id w' Hrun) as (Hconflict & _ & Hone).
  exists id, w'. split; [exact Hrun|]. split; [exact Hconflict | exact Hone].
Defined.

(** ** The identifier generator stays fresh *)

Lemma oids_below_fresh (c : Collection) (w : World) :
  oids_below w → oid_fresh c w.
Proof.
  intros Hw. apply Forall_forall. intros d Hd Hid.
  specialize (Hw c d (next_oid w) Hd Hid). lia.
Qed.

Lemma keeps_ids_below (w w' : World) :
  keeps_ids w w' → oids_below w → oids_below w'.
Proof.
  intros [Hn Hk] Hw c d' n Hd' Hid. rewrite Hn.
  destruct (Hk c d' Hd') as (d & Hd & Heq).
  apply (Hw c d n Hd). congruence.
Qed.

Lemma keeps_ids_refl (w w' : World) :
  next_oid w' = next_oid w → tasks w' = tasks w → projects w' = projects w →
  keeps_ids w w'.
Proof.
  intros Hn Ht Hp. split; [done|]. intros c d' Hd'. exists d'.
  split; [|done]. by destruct c; cbn in *; congruence.
Qed.

Lemma rewritten_ids (l l' : list Doc) (d' : Doc) :
  rewritten l l' → d' ∈ l' → ∃ d, d ∈ l ∧ d !! "_id" = d' !! "_id".
Proof.
  intros [l0|l0 i d x Hi Hx|l0 i|l0 f Hf] Hd'.
  - eauto.
  - apply list_elem_of_lookup in Hd' as [j Hj].
    apply list_lookup_insert_Some in Hj as [(-> & <- & _)|[_ Hj]].
    + exists d. split; [by eapply list_elem_of_lookup_2 | done].
    + exists d'. split; [by eapply list_elem_of_lookup_2 | done].
  - exists d'. split; [by eapply list_elem_of_delete_inv | done].
  - apply list_elem_of_fmap in Hd' as (d & -> & Hd). eauto.
Qed.

Lemma keeps_ids_rewritten (w w' : World) :
  next_oid w' = next_oid w →
  rewritten (tasks w) (tasks w') → rewritten (projects w) (projects w') →
  keeps_ids w w'.
Proof.
  intros Hn Ht Hp. split; [done|]. intros [] d' Hd'; cbn in *;
    by eapply rewritten_ids.
Qed.

Lemma updateTask_keeps_ids (id : string) (patch : Doc) (w : World) :
  keeps_ids w (updateTask id patch w).2.
Proof.
  destruct (ObjectId.parse id) as [oid|] eqn:Hid.
  - pose proof (updateTask_outcome id oid patch w Hid) as Ho.
    destruct (first_match _ (tasks w)) as [[j x]|];
      [rewrite Ho; by apply keeps_ids_refl|].
    destruct (lookup_id Tasks oid w) as [[i d]|] eqn:Hl;
      [|rewrite Ho; by apply keeps_ids_refl].
    destruct Ho as [->|[Hsame [n ->]]]; [by apply keeps_ids_refl|].
    apply keeps_ids_rewritten; cbn; [done| |apply rewritten_same].
    apply (rewritten_insert _ i d); [by eapply first_match_lookup | done].
  - unfold updateTask. rewrite (isValid_parse_None _ Hid).
    by apply keeps_ids_refl.
Qed.

Lemma updateProject_keeps_ids (id : string) (patch : Doc) (w : World) :
  keeps_ids w (updateProject id patch w).2.
Proof.
  destruct (ObjectId.parse id) as [oid|] eqn:Hid.
  - pose proof (updateProject_outcome id oid patch w Hid) as Ho.
    destruct (first_match _ (projects w)) as [[j x]|];
      [rewrite Ho; by apply keeps_ids_refl|].
    destruct (lookup_id Projects oid w) as [[i d]|] eqn:Hl;
      [|rewrite Ho; by apply keeps_ids_refl].
    destruct Ho as [->|[Hsame [n ->]]]; [by apply keeps_ids_refl|].
    apply keeps_ids_rewritten; cbn; [done|apply rewritten_same|].
    apply (rewritten_insert _ i d); [by eapply first_match_lookup | done].
  - unfold updateProject. rewrite (isValid_parse_None _ Hid).
    by apply keeps_ids_refl.
Qed.

Lemma deleteTask_keeps_ids (id : string) (w : World) :
  keeps_ids w (deleteTask id w).2.
Proof.
  unfold deleteTask.
  destruct (ObjectId.parse id) as [oid|] eqn:Hid;
    [rewrite (isValid_parse _ _ Hid)
    |rewrite (isValid_parse_None _ Hid); by apply keeps_ids_refl].
  cbn [negb]. rewrite !bind_eq. msimpl. rewrite Hid. msimpl.
  unfold deleteOne. cbn [compile collection].
  destruct (first_match _ _) as [[i d]|]; [|by apply keeps_ids_refl].
  apply keeps_ids_rewritten; cbn; [done|apply rewritten_delete|apply rewritten_same].
Qed.

Lemma unlink_id (pid : N) (d : Doc) : unlink pid d !! "_id" = d !! "_id".
Proof. unfold unlink. case_decide; [by rewrite lookup_delete_ne | done]. Qed.

Lemma deleteProject_keeps_ids (id : string) (w : World) :
  keeps_ids w (deleteProject id w).2.
Proof.
  destruct (ObjectId.parse id) as [pid|] eqn:Hid.
  - pose proof (deleteProject_outcome id pid w Hid) as Ho.
    destruct (lookup_id Projects pid w) as [[i p]|]; rewrite Ho;
      [|by apply keeps_ids_refl].
    apply keeps_ids_rewritten; cbn;
      [done|apply rewritten_fmap, unlink_id|apply rewritten_delete].
  - unfold deleteProject. rewrite (isValid_parse_None _ Hid).
    by apply keeps_ids_refl.
Qed.

(** Inserting a document without an [_id] uses up the next identifier. *)
Lemma insertOne_below (c : Collection) (doc : Doc) (w : World) :
  doc !! "_id" = None → oids_below w → oids_below (insertOne c doc w).2.
Proof.
  intros Hid Hw. unfold insertOne, field. rewrite Hid. msimpl_all.
  assert (∀ c' d n, d ∈ collection c' w → d !! "_id" = Some (VObjectId n) →
                    (n < N.succ (next_oid w))%N) as Hw'.
  { intros c' d n Hd Hn. specialize (Hw c' d n Hd Hn). lia. }
  case_bool_decide; intros c' d n Hd Hn; cbn in *.
  - apply (Hw' c' d n); [by destruct c'|done].
  - assert (d ∈ collection c' w
            ∨ d = serialize (<["_id" := VObjectId (next_oid w)]> doc))
      as [Hd'|Hnew].
    { destruct c, c'; cbn in Hd; try (by left);
        (apply elem_of_app in Hd as [?|Hd];
         [by left | right; by apply list_elem_of_singleton in Hd]). }
    + replace (next_oid _) with (N.succ (next_oid w)) by (by destruct c).
      by apply (Hw' c' d n).
    + replace (next_oid _) with (N.succ (next_oid w)) by (by destruct c).
      subst d. unfold serialize in Hn.
      rewrite lookup_fmap, lookup_insert_eq in Hn. injection Hn as <-. lia.
Qed.

Lemma oids_below_reads (w : World) (r : nat) :
  oids_below w →
  oids_below (mkWorld (tasks w) (projects w) (next_oid w) (pcre w) (clock w) r).
Proof. intros Hw c d n Hd Hn. apply (Hw c d n); [by destruct c | done]. Qed.

(** Every identifier in use stays below the generator under every call
    whose create draft has no [_id]; so the freshness [createTask] and
    [createProject] rely on holds in every database the calls build from
    an empty one. *)
Lemma oids_below_exec (op : Op) (w : World) :
  creates_without_id op → oids_below w → oids_below (exec op w).
Proof.
  intros Hop Hw. destruct op; cbn [exec creates_without_id] in *.
  - pose proof (createTask_outcome taskData w) as Ho.
    destruct (first_match _ _) as [[i x]|]; rewrite Ho; [done|].
    apply insertOne_below; [by rewrite !lookup_insert_ne|].
    by apply oids_below_reads.
  - eapply keeps_ids_below; [apply updateTask_keeps_ids | done].
  - eapply keeps_ids_below; [apply deleteTask_keeps_ids | done].
  - destruct (updateTaskStatus_keeps id status w) as (_ & _ & Hn & Ht & Hp).
    eapply keeps_ids_below; [by apply keeps_ids_rewritten | done].
  - destruct (assignTaskToProject_keeps taskId projectId w)
      as (_ & _ & Hn & Ht & Hp).
    eapply keeps_ids_below; [by apply keeps_ids_rewritten | done].
  - pose proof (createProject_outcome projectData w) as Ho.
    destruct (first_match _ _) as [[i x]|]; rewrite Ho; [done|].
    apply insertOne_below; [by rewrite !lookup_insert_ne|].
    by apply oids_below_reads.
  - eapply keeps_ids_below; [apply updateProject_keeps_ids | done].
  - eapply keeps_ids_below; [apply deleteProject_keeps_ids | done].
Qed.

Lemma oids_below_empty (n : N) (e : string → option (string → bool)) (k : nat → Z) (r : nat) :
  oids_below (mkWorld [] [] n e k r).
Proof. intros [] d m Hd; by apply elem_of_nil in Hd. Qed.

(** ** The scenario of the specification *)

(** Project "Alpha" gets the first identifier and task "Design" the
    second, with status TODO; the assignment matches one task; marking it
    done modifies one task and sets doneDate; deleting the project deletes
    one document, and afterwards the task has no projectId. *)
Example scenario_runs :
  ∃ w' t,
    scenario empty_world =
      (inr (VObjectId 1, VObjectId 2, 1%N, 1%N, 1%N), w')
    ∧ projects w' = [] ∧ tasks w' = [t]
    ∧ t !! "_id" = Some (VObjectId 2)
    ∧ t !! "status" = Some (VString "DONE")
    ∧ t !! "doneDate" = Some (VDate 1704067200005)
    ∧ t !! "projectId" = None.
Proof.
  eexists _, _. split; [vm_compute; reflexivity|].
  repeat split; reflexivity.
Qed.

(** * The rest of the code: properties *)

(** ** Malformed identifiers *)

(** X1. A malformed identifier is refused before the database is touched:
    for an [id] that is not 24 hexadecimal digits, [updateTask],
    [deleteTask] and [updateTaskStatus] throw 'Invalid Task ID',
    [updateProject] and [deleteProject] throw 'Invalid Project ID', and
    the database is left as it was.  [assignTaskToProject] checks the
    project id first: a malformed project id gives 'Invalid Project ID'
    whatever the task id, a malformed task id gives 'Invalid Task ID'
    only when the project id is well formed. *)
Theorem malformed_id_rejected (id other : string) (patch : Doc) (status : Value) (w : World) :
  ObjectId.isValid id = false →
  updateTask id patch w = (inl InvalidTaskID, w)
  ∧ deleteTask id w = (inl InvalidTaskID, w)
  ∧ updateTaskStatus id status w = (inl InvalidTaskID, w)
  ∧ updateProject id patch w = (inl InvalidProjectID, w)
  ∧ deleteProject id w = (inl InvalidProjectID, w)
  ∧ assignTaskToProject other id w = (inl InvalidProjectID, w)
  ∧ (ObjectId.isValid other = true →
     assignTaskToProject id other w = (inl InvalidTaskID, w))
  ∧ kind InvalidTaskID = InvalidArgument
  ∧ kind InvalidProjectID = InvalidArgument.
Proof.
  intros Hid.
  unfold updateTask, deleteTask, updateTaskStatus, updateProject, deleteProject,
    assignTaskToProject.
  rewrite Hid. cbn [negb]. repeat split; try done.
  intros ->. done.
Qed.

(** ** Listing tasks by status *)

Lemma filter_all_matches (l : list Doc) :
  filter (λ d : Doc, matches FAll d) l = l.
Proof.
  induction l as [|d l IH]; [done|].
  rewrite filter_cons_True by done. by rewrite IH.
Qed.

Lemma find_all (c : Collection) (w : World) :
  find c FAll w = (inr (collection c w), w).
Proof. unfold find. cbn [compile]. by rewrite filter_all_matches. Qed.

Lemma find_eq_string (c : Collection) (k s : string) (w : World) :
  find c (FEq k (VString s)) w =
  (inr (filter (λ d : Doc, d !! k = Some (VString s)) (collection c w)), w).
Proof.
  unfold find. cbn [compile]. f_equal. f_equal.
  apply list_filter_iff. intros d. apply matches_name_string.
Qed.

Lemma find_eq_oid (c : Collection) (k : string) (n : N) (w : World) :
  find c (FEq k (VObjectId n)) w =
  (inr (filter (λ d : Doc, d !! k = Some (VObjectId n)) (collection c w)), w).
Proof.
  unfold find. cbn [compile]. f_equal. f_equal.
  apply list_filter_iff. intros d. apply matches_oid.
Qed.

Lemma getTasks_nonempty (s : string) (w : World) :
  s ≠ "" →
  getTasks (Some s) w =
    (inr (filter (λ d : Doc, d !! "status" = Some (VString s)) (tasks w)), w).
Proof. destruct s; [done|]. intros _. apply (find_eq_string Tasks). Qed.

(** X2. [getTasks] without a status, or with the empty string, returns
    every task; with a non-empty status [s] it returns, in stored order,
    exactly the tasks whose [status] is the string [s].  It never changes
    the database. *)
Theorem getTasks_by_status (w : World) :
  getTasks None w = (inr (tasks w), w)
  ∧ getTasks (Some "") w = (inr (tasks w), w)
  ∧ ∀ s, s ≠ "" →
      getTasks (Some s) w =
        (inr (filter (λ d : Doc, d !! "status" = Some (VString s)) (tasks w)), w).
Proof.
  split; [apply (find_all Tasks)|]. split; [apply (find_all Tasks)|].
  intros s Hs. by apply getTasks_nonempty.
Qed.

(** ** Tasks of a project, by project name *)

Lemma matches_regex_literal (name : string) (d : Doc) :
  literal name = true →
  matches (FRegexI "name" name) d ↔ name_contains name d.
Proof.
  intros Hlit. destruct (regex_compile_literal name Hlit) as (r & Hc & Hr).
  unfold matches, name_contains. rewrite Hc.
  destruct (d !! "name") as [[| |n| |]|];
    try (split; [done | by intros (? & ? & _)]).
  rewrite (regex_search_literal r (lower name) n Hr).
  change (is_substring (lower name) (lower n)) with (contains_cib name n).
  rewrite Is_true_true, contains_cib_spec. split.
  - eauto.
  - by intros (? & [= <-] & ?).
Qed.

Lemma literal_supported (name : string) (w : World) :
  literal name = true →
  compile w (FRegexI "name" name) = Some (FRegexI "name" name).
Proof.
  intros Hlit. destruct (regex_compile_literal name Hlit) as (r & Hc & _).
  cbn. rewrite Hc. by rewrite bool_decide_eq_true_2.
Qed.

(** X3. [filterTasksByProject] with a name free of regular-expression
    metacharacters: when no project's name contains the name (letter case
    ignored) it throws 'Project not found' and changes nothing; otherwise
    it takes the FIRST stored project whose name contains it, not
    necessarily one whose name equals it, and returns the tasks whose
    [projectId] is that project's [_id]. *)
Theorem filterTasksByProject_first_match (projectName : string) (w : World) :
  literal projectName = true →
  ((∀ p, p ∈ projects w → ¬ name_contains projectName p) →
     filterTasksByProject projectName w = (inl ProjectNotFound, w)
     ∧ kind ProjectNotFound = NotFound)
  ∧
  (∀ i p pid,
     projects w !! i = Some p →
     name_contains projectName p →
     (∀ j q, projects w !! j = Some q → j < i → ¬ name_contains projectName q) →
     p !! "_id" = Some (VObjectId pid) →
     filterTasksByProject projectName w =
       (inr (filter (λ t : Doc, t !! "projectId" = Some (VObjectId pid)) (tasks w)),
        w)).
Proof.
  intros Hlit. unfold filterTasksByProject. rewrite bind_eq.
  unfold findOne. rewrite (literal_supported _ w Hlit). cbn [collection].
  split.
  - intros Hnone.
    assert (first_match (FRegexI "name" projectName) (projects w) = None) as ->.
    { apply first_match_None. intros p Hp Hm.
      apply (Hnone p Hp). by apply matches_regex_literal. }
    done.
  - intros i p pid Hi Hp Hfirst Hid.
    assert (first_match (FRegexI "name" projectName) (projects w) = Some (i, p))
      as ->.
    { apply first_match_Some. split; [done|]. split.
      - by apply matches_regex_literal.
      - intros j q Hj Hlt Hm. apply (Hfirst j q Hj Hlt).
        by apply matches_regex_literal. }
    cbn [fmap option_fmap option_map snd]. unfold field. rewrite Hid. cbn [default from_option id].
    apply (find_eq_oid Tasks).
Qed.

Lemma filterTasksByProject_first_match_witness :
  literal "" = true ∧
  filterTasksByProject "" sample_world = (inr [design], sample_world).
Proof.
  split; [reflexivity|].
  destruct (filterTasksByProject_first_match "" sample_world eq_refl)
    as [_ Hfound].
  apply (Hfound 0 alpha 1%N);
    [reflexivity | exists "Alpha"; split; [reflexivity | by exists "", "alpha"]
    | intros j q _ Hj; lia | reflexivity].
Defined.

Lemma malformed_id_rejected_witness :
  ObjectId.isValid "42" = false ∧
  deleteProject "42" sample_world = (inl InvalidProjectID, sample_world).
Proof.
  split; [reflexivity|].
  apply (malformed_id_rejected "42" P1 rename_task_patch VNull sample_world).
  reflexivity.
Defined.

(** ** A status that is neither 'DONE' nor 'TODO' *)

(** X4. [updateTaskStatus] with a status that is neither 'DONE' nor
    'TODO' is not refused: for a well-formed id it reads the clock once,
    and on the task with that id it stores the status as given and sets
    [updatedAt] to the reading, leaving every other field, [startDate]
    and [doneDate] included, as it was; with no such task it returns 0. *)
Theorem updateTaskStatus_other_value (id : string) (oid : N) (status : Value) (w : World) :
  ObjectId.parse id = Some oid →
  status ≠ VString "DONE" → status ≠ VString "TODO" →
  (lookup_id Tasks oid w = None →
     updateTaskStatus id status w =
       (inr 0%N, mkWorld (tasks w) (projects w) (next_oid w) (pcre w) (clock w)
                         (S (reads w))))
  ∧
  (∀ i d, lookup_id Tasks oid w = Some (i, d) →
     ∃ n d',
       updateTaskStatus id status w =
         (inr n, mkWorld (<[i := d']> (tasks w)) (projects w) (next_oid w)
                         (pcre w) (clock w) (S (reads w)))
       ∧ d' !! "status" = Some (to_bson status)
       ∧ d' !! "updatedAt" = Some (VDate (clock w (reads w)))
       ∧ ∀ k, k ∉ ["status"; "updatedAt"] → d' !! k = d !! k).
Proof.
  intros Hid Hdone Htodo. pose proof (isValid_parse _ _ Hid) as Hv.
  unfold updateTaskStatus. rewrite Hv. cbn [negb]. rewrite !bind_eq.
  msimpl. rewrite Hid. msimpl.
  rewrite !bool_decide_eq_false_2 by done. msimpl.
  rewrite updateOne_set by done.
  unfold lookup_id in *. cbn [collection tasks] in *.
  split.
  - intros ->. done.
  - intros i d ->. mreduce. eexists _, _. split; [reflexivity|].
    rewrite !set_lookup, lookup_insert_ne, lookup_singleton_eq, lookup_insert_eq
      by done.
    repeat split; try done.
    intros k Hk. rewrite set_lookup.
    rewrite lookup_insert_ne, lookup_singleton_ne; [done|..]; intros <-;
      apply Hk; set_solver.
Qed.

Lemma updateTaskStatus_other_value_witness :
  ObjectId.parse T1 = Some 2%N ∧
  ∃ n d',
    updateTaskStatus T1 VUndefined sample_world =
      (inr n, mkWorld [d'] [alpha] 3 sample_pcre sample_clock 1)
    ∧ d' !! "status" = Some VNull.
Proof.
  split; [reflexivity|].
  destruct (updateTaskStatus_other_value T1 2 VUndefined sample_world eq_refl)
    as [_ Hfound]; [done..|].
  destruct (Hfound 0 design eq_refl) as (n & d' & Hrun & Hs & _).
  exists n, d'. split; [exact Hrun | exact Hs].
Defined.

(** ** Identifiers *)

Lemma elem_of_ids (v : Value) (l : list Doc) :
  v ∈ ids l ↔ ∃ d, d ∈ l ∧ d !! "_id" = Some v.
Proof. apply list_elem_of_omap. Qed.

Lemma ids_app (l1 l2 : list Doc) : ids (l1 ++ l2) = ids l1 ++ ids l2.
Proof. apply omap_app. Qed.

Lemma ids_cons (d : Doc) (l : list Doc) :
  ids (d :: l) = option_list (d !! "_id") ++ ids l.
Proof. unfold ids. cbn. by destruct (d !! "_id"). Qed.

Lemma ids_fmap (f : Doc → Doc) (l : list Doc) :
  (∀ d, f d !! "_id" = d !! "_id") → ids (f <$> l) = ids l.
Proof.
  intros Hf. induction l as [|d l IH]; [done|].
  rewrite fmap_cons, !ids_cons, Hf. by f_equal.
Qed.

Lemma NoDup_ids_delete (l : list Doc) (i : nat) :
  NoDup (ids l) → NoDup (ids (delete i l)).
Proof.
  destruct (l !! i) as [d|] eqn:Hi.
  - intros Hl. rewrite delete_take_drop.
    rewrite <- (take_drop_middle l i d Hi) in Hl. revert Hl.
    rewrite !ids_app, !ids_cons, !NoDup_app.
    intros (H1 & H2 & _ & _ & H3). split; [done|]. split; [|done].
    intros y Hy Hy2. apply (H2 y Hy). rewrite elem_of_app. by right.
  - rewrite delete_take_drop, (take_ge l i), (drop_ge l (S i)).
    + by rewrite app_nil_r.
    + apply lookup_ge_None in Hi. lia.
    + by apply lookup_ge_None.
Qed.

(** The rewritings of a collection keep its identifiers distinct. *)
Lemma NoDup_ids_rewritten (l l' : list Doc) :
  rewritten l l' → NoDup (ids l) → NoDup (ids l').
Proof.
  intros [l0|l0 i d x Hi Hx|l0 i|l0 f Hf]; [done| | |].
  - rewrite insert_take_drop by (by eapply lookup_lt_Some).
    rewrite <- (take_drop_middle l0 i d Hi) at 1.
    by rewrite !ids_app, !ids_cons, Hx.
  - apply NoDup_ids_delete.
  - by rewrite ids_fmap.
Qed.

Lemma filter_every {A} (P : A → Prop) `{∀ x, Decision (P x)} (l : list A) :
  (∀ x, x ∈ l → P x) → filter P l = l.
Proof.
  induction l as [|a l IH]; [done|]. intros Hl.
  rewrite filter_cons_True by (apply Hl; by left).
  f_equal. apply IH. intros x Hx. apply Hl. by right.
Qed.

(** With distinct identifiers, removing the first document that has an
    identifier removes every document that has it. *)
Lemma delete_first_by_id (l : list Doc) (oid : N) (i : nat) (d : Doc) :
  NoDup (ids l) →
  first_match (FEq "_id" (VObjectId oid)) l = Some (i, d) →
  delete i l = filter (λ x : Doc, x !! "_id" ≠ Some (VObjectId oid)) l.
Proof.
  intros Hl (Hi & Hd%matches_oid & Hfirst)%first_match_Some.
  rewrite delete_take_drop.
  rewrite <- (take_drop_middle l i d Hi) in Hl.
  rewrite <- (take_drop_middle l i d Hi) at 3.
  rewrite filter_app, filter_cons_False by (intros Hne; by apply Hne).
  revert Hl. rewrite ids_app, ids_cons, Hd. cbn.
  intros (_ & _ & (Hnot & _)%NoDup_cons)%NoDup_app.
  f_equal; symmetry; apply filter_every; intros x Hx.
  - apply list_elem_of_lookup in Hx as [j Hj].
    apply lookup_take_Some in Hj as [Hj Hlt].
    intros Hm. apply (Hfirst j x Hj Hlt). by apply matches_oid.
  - intros Hm. apply Hnot, elem_of_ids. eauto.
Qed.

Lemma filter_by_id_absent (l : list Doc) (oid : N) :
  first_match (FEq "_id" (VObjectId oid)) l = None →
  filter (λ x : Doc, x !! "_id" ≠ Some (VObjectId oid)) l = l.
Proof.
  intros Hf. apply filter_every. intros x Hx Hm.
  eapply first_match_None; [done..|]. by apply matches_oid.
Qed.

Lemma world_eta (w : World) :
  mkWorld (tasks w) (projects w) (next_oid w) (pcre w) (clock w) (reads w) = w.
Proof. by destruct w. Qed.

Lemma deleteTask_outcome (id : string) (oid : N) (w : World) :
  ObjectId.parse id = Some oid →
  match lookup_id Tasks oid w with
  | None => deleteTask id w = (inr 0%N, w)
  | Some (i, _) =>
      deleteTask id w =
        (inr 1%N, mkWorld (delete i (tasks w)) (projects w) (next_oid w)
                          (pcre w) (clock w) (reads w))
  end.
Proof.
  intros Hid. unfold deleteTask. rewrite (isValid_parse _ _ Hid). cbn [negb].
  rewrite !bind_eq. msimpl. rewrite Hid. msimpl.
  unfold deleteOne, lookup_id. cbn [compile collection].
  by destruct (first_match _ _) as [[i d]|].
Qed.

(** X5. When the stored tasks have distinct identifiers, [deleteTask]
    with a well-formed id leaves exactly the tasks with another [_id], in
    their order, and nothing else changes; it returns 1 when a task had
    the id and 0 when none had. *)
Theorem deleteTask_removes (id : string) (oid : N) (w : World) :
  ObjectId.parse id = Some oid →
  NoDup (ids (tasks w)) →
  ∃ n,
    deleteTask id w =
      (inr n,
       mkWorld (filter (λ x : Doc, x !! "_id" ≠ Some (VObjectId oid)) (tasks w))
               (projects w) (next_oid w) (pcre w) (clock w) (reads w))
    ∧ (n = 1%N ↔ ∃ d, d ∈ tasks w ∧ d !! "_id" = Some (VObjectId oid))
    ∧ (n = 0%N ↔ ¬ ∃ d, d ∈ tasks w ∧ d !! "_id" = Some (VObjectId oid)).
Proof.
  intros Hid Hl. pose proof (deleteTask_outcome id oid w Hid) as Ho.
  unfold lookup_id in Ho. cbn [collection] in Ho.
  destruct (first_match _ _) as [[i d]|] eqn:Hf.
  - exists 1%N. rewrite Ho, (delete_first_by_id _ oid i d) by done.
    apply first_match_Some in Hf as (Hi & Hd%matches_oid & _).
    assert (∃ d0, d0 ∈ tasks w ∧ d0 !! "_id" = Some (VObjectId oid)) as Hex.
    { exists d. split; [by eapply list_elem_of_lookup_2 | done]. }
    split; [done|]. split; [done|]. split; [done | by intros []].
  - exists 0%N. rewrite Ho, filter_by_id_absent, world_eta by done.
    assert (¬ ∃ d0, d0 ∈ tasks w ∧ d0 !! "_id" = Some (VObjectId oid)) as Hex.
    { intros (d0 & Hd0 & Hm). eapply first_match_None; [done..|].
      by apply matches_oid. }
    split; [done|]. split; [|done]. split; [done | by intros ?].
Qed.

Lemma deleteTask_removes_witness :
  ObjectId.parse T1 = Some 2%N ∧ NoDup (ids (tasks sample_world)) ∧
  deleteTask T1 sample_world = (inr 1%N, mkWorld [] [alpha] 3 sample_pcre sample_clock 0).
Proof.
  assert (NoDup (ids (tasks sample_world))) as Hl by apply NoDup_singleton.
  split; [reflexivity|]. split; [exact Hl|].
  destruct (deleteTask_removes T1 2 sample_world eq_refl Hl)
    as (n & Hrun & Hone & _).
  rewrite Hrun. f_equal. f_equal. apply Hone.
  exists design. split; [by left | reflexivity].
Defined.

(** X6. When the stored projects have distinct identifiers,
    [deleteProject] with a well-formed id leaves exactly the projects
    with another [_id]: [getProjects] afterwards lists no project with
    the id and still lists every other project. *)
Theorem deleteProject_removes (id : string) (pid : N) (w : World) :
  ObjectId.parse id = Some pid →
  NoDup (ids (projects w)) →
  ∃ n w',
    deleteProject id w = (inr n, w')
    ∧ projects w' =
        filter (λ x : Doc, x !! "_id" ≠ Some (VObjectId pid)) (projects w)
    ∧ getProjects w' = (inr (projects w'), w')
    ∧ (∀ p, p ∈ projects w' → p !! "_id" ≠ Some (VObjectId pid))
    ∧ (∀ p, p ∈ projects w → p !! "_id" ≠ Some (VObjectId pid) →
            p ∈ projects w').
Proof.
  intros Hid Hl. pose proof (deleteProject_outcome id pid w Hid) as Ho.
  unfold lookup_id in Ho. cbn [collection] in Ho.
  assert (∀ l : list Doc,
            (∀ p, p ∈ filter (λ x : Doc, x !! "_id" ≠ Some (VObjectId pid)) l →
                  p !! "_id" ≠ Some (VObjectId pid))
            ∧ (∀ p, p ∈ l → p !! "_id" ≠ Some (VObjectId pid) →
                    p ∈ filter (λ x : Doc, x !! "_id" ≠ Some (VObjectId pid)) l))
    as Hfilter.
  { intros l. split.
    - by intros p [Hp _]%list_elem_of_filter.
    - intros p Hp Hne. by apply list_elem_of_filter. }
  destruct (first_match _ _) as [[i d]|] eqn:Hf.
  - eexists _, _. split; [exact Ho|]. cbn [projects].
    rewrite (delete_first_by_id _ pid i d) by done.
    split; [done|]. split; [apply (find_all Projects)|]. apply Hfilter.
  - eexists _, _. split; [exact Ho|].
    rewrite filter_by_id_absent by done.
    split; [done|]. split; [apply (find_all Projects)|]. split; [|done].
    intros p Hp Hm. eapply first_match_None; [done..|]. by apply matches_oid.
Qed.

Lemma deleteProject_removes_witness :
  ObjectId.parse P1 = Some 1%N ∧ NoDup (ids (projects sample_world)) ∧
  ∃ n w', deleteProject P1 sample_world = (inr n, w') ∧ projects w' = [].
Proof.
  assert (NoDup (ids (projects sample_world))) as Hl by apply NoDup_singleton.
  split; [reflexivity|]. split; [exact Hl|].
  destruct (deleteProject_removes P1 1 sample_world eq_refl Hl)
    as (n & w' & Hrun & Hp & _).
  exists n, w'. split; [exact Hrun | exact Hp].
Defined.

(** ** Distinct identifiers are kept *)

Lemma updateTask_rewrites (id : string) (patch : Doc) (w : World) :
  rewritten (tasks w) (tasks (updateTask id patch w).2)
  ∧ projects (updateTask id patch w).2 = projects w.
Proof.
  destruct (ObjectId.parse id) as [oid|] eqn:Hid.
  - pose proof (updateTask_outcome id oid patch w Hid) as Ho.
    destruct (first_match _ (tasks w)) as [[j x]|];
      [rewrite Ho; split; [apply rewritten_same | done]|].
    destruct (lookup_id Tasks oid w) as [[i d]|] eqn:Hl;
      [|rewrite Ho; split; [apply rewritten_same | done]].
    destruct Ho as [->|[Hsame [n ->]]]; [split; [apply rewritten_same | done]|].
    split; [|done]. cbn.
    apply (rewritten_insert _ i d); [by eapply first_match_lookup | done].
  - unfold updateTask. rewrite (isValid_parse_None _ Hid).
    split; [apply rewritten_same | done].
Qed.

Lemma updateProject_rewrites (id : string) (patch : Doc) (w : World) :
  tasks (updateProject id patch w).2 = tasks w
  ∧ rewritten (projects w) (projects (updateProject id patch w).2).
Proof.
  destruct (ObjectId.parse id) as [oid|] eqn:Hid.
  - pose proof (updateProject_outcome id oid patch w Hid) as Ho.
    destruct (first_match _ (projects w)) as [[j x]|];
      [rewrite Ho; split; [done | apply rewritten_same]|].
    destruct (lookup_id Projects oid w) as [[i d]|] eqn:Hl;
      [|rewrite Ho; split; [done | apply rewritten_same]].
    destruct Ho as [->|[Hsame [n ->]]]; [split; [done | apply rewritten_same]|].
    split; [done|]. cbn.
    apply (rewritten_insert _ i d); [by eapply first_match_lookup | done].
  - unfold updateProject. rewrite (isValid_parse_None _ Hid).
    split; [done | apply rewritten_same].
Qed.

Lemma deleteTask_rewrites (id : string) (w : World) :
  rewritten (tasks w) (tasks (deleteTask id w).2)
  ∧ projects (deleteTask id w).2 = projects w.
Proof.
  destruct (ObjectId.parse id) as [oid|] eqn:Hid.
  - pose proof (deleteTask_outcome id oid w Hid) as Ho.
    destruct (lookup_id Tasks oid w) as [[i d]|]; rewrite Ho; cbn.
    + split; [apply rewritten_delete | done].
    + split; [apply rewritten_same | done].
  - unfold deleteTask. rewrite (isValid_parse_None _ Hid).
    split; [apply rewritten_same | done].
Qed.

Lemma deleteProject_rewrites (id : string) (w : World) :
  rewritten (tasks w) (tasks (deleteProject id w).2)
  ∧ rewritten (projects w) (projects (deleteProject id w).2).
Proof.
  destruct (ObjectId.parse id) as [pid|] eqn:Hid.
  - pose proof (deleteProject_outcome id pid w Hid) as Ho.
    destruct (lookup_id Projects pid w) as [[i p]|]; rewrite Ho; cbn.
    + split; [apply rewritten_fmap, unlink_id | apply rewritten_delete].
    + split; apply rewritten_same.
  - unfold deleteProject. rewrite (isValid_parse_None _ Hid).
    split; apply rewritten_same.
Qed.

(** What an insert does to the identifiers of the two collections. *)
Lemma insertOne_ids (c : Collection) (doc : Doc) (w : World) :
  NoDup (ids (collection c w)) →
  NoDup (ids (collection c (insertOne c doc w).2))
  ∧ ∀ c', c' ≠ c → collection c' (insertOne c doc w).2 = collection c' w.
Proof.
  intros Hl. destruct (insertOne c doc w) as [[e|id] w'] eqn:Hrun; cbn.
  - apply insertOne_failure in Hrun as [Ht Hp].
    assert (∀ c0, collection c0 w' = collection c0 w) as Hsame
      by (by intros []).
    split; [by rewrite Hsame | by intros ??].
  - apply insertOne_success in Hrun as (Hc & Hb & Hfresh & Hother & _).
    split; [|done]. rewrite Hc, ids_app, ids_cons. cbn.
    unfold serialize. rewrite lookup_fmap, lookup_insert_eq. cbn.
    apply NoDup_app. split; [done|]. split; [|apply NoDup_singleton].
    intros y (x & Hx & Hxn)%elem_of_ids ->%list_elem_of_singleton.
    apply (Hfresh x Hx). by rewrite Hb in Hxn.
Qed.

(** X7. Every call of the two services, whether it returns or throws,
    keeps the identifiers of the stored tasks distinct and those of the
    stored projects distinct. *)
Theorem unique_ids_preserved (op : Op) (w : World) :
  unique_ids w → unique_ids (exec op w).
Proof.
  intros [Ht Hp]. destruct op; cbn [exec].
  - pose proof (createTask_outcome taskData w) as Ho.
    destruct (first_match _ _) as [[i x]|]; rewrite Ho; [done|].
    match goal with
    | |- context [insertOne Tasks ?doc ?w0] =>
        destruct (insertOne_ids Tasks doc w0 Ht) as [Hn Hother]
    end.
    split; [exact Hn|]. specialize (Hother Projects).
    cbn [collection] in Hother. by rewrite Hother.
  - destruct (updateTask_rewrites id updateData w) as [Hr Hq].
    split; [by eapply NoDup_ids_rewritten | by rewrite Hq].
  - destruct (deleteTask_rewrites id w) as [Hr Hq].
    split; [by eapply NoDup_ids_rewritten | by rewrite Hq].
  - destruct (updateTaskStatus_keeps id status w) as (_ & _ & _ & Hr & Hq).
    split; by eapply NoDup_ids_rewritten.
  - destruct (assignTaskToProject_keeps taskId projectId w)
      as (_ & _ & _ & Hr & Hq).
    split; by eapply NoDup_ids_rewritten.
  - pose proof (createProject_outcome projectData w) as Ho.
    destruct (first_match _ _) as [[i x]|]; rewrite Ho; [done|].
    match goal with
    | |- context [insertOne Projects ?doc ?w0] =>
        destruct (insertOne_ids Projects doc w0 Hp) as [Hn Hother]
    end.
    split; [|exact Hn]. specialize (Hother Tasks).
    cbn [collection] in Hother. by rewrite Hother.
  - destruct (updateProject_rewrites id updateData w) as [Hq Hr].
    split; [by rewrite Hq | by eapply NoDup_ids_rewritten].
  - destruct (deleteProject_rewrites id w) as [Hr Hq].
    split; by eapply NoDup_ids_rewritten.
Qed.

Lemma unique_ids_preserved_witness :
  unique_ids sample_world ∧
  unique_ids (exec (CreateTask implement_draft) sample_world).
Proof.
  assert (unique_ids sample_world) as Hw by (split; apply NoDup_singleton).
  split; [exact Hw|].
  exact (unique_ids_preserved (CreateTask implement_draft) sample_world Hw).
Defined.

(** ** References to projects *)

Lemma elem_of_insert_inv {A} (l : list A) (i : nat) (x t : A) :
  t ∈ <[i := x]> l → t = x ∨ t ∈ l.
Proof.
  intros [j Hj]%list_elem_of_lookup.
  apply list_lookup_insert_Some in Hj as [(_ & -> & _)|[_ Hj]]; [by left|].
  right. by eapply list_elem_of_lookup_2.
Qed.

Lemma insert_keeps_id (l : list Doc) (i : nat) (d x p : Doc) (v : Value) :
  l !! i = Some d → x !! "_id" = d !! "_id" →
  p ∈ l → p !! "_id" = Some v →
  ∃ p', p' ∈ <[i := x]> l ∧ p' !! "_id" = Some v.
Proof.
  intros Hi Hx [j Hj]%list_elem_of_lookup Hp.
  destruct (decide (i = j)) as [->|Hne].
  - exists x. split.
    + apply list_elem_of_lookup. exists j.
      apply list_lookup_insert_eq. by eapply lookup_lt_Some.
    + rewrite Hx. congruence.
  - exists p. split; [|done]. apply list_elem_of_lookup. exists j.
    by rewrite list_lookup_insert_ne.
Qed.

(** A [$set] on one task that mentions no [_id]. *)
Lemma updateOne_tasks_set (oid : N) (s : Doc) (w : World) :
  s !! "_id" = None →
  ∃ r w', updateOne Tasks (FEq "_id" (VObjectId oid)) (USet s) w = (inr r, w')
          ∧ projects w' = projects w
          ∧ (tasks w' = tasks w
             ∨ ∃ i d, tasks w !! i = Some d
                      ∧ tasks w' = <[i := serialize s ∪ d]> (tasks w)).
Proof.
  intros Hid. rewrite updateOne_set by done. unfold lookup_id.
  destruct (first_match _ _) as [[i d]|] eqn:Hf; eexists _, _;
    (split; [done|]); (split; [done|]); [right|by left].
  exists i, d. split; [by eapply first_match_lookup | done].
Qed.

Lemma updateTaskStatus_shape (id : string) (status : Value) (w : World) :
  projects (updateTaskStatus id status w).2 = projects w
  ∧ (tasks (updateTaskStatus id status w).2 = tasks w
     ∨ ∃ i d s, tasks w !! i = Some d ∧ s !! "projectId" = None
                ∧ tasks (updateTaskStatus id status w).2 =
                  <[i := serialize s ∪ d]> (tasks w)).
Proof.
  unfold updateTaskStatus.
  destruct (ObjectId.parse id) as [oid|] eqn:Hid.
  - rewrite (isValid_parse _ _ Hid). cbn [negb]. rewrite !bind_eq. msimpl.
    rewrite Hid. msimpl.
    do 2 case_bool_decide; msimpl;
      match goal with
      | |- context [updateOne Tasks (FEq "_id" (VObjectId ?o)) (USet ?s) ?w0] =>
          destruct (updateOne_tasks_set o s w0) as (r & w' & -> & Hp & Ht);
          [by rewrite !lookup_insert_ne, ?lookup_singleton_ne|];
          cbn [tasks projects] in *; split; [exact Hp|];
          destruct Ht as [Ht|(i & d & Hi & Ht)]; [by left|right];
          exists i, d, s; split; [done|]; split; [|done];
          by rewrite !lookup_insert_ne, ?lookup_singleton_ne
      end.
  - rewrite (isValid_parse_None _ Hid). cbn. split; [done | by left].
Qed.

Lemma assignTaskToProject_shape (taskId projectId : string) (w : World) :
  projects (assignTaskToProject taskId projectId w).2 = projects w
  ∧ (tasks (assignTaskToProject taskId projectId w).2 = tasks w
     ∨ ∃ i d pid p, tasks w !! i = Some d
                    ∧ p ∈ projects w ∧ p !! "_id" = Some (VObjectId pid)
                    ∧ tasks (assignTaskToProject taskId projectId w).2 =
                      <[i := <["projectId" := VObjectId pid]> d]> (tasks w)).
Proof.
  unfold assignTaskToProject.
  destruct (ObjectId.parse projectId) as [pid|] eqn:Hp;
    [rewrite (isValid_parse _ _ Hp)
    |rewrite (isValid_parse_None _ Hp); split; [done | by left]].
  destruct (ObjectId.parse taskId) as [tid|] eqn:Ht;
    [rewrite (isValid_parse _ _ Ht)
    |rewrite (isValid_parse_None _ Ht); split; [done | by left]].
  cbn [negb]. rewrite !bind_eq. msimpl. rewrite Ht. msimpl. rewrite Hp. msimpl.
  destruct (first_match _ (projects w)) as [[j p]|] eqn:Hf;
    [|split; [done | by left]].
  msimpl.
  destruct (updateOne_tasks_set tid {[ "projectId" := VObjectId pid ]} w)
    as (r & w' & -> & Hq & Hs); [done|].
  cbn [snd]. split; [exact Hq|].
  destruct Hs as [Hs|(i & d & Hi & Hs)]; [by left|right].
  apply first_match_Some in Hf as (Hj & Hm%matches_oid & _).
  exists i, d, pid, p. split; [done|].
  split; [by eapply list_elem_of_lookup_2|]. split; [done|].
  by rewrite Hs, set_singleton.
Qed.

(** X8. No call of the two services leaves a task pointing at a missing
    project: if every [projectId] that is an ObjectId is the [_id] of a
    stored project, and the body of a [createTask] or [updateTask] brings
    no [projectId] of a missing project, the same holds after the call.
    In particular [deleteProject] unlinks every task of the project, and
    [assignTaskToProject] links to stored projects only. *)
Theorem refs_ok_preserved (op : Op) (w : World) :
  refs_ok w → brings_no_dangling op w → refs_ok (exec op w).
Proof.
  intros Hw Hop. destruct op; cbn [exec brings_no_dangling] in *.
  - (* createTask *)
    pose proof (createTask_outcome taskData w) as Ho.
    destruct (first_match _ _) as [[i x]|]; rewrite Ho; [done|].
    match goal with
    | |- context [insertOne Tasks ?doc ?w0] =>
        destruct (insertOne Tasks doc w0) as [[e|id] w'] eqn:Hrun
    end; cbn [snd].
    + apply insertOne_failure in Hrun as [Ht Hp]. cbn in Ht, Hp.
      intros t pid Hin Href. rewrite Ht in Hin. rewrite Hp. by eapply Hw.
    + apply insertOne_success in Hrun as (Hc & _ & _ & Hother & _).
      specialize (Hother Projects). cbn [collection tasks projects] in *.
      intros t pid Hin Href. rewrite Hother by done. rewrite Hc in Hin.
      apply elem_of_app in Hin as [Hin|Hin%list_elem_of_singleton];
        [by eapply Hw|].
      subst t. apply Hop. unfold serialize in Href.
      rewrite lookup_fmap, !lookup_insert_ne in Href by done.
      destruct (taskData !! "projectId") as [[]|]; by simplify_eq.
  - (* updateTask *)
    destruct (ObjectId.parse id) as [oid|] eqn:Hid;
      [|unfold updateTask; by rewrite (isValid_parse_None _ Hid)].
    pose proof (updateTask_outcome id oid updateData w Hid) as Ho.
    destruct (first_match _ (tasks w)) as [[j x]|]; [by rewrite Ho|].
    destruct (lookup_id Tasks oid w) as [[i d]|] eqn:Hl; [|by rewrite Ho].
    destruct Ho as [->|[_ [n ->]]]; [done|]. cbn.
    apply first_match_lookup in Hl. cbn in Hl.
    intros t pid [->|Hin]%elem_of_insert_inv Href; [|by eapply Hw].
    rewrite set_cleaned_lookup in Href.
    destruct (updateData !! "projectId") as [v|] eqn:Hv.
    + destruct (decide (v = VUndefined)) as [->|Hne].
      * apply (Hw d pid); [by eapply list_elem_of_lookup_2 | done].
      * apply Hop. by destruct v.
    + apply (Hw d pid); [by eapply list_elem_of_lookup_2 | done].
  - (* deleteTask *)
    destruct (ObjectId.parse id) as [oid|] eqn:Hid;
      [|unfold deleteTask; by rewrite (isValid_parse_None _ Hid)].
    pose proof (deleteTask_outcome id oid w Hid) as Ho.
    destruct (lookup_id Tasks oid w) as [[i d]|]; rewrite Ho; [|done]. cbn.
    intros t pid Hin%list_elem_of_delete_inv Href. by eapply Hw.
  - (* updateTaskStatus *)
    destruct (updateTaskStatus_shape id status w)
      as [Hp [Ht|(i & d & s & Hi & Hs & Ht)]];
      intros t pid Hin Href; rewrite Hp; rewrite Ht in Hin; [by eapply Hw|].
    apply elem_of_insert_inv in Hin as [->|Hin]; [|by eapply Hw].
    rewrite set_lookup, Hs in Href.
    apply (Hw d pid); [by eapply list_elem_of_lookup_2 | done].
  - (* assignTaskToProject *)
    destruct (assignTaskToProject_shape taskId projectId w)
      as [Hp [Ht|(i & d & pid0 & p & Hi & Hpin & Hpid & Ht)]];
      intros t pid Hin Href; rewrite Hp; rewrite Ht in Hin; [by eapply Hw|].
    apply elem_of_insert_inv in Hin as [->|Hin]; [|by eapply Hw].
    rewrite lookup_insert_eq in Href. injection Href as <-. eauto.
  - (* createProject *)
    pose proof (createProject_outcome projectData w) as Ho.
    destruct (first_match _ _) as [[i x]|]; rewrite Ho; [done|].
    match goal with
    | |- context [insertOne Projects ?doc ?w0] =>
        destruct (insertOne Projects doc w0) as [[e|id] w'] eqn:Hrun
    end; cbn [snd].
    + apply insertOne_failure in Hrun as [Ht Hp]. cbn in Ht, Hp.
      intros t pid Hin Href. rewrite Ht in Hin. rewrite Hp. by eapply Hw.
    + apply insertOne_success in Hrun as (Hc & _ & _ & Hother & _).
      specialize (Hother Tasks). cbn [collection tasks projects] in *.
      intros t pid Hin Href. rewrite Hother in Hin by done. rewrite Hc.
      destruct (Hw t pid Hin Href) as (p & Hpin & Hpid).
      exists p. split; [|done]. apply elem_of_app. by left.
  - (* updateProject *)
    destruct (ObjectId.parse id) as [oid|] eqn:Hid;
      [|unfold updateProject; by rewrite (isValid_parse_None _ Hid)].
    pose proof (updateProject_outcome id oid updateData w Hid) as Ho.
    destruct (first_match _ (projects w)) as [[j x]|]; [by rewrite Ho|].
    destruct (lookup_id Projects oid w) as [[i d]|] eqn:Hl; [|by rewrite Ho].
    destruct Ho as [->|[Hsame [n ->]]]; [done|]. cbn.
    apply first_match_lookup in Hl. cbn in Hl.
    intros t pid Hin Href. destruct (Hw t pid Hin Href) as (p & Hpin & Hpid).
    by eapply insert_keeps_id.
  - (* deleteProject *)
    destruct (ObjectId.parse id) as [pid0|] eqn:Hid;
      [|unfold deleteProject; by rewrite (isValid_parse_None _ Hid)].
    pose proof (deleteProject_outcome id pid0 w Hid) as Ho.
    destruct (lookup_id Projects pid0 w) as [[i p0]|] eqn:Hl; rewrite Ho;
      [|done]. cbn.
    apply first_match_Some in Hl as (Hi & Hm%matches_oid & _). cbn in Hi.
    intros t pid (t0 & -> & Hin)%list_elem_of_fmap Href.
    assert (pid ≠ pid0) as Hne.
    { intros ->. by apply (unlink_projectId pid0 t0). }
    assert (t0 !! "projectId" = Some (VObjectId pid)) as Href0.
    { unfold unlink in Href. case_decide as Hd; [|done].
      rewrite lookup_delete_eq in Href. done. }
    destruct (Hw t0 pid Hin Href0) as (p & [j Hj]%list_elem_of_lookup & Hpid).
    exists p. split; [|done].
    assert (i ≠ j) as Hij by (intros ->; congruence).
    apply list_elem_of_lookup.
    destruct (decide (j < i)) as [Hlt|Hge].
    + exists j. cbn [projects]. by rewrite list_lookup_delete_lt.
    + exists (j - 1). cbn [projects]. rewrite list_lookup_delete_ge by lia.
      by replace (S (j - 1)) with j by lia.
Qed.

Lemma refs_ok_preserved_witness :
  refs_ok sample_world
  ∧ brings_no_dangling (DeleteProject P1) sample_world
  ∧ refs_ok (exec (DeleteProject P1) sample_world).
Proof.
  assert (refs_ok sample_world) as Hw.
  { intros t pid [->|[]%elem_of_nil]%elem_of_cons [= <-].
    exists alpha. split; [by left | reflexivity]. }
  split; [exact Hw|]. split; [exact I|].
  exact (refs_ok_preserved (DeleteProject P1) sample_world Hw I).
Defined.

(** ** Creating, then listing or deleting *)

Lemma delete_last {A} (l : list A) (x : A) : delete (length l) (l ++ [x]) = l.
Proof. induction l as [|a l IH]; [done|]. cbn. by f_equal. Qed.

(** The document an insert appended is the first one with its
    identifier. *)
Lemma first_match_appended (l : list Doc) (x : Doc) (oid : N) :
  (∀ d, d ∈ l → d !! "_id" ≠ Some (VObjectId oid)) →
  x !! "_id" = Some (VObjectId oid) →
  first_match (FEq "_id" (VObjectId oid)) (l ++ [x]) = Some (length l, x).
Proof.
  intros Hfresh Hx. apply first_match_Some. split; [|split].
  - by rewrite lookup_app_r, Nat.sub_diag.
  - by apply matches_oid.
  - intros j y Hj Hlt Hm%matches_oid.
    rewrite lookup_app_l in Hj by done.
    apply (Hfresh y); [by eapply list_elem_of_lookup_2 | done].
Qed.

(** What a successful [createTask] leaves. *)
Lemma createTask_success (draft : Doc) (w w1 : World) (id : Value) :
  createTask draft w = (inr id, w1) →
  ∃ t, tasks w1 = tasks w ++ [t]
       ∧ projects w1 = projects w
       ∧ t !! "_id" = Some id
       ∧ t !! "status" = Some (VString "TODO")
       ∧ ∀ d, d ∈ tasks w → d !! "_id" ≠ Some id.
Proof.
  pose proof (createTask_outcome draft w) as Ho.
  destruct (first_match _ _) as [[i x]|]; rewrite Ho; [done|].
  intros (Hc & Hb & Hfresh & Hother & _)%insertOne_success.
  specialize (Hother Projects). cbn [collection tasks projects] in *.
  eexists. split; [exact Hc|]. split; [by apply Hother|].
  unfold serialize. rewrite !lookup_fmap, lookup_insert_eq.
  rewrite !(lookup_insert_ne _ _ "status") by done. rewrite lookup_insert_eq.
  cbn. by rewrite Hb.
Qed.

(** X9. Deleting the task that [createTask] has just created, by the id
    it returned, deletes one task and restores the stored tasks and
    projects of before the creation. *)
Theorem createTask_then_deleteTask (draft : Doc) (id : string) (oid : N) (w w1 : World) :
  ObjectId.parse id = Some oid →
  createTask draft w = (inr (VObjectId oid), w1) →
  ∃ w2, deleteTask id w1 = (inr 1%N, w2)
        ∧ tasks w2 = tasks w ∧ projects w2 = projects w.
Proof.
  intros Hid (t & Ht & Hp & Htid & _ & Hfresh)%createTask_success.
  pose proof (deleteTask_outcome id oid w1 Hid) as Ho.
  unfold lookup_id in Ho. cbn [collection] in Ho.
  rewrite Ht, (first_match_appended _ t oid) in Ho by done.
  eexists. split; [exact Ho|]. cbn. by rewrite delete_last.
Qed.

Lemma createTask_then_deleteTask_witness :
  ∃ w1 w2,
    createTask implement_draft sample_world = (inr (VObjectId 3), w1)
    ∧ deleteTask "000000000000000000000003" w1 = (inr 1%N, w2)
    ∧ tasks w2 = tasks sample_world.
Proof.
  assert (∃ w1, createTask implement_draft sample_world = (inr (VObjectId 3), w1))
    as [w1 Hrun] by (eexists; vm_compute; reflexivity).
  destruct (createTask_then_deleteTask implement_draft
              "000000000000000000000003" 3 sample_world w1 eq_refl Hrun)
    as (w2 & Hdel & Ht & _).
  exists w1, w2. split; [exact Hrun|]. split; [exact Hdel | exact Ht].
Defined.

(** X10. A task just created is listed under 'TODO', whatever status its
    body asked for: after a successful [createTask], [getTasks('TODO')]
    is the former 'TODO' listing followed by the new task, and the
    listing of every other status is the former one. *)
Theorem createTask_listed_under_TODO (draft : Doc) (w w1 : World) (id : Value) :
  createTask draft w = (inr id, w1) →
  ∃ t,
    t !! "_id" = Some id
    ∧ getTasks (Some "TODO") w1 =
        (inr (filter (λ d : Doc, d !! "status" = Some (VString "TODO")) (tasks w)
              ++ [t]), w1)
    ∧ ∀ s, s ≠ "" → s ≠ "TODO" →
        getTasks (Some s) w1 =
          (inr (filter (λ d : Doc, d !! "status" = Some (VString s)) (tasks w)),
           w1).
Proof.
  intros (t & Ht & _ & Htid & Hst & _)%createTask_success.
  exists t. split; [done|]. split.
  - rewrite getTasks_nonempty by done.
    rewrite Ht, filter_app, filter_cons_True by done.
    by rewrite filter_nil.
  - intros s Hs Hne. rewrite getTasks_nonempty by done.
    rewrite Ht, filter_app, filter_cons_False.
    + by rewrite filter_nil, app_nil_r.
    + rewrite Hst. by intros [= <-].
Qed.

Lemma createTask_listed_under_TODO_witness :
  ∃ w1 t,
    createTask implement_draft sample_world = (inr (VObjectId 3), w1)
    ∧ implement_draft !! "status" = Some (VString "DONE")
    ∧ getTasks (Some "TODO") w1 = (inr [design; t], w1)
    ∧ getTasks (Some "DONE") w1 = (inr [], w1).
Proof.
  assert (∃ w1, createTask implement_draft sample_world = (inr (VObjectId 3), w1))
    as [w1 Hrun] by (eexists; vm_compute; reflexivity).
  destruct (createTask_listed_under_TODO implement_draft sample_world w1
              (VObjectId 3) Hrun) as (t & _ & Htodo & Hother).
  exists w1, t. split; [exact Hrun|]. split; [reflexivity|].
  split; [exact Htodo|]. by apply (Hother "DONE").
Defined.

(** ** Updating twice *)

(** Writing a patch a second time changes nothing. *)
Lemma set_cleaned_twice (patch d : Doc) :
  serialize (cleaned patch) ∪ (serialize (cleaned patch) ∪ d) =
  serialize (cleaned patch) ∪ d.
Proof.
  apply map_eq. intros k. rewrite !set_cleaned_lookup.
  by destruct (patch !! k) as [[]|].
Qed.

(** The document rewritten in place is still the first with its
    identifier. *)
Lemma first_match_rewritten (l : list Doc) (oid : N) (i : nat) (d x : Doc) :
  first_match (FEq "_id" (VObjectId oid)) l = Some (i, d) →
  x !! "_id" = d !! "_id" →
  first_match (FEq "_id" (VObjectId oid)) (<[i := x]> l) = Some (i, x).
Proof.
  intros (Hi & Hm%matches_oid & Hfirst)%first_match_Some Hx.
  apply first_match_Some. split; [|split].
  - apply list_lookup_insert_eq. by eapply lookup_lt_Some.
  - apply matches_oid. by rewrite Hx.
  - intros j y Hj Hlt. rewrite list_lookup_insert_ne in Hj by lia.
    by apply (Hfirst j y).
Qed.

(** X11. Repeating a successful [updateTask] on a stored task: when the
    patch has a name, the second call throws the duplicate-name error,
    the task now bearing that name itself, and changes nothing; when the
    patch has no name, the second call returns 0 and changes nothing. *)
Theorem updateTask_twice (id : string) (oid : N) (patch : Doc) (w w1 : World) (n : N) (i : nat) (d : Doc) :
  ObjectId.parse id = Some oid →
  lookup_id Tasks oid w = Some (i, d) →
  updateTask id patch w = (inr n, w1) →
  (∀ s, patch !! "name" = Some (VString s) →
        updateTask id patch w1 = (inl (TaskAlreadyExists (VString s)), w1))
  ∧
  (patch !! "name" = None ∨ patch !! "name" = Some VUndefined →
   updateTask id patch w1 = (inr 0%N, w1)).
Proof.
  intros Hid Hl Hrun.
  pose proof (updateTask_outcome id oid patch w Hid) as Ho.
  destruct (first_match _ (tasks w)) as [[j x]|] eqn:Hf;
    [rewrite Ho in Hrun; done|].
  rewrite Hl in Ho. destruct Ho as [Ho|[Hsame [n' Ho]]];
    rewrite Ho in Hrun; [done|]. injection Hrun as _ <-.
  set (d' := serialize (cleaned patch) ∪ d) in *.
  pose proof (first_match_lookup _ _ _ _ Hl) as Hi. cbn in Hi.
  split.
  - intros s Hs.
    assert (field "name" patch = VString s) as Hfield
      by (unfold field; by rewrite Hs).
    pose proof (updateTask_outcome id oid patch
                  (mkWorld (<[i := d']> (tasks w)) (projects w) (next_oid w)
                           (pcre w) (clock w) (reads w)) Hid) as Ho1.
    cbn [tasks] in Ho1. rewrite Hfield in Ho1.
    destruct (first_match_exists (FEq "name" (VString s)) (<[i := d']> (tasks w)))
      as (j & x & Hx); [|by rewrite Hx in Ho1].
    exists d'. split.
    + apply list_elem_of_lookup. exists i.
      apply list_lookup_insert_eq. by eapply lookup_lt_Some.
    + apply matches_name_string. unfold d'. by rewrite set_cleaned_lookup, Hs.
  - intros Hname.
    assert (d' !! "name" = d !! "name") as Hn.
    { unfold d'. rewrite set_cleaned_lookup. by destruct Hname as [->| ->]. }
    assert (first_match (FEq "name" (field "name" patch)) (<[i := d']> (tasks w))
            = None) as Hf1.
    { apply first_match_None.
      assert (∀ y, y ∈ tasks w → ¬ matches (FEq "name" (field "name" patch)) y)
        as Hno by (by apply first_match_None).
      intros y [->|Hy]%elem_of_insert_inv; [|by apply Hno].
      rewrite matches_FEq, Hn, <- matches_FEq. apply Hno.
      by eapply list_elem_of_lookup_2. }
    rewrite (updateTask_modified id oid patch _ i d' Hid); cbn [tasks projects].
    + unfold d'. rewrite set_cleaned_twice, bool_decide_eq_true_2 by done.
      by rewrite list_insert_insert_eq.
    + done.
    + unfold lookup_id in *. cbn [collection tasks] in *.
      by apply (first_match_rewritten _ oid i d).
    + unfold d'. by rewrite set_cleaned_twice.
Qed.

Lemma updateTask_twice_witness :
  ∃ w1,
    updateTask T1 rename_task_patch sample_world = (inr 1%N, w1)
    ∧ updateTask T1 rename_task_patch w1 =
        (inl (TaskAlreadyExists (VString "Design v2")), w1).
Proof.
  assert (∃ w1, updateTask T1 rename_task_patch sample_world = (inr 1%N, w1))
    as [w1 Hrun] by (eexists; vm_compute; reflexivity).
  exists w1. split; [exact Hrun|].
  apply (updateTask_twice T1 2 rename_task_patch sample_world w1 1 0 design
           eq_refl eq_refl Hrun).
  reflexivity.
Defined.

(** ** The controllers *)

Ltac hsimpl :=
  cbv [mbind Handler_bind mret Handler_ret await res_status res_json try_catch
       internal_error instanceof_Error includes_already_exists falsy];
  cbn [sent statusCode new_response fst snd].

(** What a controller does with the outcome of its service call. *)
Lemma createTaskController_run (body : Doc) (w : World) :
  createTaskController body new_response w =
  match createTask body w with
  | (inr taskId, w') =>
      (inr (),
       mkResponse 201
         (Some (201, Object [("message", JString "Task created successfully");
                             ("taskId", JValue taskId)])), w')
  | (inl e, w') =>
      match kind e with
      | Conflict =>
          (inl HeadersSent,
           mkResponse 500 (Some (409, Object [("error", JMessage (Raised e))])), w')
      | _ =>
          (inr (),
           mkResponse 500 (Some (500, Object [("error", JMessage (Raised e))])), w')
      end
  end.
Proof.
  unfold createTaskController. hsimpl.
  destruct (createTask body w) as [[e|taskId] w']; [|done].
  by destruct e.
Qed.

(** X12. [createTaskController] on a body whose name is that of a stored
    task sends status 409 with the service's error, and, there being no
    [return] after it, goes on to send status 500: that second send
    throws, so the handler ends with 'headers already sent' instead of
    completing.  The client has received the 409, and the database is
    unchanged. *)
Theorem createTaskController_duplicate (body : Doc) (w : World) (s : string) (t : Doc) :
  body !! "name" = Some (VString s) →
  t ∈ tasks w → t !! "name" = Some (VString s) →
  createTaskController body new_response w =
    (inl HeadersSent,
     mkResponse 500
       (Some (409, Object [("error", JMessage (Raised (TaskAlreadyExists (VString s))))])),
     w).
Proof.
  intros Hs Ht Hn. rewrite createTaskController_run.
  assert (field "name" body = VString s) as Hfield
    by (unfold field; by rewrite Hs).
  pose proof (createTask_outcome body w) as Ho. rewrite Hfield in Ho.
  destruct (first_match_exists (FEq "name" (VString s)) (tasks w))
    as (i & d & Hf).
  { exists t. split; [done|]. by apply matches_name_string. }
  rewrite Hf in Ho. by rewrite Ho.
Qed.

Lemma createTaskController_duplicate_witness :
  createTaskController design_draft new_response sample_world =
    (inl HeadersSent,
     mkResponse 500
       (Some (409, Object [("error",
                            JMessage (Raised (TaskAlreadyExists (VString "Design"))))])),
     sample_world).
Proof.
  apply (createTaskController_duplicate design_draft sample_world "Design" design).
  - reflexivity.
  - by left.
  - reflexivity.
Defined.

Lemma createProjectController_run (body : Doc) (w : World) :
  createProjectController body new_response w =
  match createProject body w with
  | (inr projectId, w') =>
      (inr (),
       mkResponse 201
         (Some (201, Object [("message", JString "Project created successfully");
                             ("projectId", JValue projectId)])), w')
  | (inl e, w') =>
      (inr (),
       mkResponse 500 (Some (500, Object [("error", JMessage (Raised e))])), w')
  end.
Proof.
  unfold createProjectController. hsimpl.
  by destruct (createProject body w) as [[e|projectId] w'].
Qed.

(** X13. [createProjectController] answers 201 or 500 and nothing else;
    in particular a body with the name of a stored project is answered
    500 with the service's duplicate-name error, not 409, and the
    database is unchanged. *)
Theorem createProjectController_never_409 (body : Doc) (w : World) :
  (∃ out b w', createProjectController body new_response w =
               (out, mkResponse 201 (Some (201, b)), w')
               ∨ createProjectController body new_response w =
               (out, mkResponse 500 (Some (500, b)), w'))
  ∧ ∀ s p, body !! "name" = Some (VString s) →
           p ∈ projects w → p !! "name" = Some (VString s) →
           createProjectController body new_response w =
             (inr (),
              mkResponse 500
                (Some (500, Object [("error",
                          JMessage (Raised (ProjectAlreadyExists (VString s))))])),
              w).
Proof.
  rewrite createProjectController_run. split.
  - destruct (createProject body w) as [[e|projectId] w']; eauto.
  - intros s p Hs Hp Hn.
    assert (field "name" body = VString s) as Hfield
      by (unfold field; by rewrite Hs).
    pose proof (createProject_outcome body w) as Ho. rewrite Hfield in Ho.
    destruct (first_match_exists (FEq "name" (VString s)) (projects w))
      as (i & d & Hf).
    { exists p. split; [done|]. by apply matches_name_string. }
    rewrite Hf in Ho. by rewrite Ho.
Qed.

Lemma updateProjectController_run (id : string) (body : Doc) (w : World) :
  updateProjectController id body new_response w =
  match updateProject id body w with
  | (inr 0%N, w') =>
      (inr (),
       mkResponse 404 (Some (404, Object [("message", JString "Project not found")])),
       w')
  | (inr _, w') =>
      (inr (),
       mkResponse 200
         (Some (200, Object [("message", JString "Project updated successfully")])),
       w')
  | (inl e, w') =>
      (inr (),
       mkResponse 500 (Some (500, Object [("error", JMessage (Raised e))])), w')
  end.
Proof.
  unfold updateProjectController. hsimpl.
  by destruct (updateProject id body w) as [[e|[|n]] w'].
Qed.

(** X14. [updateProjectController] with a body that has a name, as the
    validation on its route demands, and no [_id]: when a stored project
    bears the name, be it the project to update, the answer is 500 with
    the service's duplicate-name error and nothing is written; otherwise
    the answer is 404 'Project not found' exactly when no project has the
    id, and 200 with the body written over the project when one has. *)
Theorem updateProjectController_named_body (id : string) (oid : N) (body : Doc) (w : World) (s : string) :
  ObjectId.parse id = Some oid →
  body !! "name" = Some (VString s) →
  body !! "_id" = None →
  (∀ p, p ∈ projects w → p !! "name" = Some (VString s) →
     updateProjectController id body new_response w =
       (inr (),
        mkResponse 500
          (Some (500, Object [("error",
                    JMessage (Raised (ProjectAlreadyExists (VString s))))])),
        w))
  ∧
  ((∀ p, p ∈ projects w → p !! "name" ≠ Some (VString s)) →
   (lookup_id Projects oid w = None →
    updateProjectController id body new_response w =
      (inr (),
       mkResponse 404 (Some (404, Object [("message", JString "Project not found")])),
       w))
   ∧
   (∀ i d, lookup_id Projects oid w = Some (i, d) →
    updateProjectController id body new_response w =
      (inr (),
       mkResponse 200
         (Some (200, Object [("message", JString "Project updated successfully")])),
       mkWorld (tasks w) (<[i := serialize (cleaned body) ∪ d]> (projects w))
               (next_oid w) (pcre w) (clock w) (reads w))
    ∧ (serialize (cleaned body) ∪ d) !! "name" = Some (VString s))).
Proof.
  intros Hid Hs Hnoid.
  assert (field "name" body = VString s) as Hfield
    by (unfold field; by rewrite Hs).
  pose proof (updateProject_outcome id oid body w Hid) as Ho.
  rewrite Hfield in Ho. rewrite updateProjectController_run. split.
  - intros p Hp Hn.
    destruct (first_match_exists (FEq "name" (VString s)) (projects w))
      as (j & x & Hf).
    { exists p. split; [done|]. by apply matches_name_string. }
    rewrite Hf in Ho. by rewrite Ho.
  - intros Hno.
    assert (first_match (FEq "name" (field "name" body)) (projects w) = None)
      as Hf.
    { rewrite Hfield. apply first_match_None.
      intros p Hp Hm%matches_name_string. by apply (Hno p). }
    rewrite Hfield in Hf. rewrite Hf in Ho. split.
    + intros Hl. rewrite Hl in Ho. by rewrite Ho.
    + intros i d Hl.
      assert ((serialize (cleaned body) ∪ d) !! "name" = Some (VString s))
        as Hname by (by rewrite set_cleaned_lookup, Hs).
      split; [|exact Hname].
      rewrite <- Hfield in Hf.
      rewrite (updateProject_modified id oid body w i d Hid Hf Hl)
        by (by apply set_cleaned_id).
      rewrite bool_decide_eq_false_2; [done|].
      intros Hsame. rewrite Hsame in Hname.
      apply (Hno d); [|done].
      apply first_match_lookup in Hl. by eapply list_elem_of_lookup_2.
Qed.

Lemma updateProjectController_named_body_witness :
  updateProjectController P1 keep_name_patch new_response sample_world =
    (inr (),
     mkResponse 500
       (Some (500, Object [("error",
                 JMessage (Raised (ProjectAlreadyExists (VString "Alpha"))))])),
     sample_world)
  ∧ updateProjectController T1 rename_project_patch new_response sample_world =
    (inr (),
     mkResponse 404 (Some (404, Object [("message", JString "Project not found")])),
     sample_world)
  ∧ ∃ w', updateProjectController P1 rename_project_patch new_response sample_world =
    (inr (),
     mkResponse 200
       (Some (200, Object [("message", JString "Project updated successfully")])),
     w').
Proof.
  split; [|split].
  - destruct (updateProjectController_named_body P1 1 keep_name_patch
                sample_world "Alpha" eq_refl eq_refl eq_refl) as [H _].
    apply (H alpha); [by left | reflexivity].
  - destruct (updateProjectController_named_body T1 2 rename_project_patch
                sample_world "Alpha v2" eq_refl eq_refl eq_refl) as [_ H].
    destruct H as [H _].
    { intros p ->%list_elem_of_singleton. discriminate. }
    by apply H.
  - destruct (updateProjectController_named_body P1 1 rename_project_patch
                sample_world "Alpha v2" eq_refl eq_refl eq_refl) as [_ H].
    destruct H as [_ H].
    { intros p ->%list_elem_of_singleton. discriminate. }
    destruct (H 0 alpha eq_refl) as [Hrun _]. eexists. exact Hrun.
Defined.

(** ** Requests about a task that is not stored *)

Lemma updateTaskStatus_missing (id : string) (oid : N) (status : Value) (w : World) :
  ObjectId.parse id = Some oid →
  lookup_id Tasks oid w = None →
  ∃ w', updateTaskStatus id status w = (inr 0%N, w')
        ∧ tasks w' = tasks w ∧ projects w' = projects w.
Proof.
  intros Hid Hl. unfold updateTaskStatus.
  rewrite (isValid_parse _ _ Hid). cbn [negb]. rewrite !bind_eq. msimpl.
  rewrite Hid. msimpl. unfold lookup_id in Hl. cbn [collection] in Hl.
  do 2 case_bool_decide; msimpl; unfold updateOne;
    cbn [compile collection tasks]; rewrite Hl; eauto.
Qed.

Lemma assignTaskToProject_outcome (taskId projectId : string) (tid pid : N) (w : World) :
  ObjectId.parse taskId = Some tid →
  ObjectId.parse projectId = Some pid →
  match lookup_id Projects pid w with
  | None => assignTaskToProject taskId projectId w = (inl ProjectNotFound, w)
  | Some _ =>
      match lookup_id Tasks tid w with
      | None => assignTaskToProject taskId projectId w = (inr 0%N, w)
      | Some (i, d) =>
          assignTaskToProject taskId projectId w =
            (inr 1%N,
             mkWorld (<[i := <["projectId" := VObjectId pid]> d]> (tasks w))
                     (projects w) (next_oid w) (pcre w) (clock w) (reads w))
      end
  end.
Proof.
  intros Ht Hp. unfold assignTaskToProject.
  rewrite (isValid_parse _ _ Ht), (isValid_parse _ _ Hp). cbn [negb].
  rewrite !bind_eq. msimpl. rewrite Ht. msimpl. rewrite Hp. msimpl.
  unfold lookup_id. cbn [collection].
  destruct (first_match _ (projects w)) as [[j p]|]; [|done]. msimpl.
  unfold updateOne. cbn [compile collection update_doc].
  destruct (first_match _ (tasks w)) as [[i d]|] eqn:Hf; [|done].
  rewrite set_singleton. cbn [to_bson].
  rewrite bool_decide_eq_true_2; [done|].
  apply first_match_Some in Hf as (_ & Hm%matches_oid & _).
  by rewrite lookup_insert_ne.
Qed.

(** X15. The task controllers do not report a missing task: for a
    well-formed id that no task has, [deleteTaskController] and
    [updateTaskStatusController] answer 200 with a count of 0, and so
    does [updateTaskController] when the body passes the name check; the
    stored tasks and projects are unchanged. *)
Theorem task_controllers_no_404 (id : string) (oid : N) (body : Doc) (w : World) :
  ObjectId.parse id = Some oid →
  lookup_id Tasks oid w = None →
  deleteTaskController id new_response w =
    (inr (),
     mkResponse 200
       (Some (200, Object [("message", JString "Task deleted successfully");
                           ("deletedCount", JCount 0)])),
     w)
  ∧ (∃ w', updateTaskStatusController id body new_response w =
             (inr (),
              mkResponse 200
                (Some (200, Object [("message", JString "Task status updated successfully");
                                    ("modifiedCount", JCount 0)])),
              w')
           ∧ tasks w' = tasks w ∧ projects w' = projects w)
  ∧ ((∀ t, t ∈ tasks w → ¬ matches (FEq "name" (field "name" body)) t) →
     updateTaskController id body new_response w =
       (inr (),
        mkResponse 200
          (Some (200, Object [("message", JString "Task updated successfully");
                              ("modifiedCount", JCount 0)])),
        w)).
Proof.
  intros Hid Hl. split; [|split].
  - unfold deleteTaskController. hsimpl.
    pose proof (deleteTask_outcome id oid w Hid) as Ho. rewrite Hl in Ho.
    by rewrite Ho.
  - destruct (updateTaskStatus_missing id oid (field "status" body) w Hid Hl)
      as (w' & Hrun & Htasks & Hprojects).
    exists w'. split; [|done].
    unfold updateTaskStatusController. hsimpl. by rewrite Hrun.
  - intros Hno%first_match_None.
    pose proof (updateTask_outcome id oid body w Hid) as Ho.
    rewrite Hno, Hl in Ho.
    unfold updateTaskController. hsimpl. by rewrite Ho.
Qed.

Lemma task_controllers_no_404_witness :
  deleteTaskController P1 new_response sample_world =
    (inr (),
     mkResponse 200
       (Some (200, Object [("message", JString "Task deleted successfully");
                           ("deletedCount", JCount 0)])),
     sample_world).
Proof.
  destruct (task_controllers_no_404 P1 1 ∅ sample_world eq_refl eq_refl)
    as [H _].
  exact H.
Defined.

(** X16. [assignTaskToProjectController] with well-formed ids: a missing
    project is answered 500 with 'Project not found', whether or not the
    task is stored; a stored project with a missing task is answered 404
    'Task not found'; with both stored the answer is 200 and the task's
    [projectId] is the project's id, also when it was so before. *)
Theorem assignTaskToProjectController_answers (taskId projectId : string) (tid pid : N) (w : World) :
  ObjectId.parse taskId = Some tid →
  ObjectId.parse projectId = Some pid →
  (lookup_id Projects pid w = None →
   assignTaskToProjectController taskId projectId new_response w =
     (inr (),
      mkResponse 500 (Some (500, Object [("error", JMessage (Raised ProjectNotFound))])),
      w))
  ∧
  (is_Some (lookup_id Projects pid w) → lookup_id Tasks tid w = None →
   assignTaskToProjectController taskId projectId new_response w =
     (inr (),
      mkResponse 404 (Some (404, Object [("message", JString "Task not found")])),
      w))
  ∧
  (∀ i d, is_Some (lookup_id Projects pid w) → lookup_id Tasks tid w = Some (i, d) →
   assignTaskToProjectController taskId projectId new_response w =
     (inr (),
      mkResponse 200
        (Some (200, Object [("message", JString "Task assigned to project successfully")])),
      mkWorld (<[i := <["projectId" := VObjectId pid]> d]> (tasks w))
              (projects w) (next_oid w) (pcre w) (clock w) (reads w))).
Proof.
  intros Ht Hp.
  pose proof (assignTaskToProject_outcome taskId projectId tid pid w Ht Hp) as Ho.
  unfold assignTaskToProjectController. hsimpl.
  split; [|split].
  - intros Hl. rewrite Hl in Ho. by rewrite Ho.
  - intros [x Hx] Hl. rewrite Hx, Hl in Ho. by rewrite Ho.
  - intros i d [x Hx] Hl. rewrite Hx, Hl in Ho. by rewrite Ho.
Qed.

Lemma assignTaskToProjectController_answers_witness :
  assignTaskToProjectController P1 T1 new_response sample_world =
    (inr (),
     mkResponse 500 (Some (500, Object [("error", JMessage (Raised ProjectNotFound))])),
     sample_world)
  ∧ assignTaskToProjectController P1 P1 new_response sample_world =
    (inr (),
     mkResponse 404 (Some (404, Object [("message", JString "Task not found")])),
     sample_world).
Proof.
  split.
  - destruct (assignTaskToProjectController_answers P1 T1 1 2 sample_world
                eq_refl eq_refl) as [H _].
    by apply H.
  - destruct (assignTaskToProjectController_answers P1 P1 1 1 sample_world
                eq_refl eq_refl) as (_ & H & _).
    apply H; [by eexists | reflexivity].
Defined.

(** X17. [deleteProjectController] with a well-formed id answers 404
    'Project not found' when no project has the id, leaving the database
    as it was, and otherwise 200 after deleting the project and unlinking
    its tasks. *)
Theorem deleteProjectController_answers (id : string) (pid : N) (w : World) :
  ObjectId.parse id = Some pid →
  (lookup_id Projects pid w = None →
   deleteProjectController id new_response w =
     (inr (),
      mkResponse 404 (Some (404, Object [("message", JString "Project not found")])),
      w))
  ∧
  (∀ i p, lookup_id Projects pid w = Some (i, p) →
   deleteProjectController id new_response w =
     (inr (),
      mkResponse 200
        (Some (200,
               Object [("message",
                        JString "Project deleted successfully and associated tasks unlinked")])),
      mkWorld (unlink pid <$> tasks w) (delete i (projects w))
              (next_oid w) (pcre w) (clock w) (reads w))).
Proof.
  intros Hid. pose proof (deleteProject_outcome id pid w Hid) as Ho.
  unfold deleteProjectController. hsimpl. split.
  - intros Hl. rewrite Hl in Ho. by rewrite Ho.
  - intros i p Hl. rewrite Hl in Ho. by rewrite Ho.
Qed.

Lemma deleteProjectController_answers_witness :
  deleteProjectController T1 new_response sample_world =
    (inr (),
     mkResponse 404 (Some (404, Object [("message", JString "Project not found")])),
     sample_world).
Proof.
  destruct (deleteProjectController_answers T1 2 sample_world eq_refl) as [H _].
  by apply H.
Defined.

(** ** Every request *)

(** X18. Whatever the request and the database, a controller called with
    a new response sends exactly one answer, with status 200, 201, 404,
    409 or 500.  Only [createTaskController] sends 409; only
    [assignTaskToProjectController], [updateProjectController] and
    [deleteProjectController] send 404.  A controller ends with 'headers
    already sent' exactly when it has sent 409, and completes
    otherwise. *)
Theorem controllers_answer_once (r : Request) (w : World) :
  ∃ out code body res w',
    controller r new_response w = (out, res, w')
    ∧ sent res = Some (code, body)
    ∧ code ∈ [200; 201; 404; 409; 500]
    ∧ (code = 409 → ∃ b, r = PostTask b)
    ∧ (code = 404 →
       (∃ t p, r = AssignTask t p) ∨ (∃ id b, r = PutProject id b)
       ∨ ∃ id, r = DeleteProjectById id)
    ∧ (out = inr () ∨ out = inl HeadersSent)
    ∧ (out = inl HeadersSent ↔ code = 409).
Proof.
  destruct r; cbn [controller];
    unfold getTasksController, searchTasksController,
      filterTasksByProjectController, createTaskController,
      updateTaskController, deleteTaskController, updateTaskStatusController,
      assignTaskToProjectController, getProjectsController,
      createProjectController, updateProjectController,
      deleteProjectController;
    hsimpl;
    match goal with
    | |- context [match ?m w with _ => _ end] =>
        destruct (m w) as [[e|a] w']
    end;
    try (destruct e); try case_bool_decide;
    (do 5 eexists; split; [reflexivity|]; split; [reflexivity|];
     split; [set_solver|];
     split; [first [discriminate | intros _; eauto]|];
     split; [first [discriminate | intros _; eauto 6]|];
     split; [first [by left | by right]|];
     split; first [discriminate | done]).
Qed.

(** ** The aggregations *)

Lemma elem_of_lookup_stage (from : list Doc) (localField foreignField : string) (d x : Doc) :
  x ∈ lookup_stage from localField foreignField d ↔
  x ∈ from ∧ lookup_value foreignField x = lookup_value localField d.
Proof. unfold lookup_stage. rewrite list_elem_of_filter. tauto. Qed.

Lemma existsb_elem_of {A} (f : A → bool) (l : list A) :
  existsb f l ↔ ∃ x, x ∈ l ∧ f x.
Proof.
  induction l as [|a l IH]; cbn.
  - split; [done|]. by intros (x & Hx%elem_of_nil & _).
  - rewrite orb_True, IH. split.
    + intros [H|(x & Hx & Hf)]; [exists a | exists x]; split; try done;
        [by left | by right].
    + intros (x & [->|Hx]%elem_of_cons & Hf); [by left | right; eauto].
Qed.

Lemma date_gte_spec (bound : Z) (v : option Value) :
  date_gte bound v ↔ ∃ t, v = Some (VDate t) ∧ (bound ≤ t)%Z.
Proof.
  destruct v as [[]|]; cbn; try (split; [done | by intros (? & [=] & _)]).
  rewrite bool_decide_spec. split; [eauto | by intros (? & [= <-] & ?)].
Qed.

Lemma date_lt_spec (bound : Z) (v : option Value) :
  date_lt bound v ↔ ∃ t, v = Some (VDate t) ∧ (t < bound)%Z.
Proof.
  destruct v as [[]|]; cbn; try (split; [done | by intros (? & [=] & _)]).
  rewrite bool_decide_spec. split; [eauto | by intros (? & [= <-] & ?)].
Qed.

Lemma projectsWithTasksDueToday_run (setHours : nat → nat → nat → nat → Z → Z) (w : World) :
  projectsWithTasksDueToday setHours w =
  (inr (filter
          (λ pts : Doc * list Doc,
             existsb (λ t : Doc,
                        date_gte (setHours 0 0 0 0 (clock w (reads w)))
                                 (t !! "dueDate")) pts.2
             && existsb (λ t : Doc,
                           date_lt (setHours 23 59 59 999 (clock w (S (reads w))))
                                   (t !! "dueDate")) pts.2)
          ((λ p, (p, lookup_stage (tasks w) "_id" "projectId" p)) <$> projects w)),
   mkWorld (tasks w) (projects w) (next_oid w) (pcre w) (clock w) (S (S (reads w)))).
Proof. reflexivity. Qed.

(** X19. The first pipeline of [runAggregations] tests the two bounds on
    the joined tasks separately: a project is selected as soon as one of
    its tasks is due at or after the lower bound and one, possibly
    another, is due before the upper bound.  Neither task need be due
    within the day. *)
Theorem projectsWithTasksDueToday_two_tasks (setHours : nat → nat → nat → nat → Z → Z) (w : World) (p t1 t2 : Doc) (pid : N) (a b : Z) :
  p ∈ projects w → p !! "_id" = Some (VObjectId pid) →
  t1 ∈ tasks w → t1 !! "projectId" = Some (VObjectId pid) →
  t2 ∈ tasks w → t2 !! "projectId" = Some (VObjectId pid) →
  t1 !! "dueDate" = Some (VDate a) →
  t2 !! "dueDate" = Some (VDate b) →
  (setHours 0%nat 0%nat 0%nat 0%nat (clock w (reads w)) ≤ a)%Z →
  (b < setHours 23%nat 59%nat 59%nat 999%nat (clock w (S (reads w))))%Z →
  ∃ l w', projectsWithTasksDueToday setHours w = (inr l, w')
          ∧ (p, lookup_stage (tasks w) "_id" "projectId" p) ∈ l
          ∧ t1 ∈ lookup_stage (tasks w) "_id" "projectId" p
          ∧ t2 ∈ lookup_stage (tasks w) "_id" "projectId" p.
Proof.
  intros Hp Hid Ht1 Hp1 Ht2 Hp2 Hd1 Hd2 Ha Hb.
  assert (∀ t, t ∈ tasks w → t !! "projectId" = Some (VObjectId pid) →
               t ∈ lookup_stage (tasks w) "_id" "projectId" p) as Hjoin.
  { intros t Ht Hpt. apply elem_of_lookup_stage. split; [done|].
    unfold lookup_value. by rewrite Hpt, Hid. }
  rewrite projectsWithTasksDueToday_run. do 2 eexists. split; [reflexivity|].
  split; [|split; by apply Hjoin].
  apply list_elem_of_filter. split.
  - cbn [snd]. apply andb_True. split; apply existsb_elem_of.
    + exists t1. split; [by apply Hjoin|]. apply date_gte_spec. eauto.
    + exists t2. split; [by apply Hjoin|]. apply date_lt_spec. eauto.
  - apply list_elem_of_fmap. by exists p.
Qed.

Lemma projectsWithTasksDueToday_two_tasks_witness :
  ∃ l w', projectsWithTasksDueToday utc_setHours busy_world = (inr l, w')
          ∧ (alpha, [overdue; later]) ∈ l.
Proof.
  destruct (projectsWithTasksDueToday_two_tasks utc_setHours busy_world
              alpha later overdue 1 1710000000000 1700000000000)
    as (l & w' & Hrun & Hin & _).
  - by left.
  - reflexivity.
  - right. by left.
  - reflexivity.
  - by left.
  - reflexivity.
  - reflexivity.
  - reflexivity.
  - vm_compute. discriminate.
  - vm_compute. reflexivity.
  - exists l, w'. split; [exact Hrun|]. exact Hin.
Defined.

Lemma elem_of_unwind (l : list (Doc * list Doc)) (d x : Doc) :
  (d, x) ∈ unwind l ↔ ∃ xs, (d, xs) ∈ l ∧ x ∈ xs.
Proof.
  unfold unwind. rewrite list_elem_of_join. split.
  - intros (ys & Hin & ([d' xs] & -> & Hl)%list_elem_of_fmap).
    cbn [fst snd] in Hin.
    apply list_elem_of_fmap in Hin as (y & [= -> ->] & Hy). eauto.
  - intros (xs & Hl & Hx). exists ((λ y, (d, y)) <$> xs). split.
    + apply list_elem_of_fmap. eauto.
    + apply list_elem_of_fmap. by exists (d, xs).
Qed.

Lemma tasksWithProjectsDueToday_run (setHours : nat → nat → nat → nat → Z → Z) (w : World) :
  tasksWithProjectsDueToday setHours w =
  (inr (filter
          (λ tp : Doc * Doc,
             date_gte (setHours 0 0 0 0 (clock w (reads w))) (tp.2 !! "dueDate")
             && date_lt (setHours 23 59 59 999 (clock w (S (reads w))))
                        (tp.2 !! "dueDate"))
          (unwind ((λ t, (t, lookup_stage (projects w) "projectId" "_id" t))
                     <$> tasks w))),
   mkWorld (tasks w) (projects w) (next_oid w) (pcre w) (clock w) (S (S (reads w)))).
Proof. reflexivity. Qed.

(** X20. The second pipeline of [runAggregations] filters on the
    [dueDate] of the joined project: when no stored project has a
    [dueDate] that is a date, as for projects that carry [startDate] and
    [endDate] only, it returns no task, whatever the clock and the time
    zone. *)
Theorem tasksWithProjectsDueToday_needs_dueDate (setHours : nat → nat → nat → nat → Z → Z) (w : World) :
  (∀ p t, p ∈ projects w → p !! "dueDate" ≠ Some (VDate t)) →
  tasksWithProjectsDueToday setHours w =
    (inr [],
     mkWorld (tasks w) (projects w) (next_oid w) (pcre w) (clock w) (S (S (reads w)))).
Proof.
  intros Hno. rewrite tasksWithProjectsDueToday_run. do 2 f_equal.
  apply filter_none. intros [t p] Hin Hsel. cbn [snd] in Hsel.
  apply andb_True in Hsel as [(d & Hd & _)%date_gte_spec _].
  apply elem_of_unwind in Hin as (xs & Hl & Hp).
  apply list_elem_of_fmap in Hl as (t' & [= <- ->] & _).
  apply elem_of_lookup_stage in Hp as [Hp _]. by apply (Hno p d).
Qed.

Lemma tasksWithProjectsDueToday_needs_dueDate_witness :
  ∃ w', tasksWithProjectsDueToday utc_setHours sample_world = (inr [], w').
Proof.
  eexists.
  apply (tasksWithProjectsDueToday_needs_dueDate utc_setHours sample_world).
  intros p t ->%list_elem_of_singleton. discriminate.
Defined.
